(** * ebook-tracker: a shallow embedding of the Express/Mongoose backend

    The development follows [server.js] and [models/Book.js].  The route
    handlers are modelled as they run behind the [auth] middleware, which
    has stored the authenticated user's id in [req.user.id].  JavaScript
    values are modelled as they are at run time: strings are sequences of
    UTF-16 code units, numbers are IEEE-754 binary64 values (the Standard
    Library's [spec_float] with [prec = 53] and [emax = 1024]), request
    bodies are parsed JSON values.  Handlers are written in a small
    state-and-exception monad over the world outside a request: the two
    Mongo collections, the Cloudinary blob store and a log of external
    effects.  Library calls whose result the server cannot determine
    (database failures, the PDF parser, Cloudinary, the clock, fresh
    ObjectIds) are supplied by an environment; library functions
    ([ObjectId.isValid], Mongoose's casts, bcrypt, jsonwebtoken) are
    section variables. *)

From Stdlib Require Import ZArith NArith List Bool String Ascii Lia.
From Stdlib Require Import Floats.SpecFloat.
From stdpp Require Import base decidable option numbers list sorting.

Local Open Scope Z_scope.

(** ** JavaScript strings *)

(** A JavaScript string is a sequence of 16-bit code units. *)
Abbreviation jsstring := (list N).

(** [str] embeds an ASCII literal. *)
Definition str (s : string) : jsstring :=
  map N_of_ascii (list_ascii_of_string s).

(** WhiteSpace and LineTerminator code points, as stripped by
    [String.prototype.trim] and skipped by the StringToNumber grammar. *)
Definition isWhiteSpace (c : N) : bool :=
  existsb (N.eqb c)
    [9; 10; 11; 12; 13; 32; 160; 5760; 8232; 8233; 8239; 8287; 12288; 65279]%N
  || ((8192 <=? c)%N && (c <=? 8202)%N).

Fixpoint trimStart (s : jsstring) : jsstring :=
  match s with
  | [] => []
  | c :: s' => if isWhiteSpace c then trimStart s' else s
  end.

Definition trimEnd (s : jsstring) : jsstring := rev (trimStart (rev s)).

(** [value.trim()] *)
Definition trim (s : jsstring) : jsstring := trimEnd (trimStart s).

(** Truthiness of a string: non-empty. *)
Definition nonEmpty (s : jsstring) : bool :=
  match s with [] => false | _ => true end.

(** ** JavaScript numbers *)

Abbreviation Number := spec_float.

Definition prec : Z := 53.
Definition emax : Z := 1024.

Definition pos_zero : Number := S754_zero false.

(** The double nearest to an integer (exact below 2^53). *)
Definition Number_of_Z (z : Z) : Number := binary_normalize prec emax z 0 false.

(** [x / y], [x * y], [x < y], [x > y], [x === y] on numbers. *)
Definition Number_div (x y : Number) : Number := SFdiv prec emax x y.
Definition Number_mul (x y : Number) : Number := SFmul prec emax x y.
Definition Number_lt (x y : Number) : bool := SFltb x y.
Definition Number_gt (x y : Number) : bool := SFltb y x.
Definition Number_eq (x y : Number) : bool := SFeqb x y.

(** The mathematical value of a finite number, when it is an integer. *)
Definition Number_to_Z (x : Number) : option Z :=
  match x with
  | S754_zero _ => Some 0
  | S754_finite s m e =>
      if 0 <=? e then Some (cond_Zopp s (Z.pos m * 2 ^ e))
      else if Z.pos m mod 2 ^ (- e) =? 0
           then Some (cond_Zopp s (Z.pos m / 2 ^ (- e)))
           else None
  | _ => None
  end.

(** [Number.isInteger(x)] for a number [x]: finite with an integral value. *)
Definition Number_isInteger (x : Number) : bool :=
  match Number_to_Z x with Some _ => true | None => false end.

(** [Math.round(x)]: the integer nearest to [x], ties towards +Infinity;
    NaN, the infinities and the zeros are returned unchanged, and a
    negative [x >= -0.5] gives [-0]. *)
Definition Math_round (x : Number) : Number :=
  match x with
  | S754_finite s m e =>
      if 0 <=? e then x
      else
        let d := 2 ^ (- e) in
        let n := (2 * cond_Zopp s (Z.pos m) + d) / (2 * d) in
        if n =? 0 then S754_zero s else Number_of_Z n
  | _ => x
  end.

(** [Math.max(x, y)]: NaN when either is NaN, and [+0] is larger than [-0]. *)
Definition Math_max (x y : Number) : Number :=
  match SFcompare x y with
  | None => S754_nan
  | Some Gt => x
  | Some Lt => y
  | Some Eq =>
      match x, y with
      | S754_zero true, S754_zero false => y
      | _, _ => x
      end
  end.

(** ** StringToNumber *)

Definition isDigit (c : N) : bool := ((48 <=? c) && (c <=? 57))%N.

(** Value of a digit of a radix-16 (or smaller) literal. *)
Definition hexDigit (c : N) : option Z :=
  if isDigit c then Some (Z.of_N (c - 48))
  else if ((97 <=? c) && (c <=? 102))%N then Some (Z.of_N (c - 87))
  else if ((65 <=? c) && (c <=? 70))%N then Some (Z.of_N (c - 55))
  else None.

(** Longest prefix of decimal digits, and the rest. *)
Fixpoint spanDigits (s : jsstring) : jsstring * jsstring :=
  match s with
  | c :: s' =>
      if isDigit c then let '(ds, r) := spanDigits s' in (c :: ds, r)
      else ([], s)
  | [] => ([], [])
  end.

Definition digitsValue (ds : jsstring) : Z :=
  fold_left (λ acc c, 10 * acc + Z.of_N (c - 48)) ds 0.

(** All of [s] as digits of the given radix; [None] when [s] is empty or
    holds a character that is not such a digit. *)
Definition radixValue (radix : Z) (s : jsstring) : option Z :=
  match s with
  | [] => None
  | _ =>
      fold_left
        (λ acc c,
           match acc, hexDigit c with
           | Some a, Some d => if d <? radix then Some (radix * a + d) else None
           | _, _ => None
           end)
        s (Some 0)
  end.

(** The double nearest to [(-1)^s * m * 10^k] (round to nearest, ties to
    even), obtained from the correctly rounded integer conversion or
    division of the Standard Library's specification. *)
Definition decimalToNumber (s : bool) (m : Z) (k : Z) : Number :=
  match m with
  | Z.pos p =>
      if 0 <=? k then binary_normalize prec emax (cond_Zopp s (m * 10 ^ k)) 0 s
      else
        match 10 ^ (- k) with
        | Z.pos q => SFdiv prec emax (S754_finite s p 0) (S754_finite false q 0)
        | _ => S754_nan
        end
  | _ => S754_zero s
  end.

(** ExponentPart, if any, followed by the end of the string. *)
Definition parseExponent (s : jsstring) : option Z :=
  match s with
  | [] => Some 0
  | c :: r =>
      if ((c =? 101) || (c =? 69))%N then
        let '(neg, r') :=
          match r with
          | 43%N :: r' => (false, r')
          | 45%N :: r' => (true, r')
          | _ => (false, r)
          end in
        match spanDigits r' with
        | ((_ :: _) as ds, []) => Some (cond_Zopp neg (digitsValue ds))
        | _ => None
        end
      else None
  end.

(** StrUnsignedDecimalLiteral with sign [sg] already read. *)
Definition parseUnsignedDecimal (sg : bool) (s : jsstring) : Number :=
  if decide (s = str "Infinity") then S754_infinity sg
  else
    let '(ip, r) := spanDigits s in
    let '(fp, r') :=
      match r with
      | 46%N :: r1 => spanDigits r1
      | _ => ([], r)
      end in
    match ip ++ fp with
    | [] => S754_nan
    | ds =>
        match parseExponent r' with
        | Some e => decimalToNumber sg (digitsValue ds) (e - Z.of_nat (length fp))
        | None => S754_nan
        end
    end.

(** StrNumericLiteral on an already trimmed, non-empty string. *)
Definition parseNumericLiteral (s : jsstring) : Number :=
  match s with
  | 48%N :: c :: r =>
      if ((c =? 120) || (c =? 88))%N then
        from_option Number_of_Z S754_nan (radixValue 16 r)
      else if ((c =? 111) || (c =? 79))%N then
        from_option Number_of_Z S754_nan (radixValue 8 r)
      else if ((c =? 98) || (c =? 66))%N then
        from_option Number_of_Z S754_nan (radixValue 2 r)
      else parseUnsignedDecimal false s
  | 43%N :: r => parseUnsignedDecimal false r
  | 45%N :: r => parseUnsignedDecimal true r
  | _ => parseUnsignedDecimal false s
  end.

(** [Number(s)] for a string [s]: surrounding white space is ignored, the
    empty string is [+0], anything outside the grammar is NaN. *)
Definition StringToNumber (s : jsstring) : Number :=
  match trim s with
  | [] => pos_zero
  | t => parseNumericLiteral t
  end.

(** ** JavaScript values *)

Local Set Warnings "-register-all".

(** Values that reach a handler: [undefined] for a missing property and
    the values [JSON.parse] produces.  An object is its list of own
    properties. *)
Inductive JSValue :=
| JUndefined
| JNull
| JBool (b : bool)
| JNum (x : Number)
| JStr (s : jsstring)
| JArr (elems : list JSValue)
| JObj (props : list (jsstring * JSValue)).

(** Result of evaluating an expression: a value or a thrown exception. *)
Inductive completion (A : Type) :=
| Normal (a : A)
| Abrupt.
Arguments Normal {A} a.
Arguments Abrupt {A}.

(** [obj.key] on a parsed JSON object: the own property, else [undefined]
    (none of the keys read by the handlers exists on [Object.prototype]). *)
Fixpoint getProp (props : list (jsstring * JSValue)) (key : jsstring) : JSValue :=
  match props with
  | [] => JUndefined
  | (k, v) :: rest => if decide (k = key) then v else getProp rest key
  end.

Definition hasOwnProperty (props : list (jsstring * JSValue)) (key : jsstring) : bool :=
  existsb (λ p, bool_decide (p.1 = key)) props.

(** ToString of a parsed JSON value throws a TypeError exactly when it
    meets an object whose own [toString] property shadows
    [Object.prototype.toString] with a value that is not callable. *)
Fixpoint toStringThrows (v : JSValue) : bool :=
  match v with
  | JObj props => hasOwnProperty props (str "toString")
  | JArr elems => existsb toStringThrows elems
  | _ => false
  end.

(** [Number(String(v))] for an array [v] none of whose elements throws:
    [Array.prototype.join] yields the empty string for an empty array, a
    string with a comma (never numeric) for two or more elements, and the
    element's own string for one element, where [null] and [undefined]
    print as the empty string and a number prints as a literal that reads
    back as itself ([-0] prints as "0"). *)
Fixpoint arrayToNumber (v : JSValue) : Number :=
  match v with
  | JArr [] => pos_zero
  | JArr [e] =>
      match e with
      | JUndefined | JNull => pos_zero
      | JBool _ => S754_nan
      | JNum (S754_zero _) => pos_zero
      | JNum x => x
      | JStr s => StringToNumber s
      | JArr _ => arrayToNumber e
      | JObj _ => S754_nan
      end
  | _ => S754_nan
  end.

(** [Number(value)] *)
Definition ToNumber (v : JSValue) : completion Number :=
  match v with
  | JUndefined => Normal S754_nan
  | JNull => Normal pos_zero
  | JBool b => Normal (if b then Number_of_Z 1 else pos_zero)
  | JNum x => Normal x
  | JStr s => Normal (StringToNumber s)
  | JArr _ => if toStringThrows v then Abrupt else Normal (arrayToNumber v)
  | JObj _ => if toStringThrows v then Abrupt else Normal S754_nan
  end.

(** [Number.isInteger(value)]: no coercion, only numbers qualify. *)
Definition isInteger (v : JSValue) : bool :=
  match v with
  | JNum x => Number_isInteger x
  | _ => false
  end.

(** ** Helpers of [server.js] *)

(** [parsePage]: [None] is JavaScript's [null]. *)
Definition parsePage (value : JSValue) : completion (option Number) :=
  match ToNumber value with
  | Normal parsed => Normal (if Number_isInteger parsed then Some parsed else None)
  | Abrupt => Abrupt
  end.

(** [parseNonEmptyString] *)
Definition parseNonEmptyString (value : JSValue) : option jsstring :=
  match value with
  | JStr s =>
      let parsed := trim s in
      if nonEmpty parsed then Some parsed else None
  | _ => None
  end.

(** Truthiness of what [parseNonEmptyString] returns: a non-empty string
    is truthy, [null] is not. *)
Definition truthy (parsed : option jsstring) : bool :=
  match parsed with Some _ => true | None => false end.

Definition MAX_PDF_SIZE_BYTES : Z := 15 * 1024 * 1024.

(** ** Data model ([models/Book.js]) *)

(** A Mongo ObjectId is a 96-bit value. *)
Abbreviation ObjectId := N.

#[global] Instance Number_eq_dec : EqDecision Number.
Proof. solve_decision. Defined.

(** Entries of [vocabulary]. *)
Module Vocab.
Record t := mk { _id : ObjectId; word : jsstring; definition : jsstring }.

#[global] Instance eq_dec : EqDecision t.
Proof. solve_decision. Defined.
End Vocab.

(** Entries of [notes]. *)
Module Note.
Record t := mk { _id : ObjectId; title : jsstring; content : jsstring; createdAt : Z }.

#[global] Instance eq_dec : EqDecision t.
Proof. solve_decision. Defined.
End Note.

Module Book.
(** A stored document of [bookSchema].  [createdAt] is the timestamp
    kept by [{ timestamps: true }]; [updatedAt], which no handler reads,
    is left out. *)
Record t := mk {
  _id : ObjectId;
  title : jsstring;
  pdfUrl : jsstring;
  cloudinaryId : jsstring;
  totalPages : Number;
  currentPage : Number;
  vocabulary : list Vocab.t;
  notes : list Note.t;
  owner : ObjectId;
  createdAt : Z
}.

#[global] Instance eq_dec : EqDecision t.
Proof. solve_decision. Defined.

Definition set_currentPage (page : Number) (b : t) : t :=
  mk (_id b) (title b) (pdfUrl b) (cloudinaryId b) (totalPages b) page
     (vocabulary b) (notes b) (owner b) (createdAt b).

Definition set_vocabulary (vs : list Vocab.t) (b : t) : t :=
  mk (_id b) (title b) (pdfUrl b) (cloudinaryId b) (totalPages b) (currentPage b)
     vs (notes b) (owner b) (createdAt b).

Definition set_notes (ns : list Note.t) (b : t) : t :=
  mk (_id b) (title b) (pdfUrl b) (cloudinaryId b) (totalPages b) (currentPage b)
     (vocabulary b) ns (owner b) (createdAt b).

(** The virtual [progressPercentage]. *)
Definition progressPercentage (this : t) : Number :=
  if Number_eq (totalPages this) pos_zero then pos_zero
  else Math_round
         (Number_mul (Number_div (currentPage this) (totalPages this))
                     (Number_of_Z 100)).

(** What [toJSON] with [{ virtuals: true }] sends: the stored fields
    and the virtual, computed from them at that moment. *)
Record json := mkjson { doc : t; percent : Number }.

Definition toJSON (b : t) : json := mkjson b (progressPercentage b).
End Book.

Module User.
(** Modelled from the spec: [models/User.js] is not among the sources;
    a User holds an id, a unique normalised email and a password hash. *)
Record t := mk { _id : ObjectId; email : jsstring; password : jsstring }.
End User.

(** ** HTTP responses *)

Inductive Body :=
| BError (msg : string)
| BPageExceeds (totalPages : Number)
    (** [`Page cannot exceed total pages (${book.totalPages}).`] *)
| BMessage (msg : string)
| BToken (token : jsstring) (userId : ObjectId)
| BBook (b : Book.json)
| BBooks (bs : list Book.json)
| BProgress (page percent : Number)
| BVocabulary (vs : list Vocab.t)
| BVocab (v : Vocab.t)
| BNotes (ns : list Note.t)
| BNote (n : Note.t).

Record Response := mkResponse { status : Z; body : Body }.

Definition error (code : Z) (msg : string) : Response := mkResponse code (BError msg).
Definition json (b : Body) : Response := mkResponse 200 b.

(** ** The world outside a request *)

(** External effects, in the order they happen. *)
Inductive Event :=
| CloudUpload (public_id : jsstring)
| CloudDestroy (public_id : jsstring)
| BookInsert (id : ObjectId)
| BookUpdate (id : ObjectId)      (** the update [save()] sends for a modified document *)
| BookDelete (id : ObjectId)
| Unlink (path : jsstring).

Record World := mkWorld {
  books : list Book.t;      (** the Book collection, in natural order *)
  users : list User.t;      (** the User collection *)
  blobs : list jsstring;    (** public ids held by Cloudinary *)
  log : list Event
}.

Definition set_books (bs : list Book.t) (w : World) : World :=
  mkWorld bs (users w) (blobs w) (log w).
Definition set_blobs (xs : list jsstring) (w : World) : World :=
  mkWorld (books w) (users w) xs (log w).
Definition emit (e : Event) (w : World) : World :=
  mkWorld (books w) (users w) (blobs w) (log w ++ [e]).

(** Mongo keeps [_id] unique within a collection. *)
Definition wf_World (w : World) : Prop := NoDup (Book._id <$> books w).

(** What the environment decides during one request. *)
Record Env := mkEnv {
  db_read_fails : bool;        (** a query rejects (connection lost, ...) *)
  db_write_fails : bool;       (** an insert, update or delete rejects *)
  now : Z;                     (** [Date.now()] *)
  fresh_id : ObjectId;         (** the ObjectId generated for a new (sub)document *)
  fs_read_fails : bool;        (** [fs.readFile] rejects *)
  pdf_numpages : completion JSValue;
    (** [pdf(dataBuffer)]: rejects, or resolves with this [numpages] *)
  cloud_upload : completion (jsstring * jsstring);
    (** [cloudinary.uploader.upload]: rejects, or resolves with
        [secure_url] and [public_id] *)
  cloud_destroy_fails : bool   (** [cloudinary.uploader.destroy] rejects *)
}.

(** ** Handler monad: state, early response, exception *)

Inductive outcome (A : Type) :=
| Value (a : A)
| Sent (r : Response)     (** [return res.status(..).json(..)] *)
| Thrown.                 (** an exception on its way to [catch] *)
Arguments Value {A} a.
Arguments Sent {A} r.
Arguments Thrown {A}.

Definition M (A : Type) : Type := World → outcome A * World.

Definition ret {A} (a : A) : M A := λ w, (Value a, w).
Definition send {A} (r : Response) : M A := λ w, (Sent r, w).
Definition throw {A} : M A := λ w, (Thrown, w).

Definition bind {A B} (m : M A) (k : A → M B) : M B :=
  λ w, match m w with
       | (Value a, w') => k a w'
       | (Sent r, w') => (Sent r, w')
       | (Thrown, w') => (Thrown, w')
       end.

Notation "'do' x <- m ; k" := (bind m (λ x, k))
  (at level 10, x name, m at level 100, k at level 200).

(** [if (c) return res...;] *)
Definition when_send (c : bool) (r : Response) : M unit :=
  if c then send r else ret tt.

(** An evaluation that may throw, or an awaited promise that may reject. *)
Definition lift {A} (c : completion A) : M A :=
  match c with Normal a => ret a | Abrupt => throw end.

(** [try { body } catch (err) { res.status(500).json({ error: msg }) }] *)
Definition try_catch (body : M Response) (msg : string) (w : World) : Response * World :=
  match body w with
  | (Value r, w') => (r, w')
  | (Sent r, w') => (r, w')
  | (Thrown, w') => (error 500 msg, w')
  end.

(** ** Upload middleware (multer) *)

(** The file part of a multipart request, as multer describes it. *)
Record File := mkFile {
  fieldname : jsstring;  (** the name of the form field the file came in *)
  mimetype : jsstring;
  originalname : jsstring;
  size : Z;
  path : jsstring       (** where multer stored the bytes *)
}.

(** [/\.pdf$/i.test(name)] *)
Definition hasPdfExtension (name : jsstring) : bool :=
  match rev name with
  | f :: d :: p :: dot :: _ =>
      ((dot =? 46) && ((p =? 112) || (p =? 80)) && ((d =? 100) || (d =? 68))
       && ((f =? 102) || (f =? 70)))%N
  | _ => false
  end.

(** [fileFilter]: [true] when the file is accepted. *)
Definition fileFilter (file : File) : bool :=
  let hasPdfMime := bool_decide (mimetype file = str "application/pdf") in
  hasPdfMime || hasPdfExtension (originalname file).

(** What reaches the error middleware: a [multer.MulterError] with its
    code and message, or another [Error] with its message. *)
Inductive JSError :=
| MulterError (code : string) (message : string)
| Error (message : string).

Definition message (err : JSError) : string :=
  match err with
  | MulterError _ message => message
  | Error message => message
  end.

(** [err instanceof multer.MulterError && err.code === code] *)
Definition isMulterError (err : JSError) (code : string) : bool :=
  match err with
  | MulterError c _ => String.eqb c code
  | Error _ => false
  end.

(** The error middleware at the end of [server.js]. *)
Definition errorMiddleware (err : JSError) : Response :=
  if isMulterError err "LIMIT_FILE_SIZE"
  then error 400 "PDF file must be 15 MB or smaller."
  else if String.eqb (message err) "Only PDF files are allowed."
  then error 400 (message err)
  else error 500 "Internal server error.".

(** multer's [upload.single('pdf')] on a request with at most one file
    part.  A part without a file name is no file for multer: it is
    skipped and [req.file] stays unset.  A file in a field other than
    [pdf] is refused before the filter is asked, the filter's error is
    passed on, and a file beyond [limits.fileSize] is refused while it is
    read. *)
Definition multer_single (part : option File) : JSError + option File :=
  match part with
  | None => inr None
  | Some file =>
      if bool_decide (originalname file = []) then inr None
      else if negb (bool_decide (fieldname file = str "pdf"))
      then inl (MulterError "LIMIT_UNEXPECTED_FILE" "Unexpected field")
      else if negb (fileFilter file) then inl (Error "Only PDF files are allowed.")
      else if MAX_PDF_SIZE_BYTES <? size file
      then inl (MulterError "LIMIT_FILE_SIZE" "File too large")
      else inr (Some file)
  end.

(** [upload.single('pdf')] followed, on error, by the error middleware:
    either the error response, or [req.file]. *)
Definition upload_single (part : option File) : Response + option File :=
  match multer_single part with
  | inl err => inl (errorMiddleware err)
  | inr file => inr file
  end.

(** ** The server ([server.js]) *)

Section Server.

(** Library functions, left abstract. *)
Variable isValid : jsstring → bool.
  (** [mongoose.Types.ObjectId.isValid] on a route parameter *)
Variable castObjectId : jsstring → option ObjectId.
  (** Mongoose's cast of a string to an ObjectId; [None] is a CastError *)
Variable toLowerCase : jsstring → jsstring.
  (** [String.prototype.toLowerCase] *)
Variable bcrypt_compare : jsstring → jsstring → bool.
  (** [bcrypt.compare(password, hash)] *)
Variable jwt_sign : ObjectId → Z → jsstring.
  (** [jwt.sign({ id }, JWT_SECRET, { expiresIn: '7d' })] at a given time *)

(** *** Queries *)

(** [Book.findOne({ _id: id, owner: userId })] *)
Definition Book_findOne (env : Env) (id userId : jsstring) : M (option Book.t) :=
  match castObjectId id, castObjectId userId with
  | Some i, Some o =>
      if db_read_fails env then throw
      else λ w,
        (Value (snd <$> list_find (λ b, Book._id b = i ∧ Book.owner b = o) (books w)), w)
  | _, _ => throw
  end.

(** Newest first: [.sort({ createdAt: -1 })]. *)
Definition not_older (a b : Book.t) : Prop := Book.createdAt b ≤ Book.createdAt a.

#[local] Instance not_older_dec : RelDecision not_older.
Proof. intros a b. unfold not_older. apply _. Defined.

Definition newest_first (bs : list Book.t) : list Book.t :=
  merge_sort not_older bs.

(** [Book.find({ owner: userId }).sort({ createdAt: -1 })] *)
Definition Book_find (env : Env) (userId : jsstring) : M (list Book.t) :=
  match castObjectId userId with
  | Some o =>
      if db_read_fails env then throw
      else λ w, (Value (newest_first (filter (λ b, Book.owner b = o) (books w))), w)
  | None => throw
  end.

(** The update [book.save()] sends for a loaded document: the document
    with that [_id] is replaced. *)
Definition replaceById (b : Book.t) (bs : list Book.t) : list Book.t :=
  match list_find (λ x, Book._id x = Book._id b) bs with
  | Some (k, _) => <[k := b]> bs
  | None => bs
  end.

(** Whether a path the handlers assign was modified, as Mongoose tracks
    it on the loaded document: a path that was not assigned is not
    modified, and an assignment marks its path only when the value
    differs from the one loaded (numbers are compared with [===], so
    [-0] over [0] is no modification); a [push] lengthens its array and
    a [deleteOne] shortens it. *)
Definition isModified (loaded b : Book.t) : bool :=
  negb (bool_decide (Book.currentPage b = Book.currentPage loaded)
        || Number_eq (Book.currentPage loaded) (Book.currentPage b))
  || negb (bool_decide (Book.vocabulary b = Book.vocabulary loaded))
  || negb (bool_decide (Book.notes b = Book.notes loaded)).

(** [await book.save()] for the document [loaded], which the handler
    has turned into [b].  With no path modified Mongoose sends no update
    (it only checks that the document is still there, a read like the one
    that loaded it), so nothing is written and nothing can fail.
    Otherwise the update is sent, and the write can fail; the paths the
    handlers modify always satisfy the schema validators (a page that is
    not below 0, trimmed non-empty strings). *)
Definition Book_save (env : Env) (loaded b : Book.t) : M unit :=
  if isModified loaded b then
    if db_write_fails env then throw
    else λ w,
      (Value tt, emit (BookUpdate (Book._id b)) (set_books (replaceById b (books w)) w))
  else ret tt.

(** [Book.findByIdAndDelete(id)] *)
Definition Book_findByIdAndDelete (env : Env) (id : jsstring) : M unit :=
  match castObjectId id with
  | Some i =>
      if db_write_fails env then throw
      else λ w,
        match list_find (λ x, Book._id x = i) (books w) with
        | Some (k, _) => (Value tt, emit (BookDelete i) (set_books (delete k (books w)) w))
        | None => (Value tt, w)
        end
  | None => throw
  end.

(** [new Book({...})] and [await newBook.save()]: setters trim the
    strings, validation checks [required] and [min: 0], the insert
    fails on a duplicate [_id]. *)
Definition Book_create (env : Env) (title pdfUrl cloudinaryId : jsstring)
    (totalPages : Number) (userId : jsstring) : M Book.t :=
  match castObjectId userId with
  | Some o =>
      let b := Book.mk (fresh_id env) (trim title) (trim pdfUrl) (trim cloudinaryId)
                 totalPages pos_zero [] [] o (now env) in
      if negb (nonEmpty (Book.title b) && nonEmpty (Book.pdfUrl b)
               && nonEmpty (Book.cloudinaryId b))
         || negb (SFleb pos_zero totalPages)
      then throw
      else if db_write_fails env then throw
      else λ w,
        if decide (Book._id b ∈ Book._id <$> books w) then (Thrown, w)
        else (Value b, emit (BookInsert (Book._id b)) (set_books (books w ++ [b]) w))
  | None => throw
  end.

(** [User.findOne({ email })] *)
Definition User_findOne (env : Env) (email : jsstring) : M (option User.t) :=
  if db_read_fails env then throw
  else λ w, (Value (snd <$> list_find (λ u, User.email u = email) (users w)), w).

(** [cloudinary.uploader.upload(filePath, ...)] *)
Definition cloudinary_upload (env : Env) : M (jsstring * jsstring) :=
  match cloud_upload env with
  | Normal (secure_url, public_id) =>
      λ w, (Value (secure_url, public_id),
            emit (CloudUpload public_id) (set_blobs (public_id :: blobs w) w))
  | Abrupt => throw
  end.

(** [cloudinary.uploader.destroy(public_id, ...)]: resolves whether or
    not the blob existed, rejects on a failure. *)
Definition cloudinary_destroy (env : Env) (public_id : jsstring) : M unit :=
  if cloud_destroy_fails env then throw
  else λ w, (Value tt,
             emit (CloudDestroy public_id)
                  (set_blobs (filter (λ x, x ≠ public_id) (blobs w)) w)).

(** [array.id(id)]: position and value of the first subdocument with
    that [_id]. *)
Definition vocabulary_id (vs : list Vocab.t) (id : jsstring) : option (nat * Vocab.t) :=
  match castObjectId id with
  | Some i => list_find (λ v, Vocab._id v = i) vs
  | None => None
  end.

Definition notes_id (ns : list Note.t) (id : jsstring) : option (nat * Note.t) :=
  match castObjectId id with
  | Some i => list_find (λ n, Note._id n = i) ns
  | None => None
  end.

(** *** Auth routes *)

(** [POST /auth/login] *)
Definition login (env : Env) (body : list (jsstring * JSValue)) : World → Response * World :=
  try_catch
    (match getProp body (str "email"), getProp body (str "password") with
     | JStr email, JStr password =>
         let normalizedEmail := toLowerCase (trim email) in
         do user <- User_findOne env normalizedEmail;
         match user with
         | Some user =>
             if bcrypt_compare password (User.password user)
             then ret (json (BToken (jwt_sign (User._id user) (now env)) (User._id user)))
             else send (error 400 "Invalid login credentials.")
         | None => send (error 400 "Invalid login credentials.")
         end
     | _, _ => send (error 400 "Email and password are required.")
     end)
    "Login failed.".

(** *** Protected book routes.  [userId] is [req.user.id], set by the
    [auth] middleware. *)

(** [Number.isInteger(pdfData.numpages) ? Math.max(pdfData.numpages, 0) : 0] *)
Definition pageCount (numpages : JSValue) : Number :=
  match numpages with
  | JNum n => if Number_isInteger n then Math_max n pos_zero else pos_zero
  | _ => pos_zero
  end.

(** The title sent with the upload when it is a non-blank string, else
    the file's original name. *)
Definition uploadTitle (body : list (jsstring * JSValue)) (file : File) : jsstring :=
  match getProp body (str "title") with
  | JStr t => if nonEmpty (trim t) then trim t else originalname file
  | _ => originalname file
  end.

(** 1. [POST /upload-book]; [part] is the file part of the request, if
    it has one.  The [finally] block removes the temporary file once
    [filePath] is set. *)
Definition uploadBook (env : Env) (userId : jsstring) (part : option File)
    (body : list (jsstring * JSValue)) : World → Response * World :=
  match upload_single part with
  | inl r => λ w, (r, w)
  | inr None => λ w, (error 400 "PDF required.", w)
  | inr (Some file) => λ w,
      let '(r, w') :=
        try_catch
          (do _ <- (if fs_read_fails env then throw else ret tt);
           do numpages <- lift (pdf_numpages env);
           let totalPages := pageCount numpages in
           do result <- cloudinary_upload env;
           let title := uploadTitle body file in
           do newBook <- Book_create env title result.1 result.2 totalPages userId;
           ret (mkResponse 201 (BBook (Book.toJSON newBook))))
          "Upload failed." w in
      (r, emit (Unlink (path file)) w')
  end.

(** 2. [GET /books] *)
Definition listBooks (env : Env) (userId : jsstring) : World → Response * World :=
  try_catch
    (do books <- Book_find env userId;
     ret (json (BBooks (Book.toJSON <$> books))))
    "Could not fetch books.".

(** 3. [PATCH /books/:id/progress] *)
Definition updateProgress (env : Env) (userId id : jsstring)
    (body : list (jsstring * JSValue)) : World → Response * World :=
  try_catch
    (do _ <- when_send (negb (isValid id)) (error 400 "Invalid book ID.");
     do page <- lift (parsePage (getProp body (str "page")));
     match page with
     | None => send (error 400 "Page must be a non-negative integer.")
     | Some page =>
         do _ <- when_send (Number_lt page pos_zero)
                   (error 400 "Page must be a non-negative integer.");
         do book <- Book_findOne env id userId;
         match book with
         | None => send (error 404 "Book not found.")
         | Some book =>
             do _ <- when_send
                       (Number_gt (Book.totalPages book) pos_zero
                        && Number_gt page (Book.totalPages book))
                       (mkResponse 400 (BPageExceeds (Book.totalPages book)));
             let loaded := book in
             let book := Book.set_currentPage page book in
             do _ <- Book_save env loaded book;
             ret (json (BProgress (Book.currentPage book) (Book.progressPercentage book)))
         end
     end)
    "Update failed.".

(** 4. [POST /books/:id/vocab] *)
Definition addVocab (env : Env) (userId id : jsstring)
    (body : list (jsstring * JSValue)) : World → Response * World :=
  try_catch
    (do _ <- when_send (negb (isValid id)) (error 400 "Invalid book ID.");
     match getProp body (str "word") with
     | JStr word =>
         if nonEmpty (trim word) then
           match getProp body (str "definition") with
           | JStr definition =>
               if nonEmpty (trim definition) then
                 do book <- Book_findOne env id userId;
                 match book with
                 | None => send (error 404 "Book not found.")
                 | Some book =>
                     let loaded := book in
                     let book :=
                       Book.set_vocabulary
                         (Book.vocabulary book
                          ++ [Vocab.mk (fresh_id env) (trim word) (trim definition)])
                         book in
                     do _ <- Book_save env loaded book;
                     ret (json (BVocabulary (Book.vocabulary book)))
                 end
               else send (error 400 "definition is required.")
           | _ => send (error 400 "definition is required.")
           end
         else send (error 400 "word is required.")
     | _ => send (error 400 "word is required.")
     end)
    "Could not add vocab.".

(** [if (word) vocab.word = word; if (definition) vocab.definition = definition;] *)
Definition assignVocab (word definition : option jsstring) (vocab : Vocab.t) : Vocab.t :=
  Vocab.mk (Vocab._id vocab)
    (default (Vocab.word vocab) word)
    (default (Vocab.definition vocab) definition).

(** 5. [PATCH /books/:id/vocab/:vocabId] *)
Definition updateVocab (env : Env) (userId id vocabId : jsstring)
    (body : list (jsstring * JSValue)) : World → Response * World :=
  try_catch
    (do _ <- when_send (negb (isValid id)) (error 400 "Invalid book ID.");
     do _ <- when_send (negb (isValid vocabId)) (error 400 "Invalid vocab ID.");
     let word := parseNonEmptyString (getProp body (str "word")) in
     let definition := parseNonEmptyString (getProp body (str "definition")) in
     do _ <- when_send (negb (truthy word) && negb (truthy definition))
               (error 400 "At least one of word or definition is required.");
     do book <- Book_findOne env id userId;
     match book with
     | None => send (error 404 "Book not found.")
     | Some book =>
         match vocabulary_id (Book.vocabulary book) vocabId with
         | None => send (error 404 "Vocab not found.")
         | Some (k, vocab) =>
             let loaded := book in
             let vocab := assignVocab word definition vocab in
             let book := Book.set_vocabulary (<[k := vocab]> (Book.vocabulary book)) book in
             do _ <- Book_save env loaded book;
             ret (json (BVocab vocab))
         end
     end)
    "Could not update vocab.".

(** 6. [DELETE /books/:id/vocab/:vocabId]; [vocab.deleteOne()] pulls the
    subdocuments with that [_id] from the array. *)
Definition deleteVocab (env : Env) (userId id vocabId : jsstring) : World → Response * World :=
  try_catch
    (do _ <- when_send (negb (isValid id)) (error 400 "Invalid book ID.");
     do _ <- when_send (negb (isValid vocabId)) (error 400 "Invalid vocab ID.");
     do book <- Book_findOne env id userId;
     match book with
     | None => send (error 404 "Book not found.")
     | Some book =>
         match vocabulary_id (Book.vocabulary book) vocabId with
         | None => send (error 404 "Vocab not found.")
         | Some (_, vocab) =>
             let loaded := book in
             let book :=
               Book.set_vocabulary
                 (filter (λ v, Vocab._id v ≠ Vocab._id vocab) (Book.vocabulary book)) book in
             do _ <- Book_save env loaded book;
             ret (json (BMessage "Vocab deleted."))
         end
     end)
    "Could not delete vocab.".

(** 7. [POST /books/:id/notes] *)
Definition addNote (env : Env) (userId id : jsstring)
    (body : list (jsstring * JSValue)) : World → Response * World :=
  try_catch
    (do _ <- when_send (negb (isValid id)) (error 400 "Invalid book ID.");
     let title := parseNonEmptyString (getProp body (str "title")) in
     let content := parseNonEmptyString (getProp body (str "content")) in
     match title, content with
     | None, _ => send (error 400 "title is required.")
     | Some _, None => send (error 400 "content is required.")
     | Some title, Some content =>
         do book <- Book_findOne env id userId;
         match book with
         | None => send (error 404 "Book not found.")
         | Some book =>
             let loaded := book in
             let note := Note.mk (fresh_id env) title content (now env) in
             let book := Book.set_notes (Book.notes book ++ [note]) book in
             do _ <- Book_save env loaded book;
             ret (mkResponse 201 (BNote note))
         end
     end)
    "Could not add note.".

(** 8. [GET /books/:id/notes] *)
Definition getNotes (env : Env) (userId id : jsstring) : World → Response * World :=
  try_catch
    (do _ <- when_send (negb (isValid id)) (error 400 "Invalid book ID.");
     do book <- Book_findOne env id userId;
     match book with
     | None => send (error 404 "Book not found.")
     | Some book => ret (json (BNotes (Book.notes book)))
     end)
    "Could not fetch notes.".

(** [if (title) note.title = title; if (content) note.content = content;] *)
Definition assignNote (title content : option jsstring) (note : Note.t) : Note.t :=
  Note.mk (Note._id note)
    (default (Note.title note) title)
    (default (Note.content note) content)
    (Note.createdAt note).

(** 9. [PATCH /books/:id/notes/:noteId] *)
Definition updateNote (env : Env) (userId id noteId : jsstring)
    (body : list (jsstring * JSValue)) : World → Response * World :=
  try_catch
    (do _ <- when_send (negb (isValid id)) (error 400 "Invalid book ID.");
     do _ <- when_send (negb (isValid noteId)) (error 400 "Invalid note ID.");
     let title := parseNonEmptyString (getProp body (str "title")) in
     let content := parseNonEmptyString (getProp body (str "content")) in
     do _ <- when_send (negb (truthy title) && negb (truthy content))
               (error 400 "At least one of title or content is required.");
     do book <- Book_findOne env id userId;
     match book with
     | None => send (error 404 "Book not found.")
     | Some book =>
         match notes_id (Book.notes book) noteId with
         | None => send (error 404 "Note not found.")
         | Some (k, note) =>
             let loaded := book in
             let note := assignNote title content note in
             let book := Book.set_notes (<[k := note]> (Book.notes book)) book in
             do _ <- Book_save env loaded book;
             ret (json (BNote note))
         end
     end)
    "Could not update note.".

(** 10. [DELETE /books/:id/notes/:noteId] *)
Definition deleteNote (env : Env) (userId id noteId : jsstring) : World → Response * World :=
  try_catch
    (do _ <- when_send (negb (isValid id)) (error 400 "Invalid book ID.");
     do _ <- when_send (negb (isValid noteId)) (error 400 "Invalid note ID.");
     do book <- Book_findOne env id userId;
     match book with
     | None => send (error 404 "Book not found.")
     | Some book =>
         match notes_id (Book.notes book) noteId with
         | None => send (error 404 "Note not found.")
         | Some (_, note) =>
             let loaded := book in
             let book :=
               Book.set_notes
                 (filter (λ n, Note._id n ≠ Note._id note) (Book.notes book)) book in
             do _ <- Book_save env loaded book;
             ret (json (BMessage "Note deleted."))
         end
     end)
    "Could not delete note.".

(** 11. [DELETE /books/:id] *)
Definition deleteBook (env : Env) (userId id : jsstring) : World → Response * World :=
  try_catch
    (do _ <- when_send (negb (isValid id)) (error 400 "Invalid book ID.");
     do book <- Book_findOne env id userId;
     match book with
     | None => send (error 404 "Unauthorized or not found.")
     | Some book =>
         do _ <- cloudinary_destroy env (Book.cloudinaryId book);
         do _ <- Book_findByIdAndDelete env id;
         ret (json (BMessage "Book deleted."))
     end)
    "Delete failed.".

(** The Book operations of the repository, as requests. *)
Inductive BookOp :=
| ListBooks
| UpdateProgress (id : jsstring) (body : list (jsstring * JSValue))
| AddVocab (id : jsstring) (body : list (jsstring * JSValue))
| UpdateVocab (id vocabId : jsstring) (body : list (jsstring * JSValue))
| DeleteVocab (id vocabId : jsstring)
| AddNote (id : jsstring) (body : list (jsstring * JSValue))
| GetNotes (id : jsstring)
| UpdateNote (id noteId : jsstring) (body : list (jsstring * JSValue))
| DeleteNote (id noteId : jsstring)
| DeleteBook (id : jsstring).

Definition run (env : Env) (userId : jsstring) (op : BookOp) : World → Response * World :=
  match op with
  | ListBooks => listBooks env userId
  | UpdateProgress id body => updateProgress env userId id body
  | AddVocab id body => addVocab env userId id body
  | UpdateVocab id vocabId body => updateVocab env userId id vocabId body
  | DeleteVocab id vocabId => deleteVocab env userId id vocabId
  | AddNote id body => addNote env userId id body
  | GetNotes id => getNotes env userId id
  | UpdateNote id noteId body => updateNote env userId id noteId body
  | DeleteNote id noteId => deleteNote env userId id noteId
  | DeleteBook id => deleteBook env userId id
  end.

End Server.

(** ** Reading the spec's formula over the integers *)

(** Follows the spec's words: [round(currentPage / totalPages * 100)] over
    exact quotients of page counts, ties rounded upwards, and [0] when
    [totalPages = 0]. *)
Definition spec_percent (currentPage totalPages : Z) : Z :=
  if totalPages =? 0 then 0
  else (200 * currentPage + totalPages) / (2 * totalPages).

(** The stored page fields hold integers; a book with the given counts. *)
Definition with_pages (currentPage totalPages : Z) (b : Book.t) : Book.t :=
  Book.mk (Book._id b) (Book.title b) (Book.pdfUrl b) (Book.cloudinaryId b)
    (Number_of_Z totalPages) (Number_of_Z currentPage)
    (Book.vocabulary b) (Book.notes b) (Book.owner b) (Book.createdAt b).

(** [p] is an integer nearest to [100 * c / t]. *)
Definition nearest_percent (c t p : Z) : Prop :=
  0 <= p <= 100 ∧ Z.abs (2 * t * p - 200 * c) <= t.

(** ** Rounding positions of the floating-point specification *)

(** [located mrs a b]: the round and sticky bits of [mrs] place the
    positive rational [a / b] relative to the integer [shr_m mrs]. *)
Definition located (mrs : shr_record) (a b : Z) : Prop :=
  match shr_r mrs, shr_s mrs with
  | false, false => a = shr_m mrs * b
  | false, true => shr_m mrs * b < a ∧ 2 * a < (2 * shr_m mrs + 1) * b
  | true, false => 2 * a = (2 * shr_m mrs + 1) * b
  | true, true => (2 * shr_m mrs + 1) * b < 2 * a ∧ a < (shr_m mrs + 1) * b
  end.

(** ** Sample data used to exercise the handlers *)

Module Sample.

(** 24 hexadecimal digits, as [ObjectId.isValid] accepts. *)
Definition isValid (s : jsstring) : bool :=
  (length s =? 24)%nat && forallb (λ c, bool_decide (is_Some (hexDigit c))) s.

Definition castObjectId (s : jsstring) : option ObjectId :=
  if isValid s then Z.to_N <$> radixValue 16 s else None.

(** Lower-casing of the ASCII letters. *)
Definition toLowerCase (s : jsstring) : jsstring :=
  map (λ c, if ((65 <=? c) && (c <=? 90))%N then (c + 32)%N else c) s.

(** A stand-in for bcrypt: the "hash" is the password behind a prefix. *)
Definition bcrypt_compare (password hash : jsstring) : bool :=
  bool_decide (hash = str "$2a$12$" ++ password).

Definition jwt_sign (id : ObjectId) (iat : Z) : jsstring := str "jwt".

Definition alice : jsstring := str "0000000000000000000000a1".
Definition bob : jsstring := str "0000000000000000000000b2".
Definition book1 : jsstring := str "00000000000000000000b001".
Definition vocab2 : jsstring := str "00000000000000000000c002".

(** A 40-page book of Alice, open at page 23. *)
Definition aliceBook : Book.t :=
  Book.mk 0xb001 (str "Dune") (str "https://res.example/dune.pdf") (str "my_ebooks/dune")
    (Number_of_Z 40) (Number_of_Z 23)
    [Vocab.mk 0xc001 (str "ubiquitous") (str "present everywhere");
     Vocab.mk 0xc002 (str "arid") (str "very dry")]
    [Note.mk 0xd001 (str "Important point") (str "Water is scarce.") 1700000001000]
    0xa1 1700000000000.

Definition world : World :=
  mkWorld [aliceBook]
    [User.mk 0xa1 (str "alice@example.com") (str "$2a$12$TestPass123!")]
    [str "my_ebooks/dune"] [].

(** Everything outside works. *)
Definition env : Env :=
  mkEnv false false 1700000002000 0xe001 false
    (Normal (JNum (Number_of_Z 10)))
    (Normal (str "https://res.example/new.pdf", str "my_ebooks/new"))
    false.

Definition set_pdf (r : completion JSValue) (e : Env) : Env :=
  mkEnv (db_read_fails e) (db_write_fails e) (now e) (fresh_id e) (fs_read_fails e)
    r (cloud_upload e) (cloud_destroy_fails e).

Definition set_destroy_fails (f : bool) (e : Env) : Env :=
  mkEnv (db_read_fails e) (db_write_fails e) (now e) (fresh_id e) (fs_read_fails e)
    (pdf_numpages e) (cloud_upload e) f.

Definition pdfFile : File :=
  mkFile (str "pdf") (str "application/pdf") (str "notes.pdf") 20480 (str "uploads/3f9a").

(** The world after Alice's first upload to an empty server, and the
    Book that upload creates. *)
Definition uploaded : World :=
  (uploadBook castObjectId env alice (Some pdfFile) [] (mkWorld [] [] [] [])).2.

Definition newBook : Book.t :=
  Book.mk 0xe001 (str "notes.pdf") (str "https://res.example/new.pdf") (str "my_ebooks/new")
    (Number_of_Z 10) pos_zero [] [] 0xa1 1700000002000.

Definition newBookId : jsstring := str "00000000000000000000e001".

End Sample.

(** ** Shapes of state changes *)

(** The spec's invariant on the page fields of a Book: [currentPage] is a
    non-negative integer, at most [totalPages] whenever [totalPages > 0]. *)
Definition page_invariant (b : Book.t) : Prop :=
  Number_isInteger (Book.currentPage b) = true
  ∧ Number_lt (Book.currentPage b) pos_zero = false
  ∧ ¬ (Number_gt (Book.totalPages b) pos_zero = true
       ∧ Number_gt (Book.currentPage b) (Book.totalPages b) = true).

(** The world after [save()] of the document loaded from position [k],
    now [b]: written in its place when a path was modified. *)
Definition saved (k : nat) (loaded b : Book.t) (w : World) : World :=
  if isModified loaded b
  then emit (BookUpdate (Book._id loaded)) (set_books (<[k := b]> (books w)) w)
  else w.

(** How one request of user [o] may change the Book collection. *)
Definition step_shape (o : ObjectId) (w w' : World) : Prop :=
  users w' = users w
  ∧ (books w' = books w
     ∨ (∃ k book book',
          books w !! k = Some book ∧ Book.owner book = o
          ∧ Book._id book' = Book._id book ∧ Book.owner book' = o
          ∧ Book.totalPages book' = Book.totalPages book
          ∧ (Book.currentPage book' = Book.currentPage book ∨ page_invariant book')
          ∧ books w' = <[k := book']> (books w))
     ∨ (∃ k book,
          books w !! k = Some book ∧ Book.owner book = o
          ∧ books w' = delete k (books w))).

(** Worlds the server can be in: it starts with an empty Book collection
    (and any users), and every request served is an upload or one of the
    Book operations, by any user, in any environment. *)
Inductive reachable (isValid : jsstring → bool) (castObjectId : jsstring → option ObjectId)
  : World → Prop :=
| reach_start (us : list User.t) : reachable isValid castObjectId (mkWorld [] us [] [])
| reach_upload env userId part body w :
    reachable isValid castObjectId w →
    reachable isValid castObjectId (uploadBook castObjectId env userId part body w).2
| reach_run env userId op w :
    reachable isValid castObjectId w →
    reachable isValid castObjectId (run isValid castObjectId env userId op w).2.

(** The definitions that follow model what surrounds the book routes:
    the [auth] middleware of [middleware/auth.js], the account routes,
    the remaining helpers of [server.js] and the start of the server. *)

(** ** Regular expressions *)

(** The patterns of [server.js], over code units (no pattern carries the
    [u] flag): character classes, sequence and repetition.  [Void] and
    [Alt] are the forms derivatives need. *)
Inductive regex :=
| Void
| Eps
| Class (p : N → bool)
| Cat (r1 r2 : regex)
| Alt (r1 r2 : regex)
| Star (r : regex).

(** [r+] *)
Definition Plus (r : regex) : regex := Cat r (Star r).

(** The strings a pattern denotes. *)
Inductive matches : regex → jsstring → Prop :=
| matches_eps : matches Eps []
| matches_class p c : p c = true → matches (Class p) [c]
| matches_cat r1 r2 s1 s2 :
    matches r1 s1 → matches r2 s2 → matches (Cat r1 r2) (s1 ++ s2)
| matches_alt_l r1 r2 s : matches r1 s → matches (Alt r1 r2) s
| matches_alt_r r1 r2 s : matches r2 s → matches (Alt r1 r2) s
| matches_star_nil r : matches (Star r) []
| matches_star_cons r s1 s2 :
    matches r s1 → matches (Star r) s2 → matches (Star r) (s1 ++ s2).

Fixpoint nullable (r : regex) : bool :=
  match r with
  | Void => false
  | Eps => true
  | Class _ => false
  | Cat r1 r2 => nullable r1 && nullable r2
  | Alt r1 r2 => nullable r1 || nullable r2
  | Star _ => true
  end.

(** What is left of [r] after reading [c]. *)
Fixpoint deriv (c : N) (r : regex) : regex :=
  match r with
  | Void => Void
  | Eps => Void
  | Class p => if p c then Eps else Void
  | Cat r1 r2 =>
      if nullable r1 then Alt (Cat (deriv c r1) r2) (deriv c r2)
      else Cat (deriv c r1) r2
  | Alt r1 r2 => Alt (deriv c r1) (deriv c r2)
  | Star r1 => Cat (deriv c r1) (Star r1)
  end.

(** [/^r$/.test(s)] *)
Definition test (r : regex) (s : jsstring) : bool :=
  nullable (fold_left (λ r c, deriv c r) s r).

(** ** More helpers of [server.js] *)

(** [[^\s@]]: [\s] is the white space and the line terminators. *)
Definition notSpaceOrAt (c : N) : bool := negb (isWhiteSpace c || (c =? 64)%N).

(** [/^[^\s@]+@[^\s@]+\.[^\s@]+$/] *)
Definition emailPattern : regex :=
  Cat (Plus (Class notSpaceOrAt))
    (Cat (Class (N.eqb 64))
       (Cat (Plus (Class notSpaceOrAt))
          (Cat (Class (N.eqb 46)) (Plus (Class notSpaceOrAt))))).

(** [isValidEmail] *)
Definition isValidEmail (email : jsstring) : bool := test emailPattern email.

(** The parts of an address: not empty, free of white space and of [@]. *)
Definition email_part (s : jsstring) : Prop :=
  s ≠ [] ∧ Forall (λ c, isWhiteSpace c = false ∧ c ≠ 64%N) s.

Definition REQUIRED_ENV_VARS : list string :=
  ["MONGO_URI"; "CLOUD_NAME"; "CLOUD_API_KEY"; "CLOUD_API_SECRET"; "JWT_SECRET"]%string.

(** [process.env]: a variable that is not set reads as [undefined]. *)
Abbreviation ProcessEnv := (string → option jsstring).

(** [!process.env[key]]: not set, or set to the empty string. *)
Definition unset (process_env : ProcessEnv) (key : string) : bool :=
  match process_env key with
  | Some (_ :: _) => false
  | _ => true
  end.

(** [ensureRequiredEnvVars]: [inl msg] is the [Error] thrown, with its
    message. *)
Definition ensureRequiredEnvVars (process_env : ProcessEnv) : string + unit :=
  let missing := List.filter (unset process_env) REQUIRED_ENV_VARS in
  if (0 <? length missing)%nat
  then inl ("Missing required environment variables: " ++ String.concat ", " missing)%string
  else inr tt.

(** What the process does while it starts. *)
Inductive ProcessEvent :=
| MongoConnect (uri : option jsstring)
| ConsoleLog (msg : jsstring)
| ConsoleError (label : string) (msg : string)
| Listen (port : jsstring + Z)
| ProcessExit (code : Z).

(** [process.env.PORT || 3000] *)
Definition PORT (process_env : ProcessEnv) : jsstring + Z :=
  match process_env "PORT"%string with
  | Some (c :: s) => inl (c :: s)
  | _ => inr 3000
  end.

(** [startServer()] with the handler of its rejection, up to the call of
    [app.listen]; [connect] is the message of the error
    [mongoose.connect] rejects with, if it does. *)
Definition startServer (process_env : ProcessEnv) (connect : option string)
    : list ProcessEvent :=
  match ensureRequiredEnvVars process_env with
  | inl message => [ConsoleError "Startup failed:" message; ProcessExit 1]
  | inr _ =>
      MongoConnect (process_env "MONGO_URI"%string)
      :: match connect with
         | Some message => [ConsoleError "Startup failed:" message; ProcessExit 1]
         | None =>
             [ConsoleLog (str "Server live: connected to MongoDB.");
              Listen (PORT process_env)]
         end
  end.

(** ** Truthiness and [String(value)] *)

(** ToBoolean *)
Definition ToBoolean (v : JSValue) : bool :=
  match v with
  | JUndefined | JNull => false
  | JBool b => b
  | JNum (S754_zero _) | JNum S754_nan => false
  | JNum _ => true
  | JStr s => nonEmpty s
  | JArr _ | JObj _ => true
  end.

(** [a.join(sep)] on strings. *)
Fixpoint join (sep : jsstring) (parts : list jsstring) : jsstring :=
  match parts with
  | [] => []
  | [p] => p
  | p :: rest => p ++ sep ++ join sep rest
  end.

Section ToString.

(** Number::toString, left abstract. *)
Variable NumberToString : Number → jsstring.

(** [String(v)] for a parsed JSON value on which it does not throw (see
    [toStringThrows]); an array joins its elements with commas, printing
    [null] and [undefined] as the empty string. *)
Fixpoint ToString (v : JSValue) : jsstring :=
  match v with
  | JUndefined => str "undefined"
  | JNull => str "null"
  | JBool true => str "true"
  | JBool false => str "false"
  | JNum x => NumberToString x
  | JStr s => s
  | JArr elems =>
      join (str ",")
        (map (λ e, match e with
                   | JUndefined | JNull => []
                   | _ => ToString e
                   end) elems)
  | JObj _ => str "[object Object]"
  end.

End ToString.

(** [s.startsWith(prefix)] *)
Definition startsWith (s prefix : jsstring) : bool :=
  bool_decide (take (length prefix) s = prefix).

(** ** The [auth] middleware ([middleware/auth.js]) *)

Section Auth.

Variable NumberToString : Number → jsstring.
Variable jwt_verify : jsstring → Z → completion JSValue.
  (** [jwt.verify(token, JWT_SECRET)] at a given time: the decoded
      payload, or an exception (bad signature, expired, malformed) *)

(** [decoded?.id] *)
Definition decoded_id (decoded : JSValue) : JSValue :=
  match decoded with
  | JObj props => getProp props (str "id")
  | _ => JUndefined
  end.

(** [auth]: the response it sends, or the [req.user.id] it passes on
    with [next()].  [authHeader] is [req.header('Authorization')]. *)
Definition auth (now : Z) (authHeader : option jsstring) : Response + jsstring :=
  match authHeader with
  | None => inl (error 401 "Please authenticate.")
  | Some authHeader =>
      if negb (nonEmpty authHeader) || negb (startsWith authHeader (str "Bearer "))
      then inl (error 401 "Please authenticate.")
      else
        let token := trim (drop 7 authHeader) in
        if negb (nonEmpty token) then inl (error 401 "Please authenticate.")
        else
          match jwt_verify token now with
          | Abrupt => inl (error 401 "Invalid token.")
          | Normal decoded =>
              if negb (ToBoolean (decoded_id decoded))
              then inl (error 401 "Invalid token.")
              else if toStringThrows (decoded_id decoded)
                   then inl (error 401 "Invalid token.")
                   else inr (ToString NumberToString (decoded_id decoded))
          end
  end.

(** A route registered as [app.METHOD(path, auth, handler)]. *)
Definition protected (now : Z) (authHeader : option jsstring)
    (handler : jsstring → World → Response * World) : World → Response * World :=
  match auth now authHeader with
  | inl r => λ w, (r, w)
  | inr userId => handler userId
  end.

End Auth.

(** ** Accounts ([server.js], auth routes) *)

Definition set_users (us : list User.t) (w : World) : World :=
  mkWorld (books w) us (blobs w) (log w).

Definition set_password (password : jsstring) (u : User.t) : User.t :=
  User.mk (User._id u) (User.email u) password.

Section Accounts.

Variable castObjectId : jsstring → option ObjectId.
Variable toLowerCase : jsstring → jsstring.
Variable bcrypt_compare : jsstring → jsstring → bool.
Variable bcrypt_hash : jsstring → N → jsstring.
  (** [bcrypt.hash(password, 12)] with the salt it draws *)

(** Modelled from the spec: [models/User.js] is not among the sources.
    [new User({ email, password })] and [await user.save()]: the
    document is appended to the collection unless the save rejects,
    whatever the reason (a validator of the User schema, the write). *)
Definition User_create (env : Env) (email password : jsstring) : M unit :=
  if db_write_fails env then throw
  else λ w, (Value tt, set_users (users w ++ [User.mk (fresh_id env) email password]) w).

(** [User.findById(id)] *)
Definition User_findById (env : Env) (id : jsstring) : M (option User.t) :=
  match castObjectId id with
  | Some i =>
      if db_read_fails env then throw
      else λ w, (Value (snd <$> list_find (λ u, User._id u = i) (users w)), w)
  | None => throw
  end.

(** Modelled from the spec: [await user.save()] for a loaded user; the
    document with that [_id] is replaced unless the save rejects. *)
Definition User_save (env : Env) (u : User.t) : M unit :=
  if db_write_fails env then throw
  else λ w,
    (Value tt,
     match list_find (λ x, User._id x = User._id u) (users w) with
     | Some (k, _) => set_users (<[k := u]> (users w)) w
     | None => w
     end).

(** [POST /auth/signup]; [salt] is the salt bcrypt draws. *)
Definition signup (env : Env) (salt : N) (body : list (jsstring * JSValue))
    : World → Response * World :=
  try_catch
    (match getProp body (str "email"), getProp body (str "password") with
     | JStr email, JStr password =>
         let normalizedEmail := toLowerCase (trim email) in
         do _ <- when_send (negb (isValidEmail normalizedEmail))
                   (error 400 "Invalid email format.");
         do _ <- when_send (length password <? 8)%nat
                   (error 400 "Password must be at least 8 characters long.");
         do existingUser <- User_findOne env normalizedEmail;
         match existingUser with
         | Some _ => send (error 409 "Email already in use.")
         | None =>
             let hashedPassword := bcrypt_hash password salt in
             do _ <- User_create env normalizedEmail hashedPassword;
             ret (mkResponse 201 (BMessage "User registered successfully!"))
         end
     | _, _ => send (error 400 "Email and password are required.")
     end)
    "Signup failed.".

(** [PATCH /auth/change-password], behind [auth]. *)
Definition changePassword (env : Env) (salt : N) (userId : jsstring)
    (body : list (jsstring * JSValue)) : World → Response * World :=
  try_catch
    (let oldPassword := parseNonEmptyString (getProp body (str "oldPassword")) in
     let newPassword := parseNonEmptyString (getProp body (str "newPassword")) in
     match oldPassword, newPassword with
     | Some oldPassword, Some newPassword =>
         do _ <- when_send (length newPassword <? 8)%nat
                   (error 400 "New password must be at least 8 characters long.");
         do _ <- when_send (bool_decide (oldPassword = newPassword))
                   (error 400 "New password must be different from old password.");
         do user <- User_findById env userId;
         match user with
         | None => send (error 404 "User not found.")
         | Some user =>
             let isOldPasswordValid := bcrypt_compare oldPassword (User.password user) in
             do _ <- when_send (negb isOldPasswordValid)
                       (error 400 "Old password is incorrect.");
             let user := set_password (bcrypt_hash newPassword salt) user in
             do _ <- User_save env user;
             ret (json (BMessage "Password changed successfully."))
         end
     | _, _ => send (error 400 "oldPassword and newPassword are required.")
     end)
    "Could not change password.".

End Accounts.

(** ** What [bookSchema] asks of a stored document *)

(** A [required] string path with [trim: true]: stored trimmed and not
    empty. *)
Definition required_trimmed (s : jsstring) : Prop := trim s = s ∧ s ≠ [].

(** [min: 0] *)
Definition min_0 (x : Number) : Prop := SFleb pos_zero x = true.

Definition schema_valid (b : Book.t) : Prop :=
  required_trimmed (Book.title b)
  ∧ required_trimmed (Book.pdfUrl b)
  ∧ required_trimmed (Book.cloudinaryId b)
  ∧ min_0 (Book.totalPages b)
  ∧ min_0 (Book.currentPage b)
  ∧ Forall (λ v, required_trimmed (Vocab.word v) ∧ required_trimmed (Vocab.definition v))
      (Book.vocabulary b)
  ∧ Forall (λ n, required_trimmed (Note.title n) ∧ required_trimmed (Note.content n))
      (Book.notes b).

(** ** More sample data *)

Module SampleAccounts.

(** A stand-in for [bcrypt.hash] that [Sample.bcrypt_compare] recognises. *)
Definition bcrypt_hash (password : jsstring) (salt : N) : jsstring :=
  str "$2a$12$" ++ password.

Definition bobSignup : list (jsstring * JSValue) :=
  [(str "email", JStr (str "  Bob@Example.com "));
   (str "password", JStr (str "CorrectHorse1"))].

Definition bobAgain : list (jsstring * JSValue) :=
  [(str "email", JStr (str "bob@EXAMPLE.com"));
   (str "password", JStr (str "AnotherPass9"))].

Definition aliceChange : list (jsstring * JSValue) :=
  [(str "oldPassword", JStr (str "TestPass123!"));
   (str "newPassword", JStr (str "  NewPass456!  "))].

Definition aliceLogin : list (jsstring * JSValue) :=
  [(str "email", JStr (str "alice@example.com"));
   (str "password", JStr (str "NewPass456!"))].

Definition note1 : jsstring := str "00000000000000000000d001".

Definition noteBody : list (jsstring * JSValue) :=
  [(str "title", JStr (str "  Chapter 2 ")); (str "content", JStr (str "Spice."))].

Definition vocabBody : list (jsstring * JSValue) :=
  [(str "word", JStr (str " melange ")); (str "definition", JStr (str "the spice"))].

(** Everything works but the writes to Mongo. *)
Definition writesFail : Env :=
  mkEnv false true 1700000002000 0xe001 false
    (Normal (JNum (Number_of_Z 10)))
    (Normal (str "https://res.example/new.pdf", str "my_ebooks/new"))
    false.

End SampleAccounts.

(** * Properties *)

(** ** Double-precision arithmetic on page counts *)

Lemma digits2_pos_bounds (p : positive) :
  2 ^ (Z.pos (digits2_pos p) - 1) <= Z.pos p < 2 ^ Z.pos (digits2_pos p).
Proof.
  induction p as [p IH|p IH|]; simpl digits2_pos; [| |simpl; lia].
  all: rewrite Pos2Z.inj_succ;
    replace (Z.succ (Z.pos (digits2_pos p)) - 1) with (Z.succ (Z.pos (digits2_pos p) - 1)) by lia;
    rewrite !Z.pow_succ_r by lia; lia.
Qed.

Lemma Zdigits2_bounds (m : Z) :
  0 < m → 2 ^ (Zdigits2 m - 1) <= m < 2 ^ Zdigits2 m.
Proof. destruct m as [|p|p]; [lia| |lia]. intros _. apply digits2_pos_bounds. Qed.

Lemma Zdigits2_unique (m d : Z) :
  2 ^ (d - 1) <= m < 2 ^ d → 0 < m → Zdigits2 m = d.
Proof.
  intros [Hlo Hhi] Hm. destruct (Zdigits2_bounds m Hm) as [Hlo' Hhi'].
  assert (0 < Zdigits2 m) by (destruct m; simpl; lia).
  assert (0 < d).
  { destruct (Z.le_gt_cases d 0) as [Hd|]; [|done].
    assert (2 ^ d <= 2 ^ 0) by (apply Z.pow_le_mono_r; lia). simpl in *. lia. }
  destruct (Z.lt_trichotomy (Zdigits2 m) d) as [Hlt|[->|Hgt]]; [|done|].
  - assert (2 ^ Zdigits2 m <= 2 ^ (d - 1)) by (apply Z.pow_le_mono_r; lia). lia.
  - assert (2 ^ d <= 2 ^ (Zdigits2 m - 1)) by (apply Z.pow_le_mono_r; lia). lia.
Qed.

Lemma shr_1_located (mrs : shr_record) (a b : Z) :
  0 <= shr_m mrs → 0 < b → located mrs a b →
  located (shr_1 mrs) a (2 * b)
  ∧ shr_m (shr_1 mrs) = shr_m mrs / 2
  ∧ 0 <= shr_m (shr_1 mrs).
Proof.
  destruct mrs as [m r s]. unfold located. cbn [shr_m shr_r shr_s]. intros Hm Hb Hloc.
  destruct m as [|[p|p|]|p]; [| | | |lia]; cbn [shr_1 shr_m shr_r shr_s].
  - change (0 / 2) with 0. destruct r, s; cbn [orb]; split_and!; lia.
  - assert (Hdiv : Z.pos p~1 / 2 = Z.pos p)
      by (symmetry; apply Z.div_unique with 1; lia).
    rewrite Hdiv. destruct r, s; cbn [orb]; split_and!; lia.
  - assert (Hdiv : Z.pos p~0 / 2 = Z.pos p)
      by (symmetry; apply Z.div_unique with 0; lia).
    rewrite Hdiv. destruct r, s; cbn [orb]; split_and!; lia.
  - change (1 / 2) with 0. destruct r, s; cbn [orb]; split_and!; lia.
Qed.

Lemma iter_shr_1_located (n : positive) (a : Z) :
  ∀ (mrs : shr_record) (b : Z),
    0 <= shr_m mrs → 0 < b → located mrs a b →
    located (SpecFloat.iter_pos shr_1 n mrs) a (b * 2 ^ Z.pos n)
    ∧ shr_m (SpecFloat.iter_pos shr_1 n mrs) = shr_m mrs / 2 ^ Z.pos n
    ∧ 0 <= shr_m (SpecFloat.iter_pos shr_1 n mrs).
Proof.
  induction n as [n IH|n IH|]; intros mrs b Hm Hb Hloc; cbn [SpecFloat.iter_pos].
  - destruct (shr_1_located mrs a b Hm Hb Hloc) as (H1 & H2 & H3).
    assert (Hpow : 0 < 2 ^ Z.pos n) by (apply Z.pow_pos_nonneg; lia).
    destruct (IH _ (2 * b) H3 ltac:(lia) H1) as (H4 & H5 & H6).
    destruct (IH _ (2 * b * 2 ^ Z.pos n) H6 ltac:(nia) H4) as (H7 & H8 & H9).
    replace (Z.pos n~1) with (1 + Z.pos n + Z.pos n) by lia.
    rewrite !Z.pow_add_r by lia. change (2 ^ 1) with 2.
    split_and!.
    + by replace (b * (2 * 2 ^ Z.pos n * 2 ^ Z.pos n))
        with (2 * b * 2 ^ Z.pos n * 2 ^ Z.pos n) by ring.
    + rewrite H8, H5, H2, !Z.div_div by lia. f_equal. ring.
    + done.
  - assert (Hpow : 0 < 2 ^ Z.pos n) by (apply Z.pow_pos_nonneg; lia).
    destruct (IH _ b Hm Hb Hloc) as (H4 & H5 & H6).
    destruct (IH _ (b * 2 ^ Z.pos n) H6 ltac:(nia) H4) as (H7 & H8 & H9).
    replace (Z.pos n~0) with (Z.pos n + Z.pos n) by lia.
    rewrite !Z.pow_add_r by lia.
    split_and!.
    + by replace (b * (2 ^ Z.pos n * 2 ^ Z.pos n))
        with (b * 2 ^ Z.pos n * 2 ^ Z.pos n) by ring.
    + rewrite H8, H5, !Z.div_div by lia. f_equal.
    + done.
  - destruct (shr_1_located mrs a b Hm Hb Hloc) as (H1 & H2 & H3).
    change (2 ^ 1) with 2. split_and!; [|done..].
    by replace (b * 2) with (2 * b) by ring.
Qed.

Lemma shr_located (mrs : shr_record) (e n a b : Z) :
  0 <= n → 0 <= shr_m mrs → 0 < b → located mrs a b →
  located (shr mrs e n).1 a (b * 2 ^ n)
  ∧ shr_m (shr mrs e n).1 = shr_m mrs / 2 ^ n
  ∧ (shr mrs e n).2 = e + n.
Proof.
  intros Hn Hm Hb Hloc. destruct n as [|p|p]; [| |lia]; cbn [shr fst snd].
  - rewrite Z.mul_1_r, Z.div_1_r, Z.add_0_r. done.
  - destruct (iter_shr_1_located p a mrs b Hm Hb Hloc) as (H1 & H2 & _). done.
Qed.

Lemma shr_record_of_loc_m (m : Z) (l : location) : shr_m (shr_record_of_loc m l) = m.
Proof. by destruct l as [|[]]. Qed.

(** Rounding to nearest picks an integer within half a unit. *)
Lemma round_nearest_even_located (mrs : shr_record) (a b : Z) :
  0 < b → located mrs a b →
  let mr := round_nearest_even (shr_m mrs) (loc_of_shr_record mrs) in
  shr_m mrs <= mr <= shr_m mrs + 1 ∧ Z.abs (2 * (mr * b - a)) <= b.
Proof.
  destruct mrs as [m r s]. unfold located. cbn [shr_m shr_r shr_s]. intros Hb Hloc.
  destruct r, s; cbn [loc_of_shr_record round_nearest_even];
    try destruct (Z.even m); split; nia.
Qed.

Lemma fexp_normal (x : Z) : -1021 <= x → fexp prec emax x = x - 53.
Proof. unfold fexp, emin, prec, emax. lia. Qed.

(** Rounding a located positive rational whose integer part has at least
    53 bits: the result is a normal number within half a unit in the last
    place. *)
Lemma binary_round_aux_nearest (mx ex : Z) (lx : location) (a b : Z) :
  0 < b → 0 < mx → located (shr_record_of_loc mx lx) a b →
  53 <= Zdigits2 mx → -1074 <= ex → ex + Zdigits2 mx <= 1023 →
  ∃ (mf : positive) (ef mr : Z),
    binary_round_aux prec emax false mx ex lx = S754_finite false mf ef
    ∧ 2 ^ 52 <= Z.pos mf < 2 ^ 53
    ∧ ex + (Zdigits2 mx - 53) <= ef <= ex + (Zdigits2 mx - 53) + 1
    ∧ Z.pos mf * 2 ^ (ef - (ex + (Zdigits2 mx - 53))) = mr
    ∧ Z.abs (2 * (mr * (b * 2 ^ (Zdigits2 mx - 53)) - a)) <= b * 2 ^ (Zdigits2 mx - 53).
Proof.
  intros Hb Hmx Hloc Hd Hex Hhi.
  set (n := Zdigits2 mx - 53) in *.
  assert (Hn : 0 <= n) by lia.
  assert (Hpow : 0 < 2 ^ n) by (apply Z.pow_pos_nonneg; lia).
  unfold binary_round_aux, shr_fexp.
  rewrite fexp_normal by lia.
  replace (Zdigits2 mx + ex - 53 - ex) with n by lia.
  pose proof (shr_located (shr_record_of_loc mx lx) ex n a b Hn
                ltac:(rewrite shr_record_of_loc_m; lia) Hb Hloc) as (Hloc' & Hm' & He').
  destruct (shr (shr_record_of_loc mx lx) ex n) as [mrs' e'] eqn:Eshr.
  cbn [fst snd] in *. rewrite shr_record_of_loc_m in Hm'.
  assert (Hm'range : 2 ^ 52 <= shr_m mrs' < 2 ^ 53).
  { destruct (Zdigits2_bounds mx Hmx) as [Hlo Hup].
    replace (Zdigits2 mx - 1) with (52 + n) in Hlo by lia.
    replace (Zdigits2 mx) with (53 + n) in Hup by lia.
    rewrite Z.pow_add_r in Hlo, Hup by lia.
    rewrite Hm'. split.
    - apply Z.div_le_lower_bound; lia.
    - apply Z.div_lt_upper_bound; lia. }
  pose proof (round_nearest_even_located mrs' a (b * 2 ^ n) ltac:(nia) Hloc') as [Hmr Hnear].
  set (mr := round_nearest_even (shr_m mrs') (loc_of_shr_record mrs')) in *.
  destruct (Z.eq_dec mr (2 ^ 53)) as [Heq|Hne].
  - rewrite Heq. exists (2 ^ 52)%positive, (e' + 1), mr.
    change (Zdigits2 (2 ^ 53)) with 54. rewrite fexp_normal by lia.
    replace (54 + e' - 53 - e') with 1 by lia.
    cbn [shr shr_record_of_loc SpecFloat.iter_pos shr_1 shr_m fst snd].
    change (2 ^ 53) with 9007199254740992. cbn [shr_1 shr_m orb].
    unfold emax, prec.
    destruct (Z.leb_spec (e' + 1) (1024 - 53)); [|lia].
    split_and!; try done; try lia.
    replace (e' + 1 - (ex + n)) with 1 by lia. rewrite Heq. done.
  - assert (Hd' : Zdigits2 mr = 53) by (apply Zdigits2_unique; lia).
    rewrite Hd', fexp_normal by lia.
    replace (53 + e' - 53 - e') with 0 by lia.
    cbn [shr shr_record_of_loc shr_m fst snd].
    destruct mr as [|p|p] eqn:Emr; [lia| |lia].
    exists p, e', (Z.pos p).
    unfold emax, prec.
    destruct (Z.leb_spec e' (1024 - 53)); [|lia].
    split_and!; try done; try lia.
    replace (e' - (ex + n)) with 0 by lia. lia.
Qed.

Lemma pos_iter_xO (m k : positive) :
  Z.pos (Pos.iter xO m k) = Z.pos m * 2 ^ Z.pos k.
Proof.
  induction k as [|k IH] using Pos.peano_ind.
  - simpl. lia.
  - rewrite Pos.iter_succ, Pos2Z.inj_xO, IH, Pos2Z.inj_succ, Z.pow_succ_r by lia. ring.
Qed.

(** The double of a positive integer below 2^53 is that integer, held
    with a 53-bit mantissa. *)
Lemma Number_of_Z_normal (n : Z) :
  0 < n < 2 ^ 53 →
  ∃ (m : positive) (e : Z),
    Number_of_Z n = S754_finite false m e
    ∧ 2 ^ 52 <= Z.pos m < 2 ^ 53
    ∧ -52 <= e <= 0
    ∧ Z.pos m = n * 2 ^ (- e).
Proof.
  intros [Hpos Hlt]. destruct n as [|p|p]; [lia| |lia].
  unfold Number_of_Z, binary_normalize, binary_round.
  pose proof (digits2_pos_bounds p) as [Hlo Hup].
  set (d := Z.pos (digits2_pos p)) in *.
  assert (Hd : 1 <= d <= 53).
  { split; [unfold d; lia|].
    destruct (Z.le_gt_cases d 53) as [|Hgt]; [done|].
    assert (2 ^ 53 <= 2 ^ (d - 1)) by (apply Z.pow_le_mono_r; lia). lia. }
  rewrite Z.add_0_r, fexp_normal by lia.
  assert (Hshl : ∃ mz, shl_align p 0 (d - 53) = (mz, d - 53)
                       ∧ Z.pos mz = Z.pos p * 2 ^ (53 - d)).
  { unfold shl_align. rewrite Z.sub_0_r.
    destruct (d - 53) as [|q|q] eqn:E; [|lia|].
    - exists p. replace (53 - d) with 0 by lia. split; [done|]. rewrite Z.pow_0_r. lia.
    - exists (Pos.iter xO p q). split; [done|]. rewrite pos_iter_xO.
      replace (53 - d) with (Z.pos q) by lia. done. }
  destruct Hshl as (mz & -> & Hmz).
  assert (Hmzrange : 2 ^ 52 <= Z.pos mz < 2 ^ 53).
  { rewrite Hmz.
    assert (Hp : 0 < 2 ^ (53 - d)) by (apply Z.pow_pos_nonneg; lia).
    assert (H52 : 2 ^ 52 = 2 ^ (d - 1) * 2 ^ (53 - d))
      by (rewrite <-Z.pow_add_r by lia; f_equal; lia).
    assert (H53 : 2 ^ 53 = 2 ^ d * 2 ^ (53 - d))
      by (rewrite <-Z.pow_add_r by lia; f_equal; lia).
    rewrite H52, H53. split.
    - apply Z.mul_le_mono_nonneg_r; lia.
    - apply Z.mul_lt_mono_pos_r; lia. }
  assert (Hdz : Zdigits2 (Z.pos mz) = 53) by (apply Zdigits2_unique; lia).
  destruct (binary_round_aux_nearest (Z.pos mz) (d - 53) loc_Exact (Z.pos mz) 1)
    as (mf & ef & mr & Hrun & Hmf & Hef & Hmr & Hnear);
    [lia|lia|unfold located; simpl; lia|lia|lia|lia|].
  rewrite Hdz in *. replace (53 - 53) with 0 in * by lia.
  rewrite Z.add_0_r in *. change (2 ^ 0) with 1 in Hnear.
  exists mf, ef. rewrite Hrun.
  assert (Hmr' : mr = Z.pos mz) by lia. rewrite Hmr' in Hmr. clear Hmr' Hnear.
  assert (ef = d - 53).
  { destruct (Z.eq_dec ef (d - 53)) as [|Hne]; [done|].
    replace (ef - (d - 53)) with 1 in Hmr by lia. change (2 ^ 1) with 2 in Hmr. lia. }
  subst ef. rewrite Z.sub_diag in Hmr. change (2 ^ 0) with 1 in Hmr.
  split_and!; try done; try lia.
  replace (- (d - 53)) with (53 - d) by lia. lia.
Qed.

Lemma new_location_located (m2 q r : Z) :
  0 < m2 → 0 <= r < m2 →
  located (shr_record_of_loc q (new_location m2 r)) (q * m2 + r) m2.
Proof.
  intros Hm2 Hr. unfold new_location, new_location_even, new_location_odd, located.
  destruct (Z.even m2) eqn:Heven.
  - destruct (Z.eqb_spec r 0) as [->|Hr0]; cbn [shr_record_of_loc shr_m shr_r shr_s];
      [lia|].
    destruct (Z.compare_spec (2 * r) m2); cbn [shr_record_of_loc shr_m shr_r shr_s]; lia.
  - assert (Hodd : 2 * r ≠ m2).
    { intros <-. rewrite Z.even_mul in Heven. done. }
    destruct (Z.eqb_spec r 0) as [->|Hr0]; cbn [shr_record_of_loc shr_m shr_r shr_s];
      [lia|].
    destruct (Z.compare_spec (2 * r + 1) m2); cbn [shr_record_of_loc shr_m shr_r shr_s]; lia.
Qed.

(** The quotient of two doubles with 53-bit mantissas: a double with a
    53-bit mantissa within half a unit in the last place of the exact
    quotient. *)
Lemma SFdiv_nearest (m1 m2 : positive) (e1 e2 : Z) :
  2 ^ 52 <= Z.pos m1 < 2 ^ 53 → 2 ^ 52 <= Z.pos m2 < 2 ^ 53 →
  -52 <= e1 <= 0 → -52 <= e2 <= 0 →
  ∃ (mf : positive) (ef n mr : Z),
    Number_div (S754_finite false m1 e1) (S754_finite false m2 e2)
    = S754_finite false mf ef
    ∧ 2 ^ 52 <= Z.pos mf < 2 ^ 53
    ∧ 0 <= n <= 1
    ∧ e1 - e2 - 53 + n <= ef <= e1 - e2 - 53 + n + 1
    ∧ Z.pos mf * 2 ^ (ef - (e1 - e2 - 53 + n)) = mr
    ∧ Z.abs (2 * (mr * (Z.pos m2 * 2 ^ n) - Z.pos m1 * 2 ^ 53)) <= Z.pos m2 * 2 ^ n.
Proof.
  intros Hm1 Hm2 He1 He2.
  unfold Number_div, SFdiv, SFdiv_core_binary.
  rewrite (Zdigits2_unique (Z.pos m1) 53), (Zdigits2_unique (Z.pos m2) 53) by lia.
  rewrite fexp_normal by lia.
  replace (53 + e1 - (53 + e2) - 53) with (e1 - e2 - 53) by lia.
  rewrite Z.min_l by lia.
  replace (e1 - e2 - (e1 - e2 - 53)) with 53 by lia.
  rewrite Z.shiftl_mul_pow2 by lia.
  pose proof (Z.div_eucl_eq (Z.pos m1 * 2 ^ 53) (Z.pos m2) ltac:(lia)) as Heucl.
  pose proof (Z.mod_pos_bound (Z.pos m1 * 2 ^ 53) (Z.pos m2) ltac:(lia)) as Hmod.
  unfold Z.modulo in Hmod.
  destruct (Z.div_eucl (Z.pos m1 * 2 ^ 53) (Z.pos m2)) as [q r].
  cbn [xorb].
  assert (Hq : 2 ^ 52 <= q < 2 ^ 54).
  { change (2 ^ 54) with (2 * 2 ^ 53). change (2 ^ 53) with (2 * 2 ^ 52) in *. nia. }
  assert (Hdq : 53 <= Zdigits2 q <= 54).
  { destruct (Zdigits2_bounds q ltac:(lia)) as [Hlo Hup]. split.
    - destruct (Z.le_gt_cases 53 (Zdigits2 q)) as [|Hlt]; [done|].
      assert (2 ^ Zdigits2 q <= 2 ^ 52) by (apply Z.pow_le_mono_r; lia). lia.
    - destruct (Z.le_gt_cases (Zdigits2 q) 54) as [|Hgt]; [done|].
      assert (2 ^ 54 <= 2 ^ (Zdigits2 q - 1)) by (apply Z.pow_le_mono_r; lia). lia. }
  destruct (binary_round_aux_nearest q (e1 - e2 - 53) (new_location (Z.pos m2) r)
              (Z.pos m1 * 2 ^ 53) (Z.pos m2))
    as (mf & ef & mr & Hrun & Hmf & Hef & Hmr & Hnear); [lia|lia| |lia|lia|lia|].
  { rewrite Heucl. replace (Z.pos m2 * q + r) with (q * Z.pos m2 + r) by ring.
    by apply new_location_located. }
  exists mf, ef, (Zdigits2 q - 53), mr. split_and!; try done; lia.
Qed.

Lemma Number_of_Z_100 : Number_of_Z 100 = S754_finite false 7036874417766400 (-46).
Proof. reflexivity. Qed.

(** A double with a 53-bit mantissa times 100. *)
Lemma Number_mul_100_nearest (m1 : positive) (e1 : Z) :
  2 ^ 52 <= Z.pos m1 < 2 ^ 53 → -200 <= e1 <= 0 →
  ∃ (mf : positive) (ef n mr : Z),
    Number_mul (S754_finite false m1 e1) (Number_of_Z 100) = S754_finite false mf ef
    ∧ 2 ^ 52 <= Z.pos mf < 2 ^ 53
    ∧ 52 <= n <= 53
    ∧ e1 - 46 + n <= ef <= e1 - 46 + n + 1
    ∧ Z.pos mf * 2 ^ (ef - (e1 - 46 + n)) = mr
    ∧ Z.abs (2 * (mr * 2 ^ n - Z.pos m1 * (100 * 2 ^ 46))) <= 2 ^ n.
Proof.
  intros Hm1 He1. rewrite Number_of_Z_100. unfold Number_mul, SFmul. cbn [xorb].
  set (M := Z.pos (m1 * 7036874417766400)).
  assert (HM : M = Z.pos m1 * (100 * 2 ^ 46)) by (unfold M; lia).
  assert (HMrange : 2 ^ 104 <= M < 2 ^ 106).
  { rewrite HM. change (2 ^ 53) with 9007199254740992 in Hm1.
    change (2 ^ 52) with 4503599627370496 in Hm1.
    change (2 ^ 104) with 20282409603651670423947251286016.
    change (2 ^ 106) with 81129638414606681695789005144064.
    change (100 * 2 ^ 46) with 7036874417766400. lia. }
  assert (HdM : 105 <= Zdigits2 M <= 106).
  { destruct (Zdigits2_bounds M ltac:(lia)) as [Hlo Hup]. split.
    - destruct (Z.le_gt_cases 105 (Zdigits2 M)) as [|Hlt]; [done|].
      assert (2 ^ Zdigits2 M <= 2 ^ 104) by (apply Z.pow_le_mono_r; lia). lia.
    - destruct (Z.le_gt_cases (Zdigits2 M) 106) as [|Hgt]; [done|].
      assert (2 ^ 106 <= 2 ^ (Zdigits2 M - 1)) by (apply Z.pow_le_mono_r; lia). lia. }
  destruct (binary_round_aux_nearest M (e1 + -46) loc_Exact M 1)
    as (mf & ef & mr & Hrun & Hmf & Hef & Hmr & Hnear);
    [lia|lia|unfold located; simpl; lia|lia|lia|lia|].
  exists mf, ef, (Zdigits2 M - 53), mr. fold M. rewrite Hrun.
  rewrite Z.mul_1_l in Hnear. rewrite <-HM.
  replace (e1 - 46 + (Zdigits2 M - 53)) with (e1 + -46 + (Zdigits2 M - 53)) by lia.
  split_and!; try done; lia.
Qed.

(** [Math.round] of a positive double below 2^52 is the double of
    [floor (x + 1/2)]. *)
Lemma Math_round_floor (m : positive) (e : Z) :
  e < 0 →
  Math_round (S754_finite false m e)
  = Number_of_Z ((2 * Z.pos m + 2 ^ (- e)) / (2 * 2 ^ (- e))).
Proof.
  intros He. unfold Math_round. destruct (Z.leb_spec 0 e); [lia|].
  cbn [cond_Zopp]. by destruct (Z.eqb_spec ((2 * Z.pos m + 2 ^ (- e)) / (2 * 2 ^ (- e))) 0) as [->|].
Qed.

(** From the rounding error of the product to the nearest percentage. *)
Lemma nearest_from_error (c t p V S W : Z) :
  0 <= c <= t → 0 < t < 2 ^ 40 → 0 < W → S = 2 ^ 53 * W →
  Z.abs (t * V - 100 * c * S) <= 356 * t * W →
  2 * S * p <= 2 * V + S < 2 * S * p + 2 * S →
  nearest_percent c t p.
Proof.
  intros Hc Ht HW HS Herr [Hlo Hup].
  change (2 ^ 40) with 1099511627776 in Ht.
  change (2 ^ 53) with 9007199254740992 in HS.
  assert (HtS : 712 * t * W < S) by nia.
  assert (Hup' : 2 * t * p - 200 * c - t <= 0).
  { destruct (Z.le_gt_cases (2 * t * p - 200 * c - t) 0) as [|Hgt]; [done|].
    assert (S * 1 <= S * (2 * t * p - 200 * c - t)) by (apply Z.mul_le_mono_nonneg_l; lia).
    nia. }
  assert (Hlo' : 200 * c - t - 2 * t * p <= 0).
  { destruct (Z.le_gt_cases (200 * c - t - 2 * t * p) 0) as [|Hgt]; [done|].
    assert (S * 1 <= S * (200 * c - t - 2 * t * p)) by (apply Z.mul_le_mono_nonneg_l; lia).
    nia. }
  unfold nearest_percent. split; [nia|lia].
Qed.

Lemma nearest_percent_spec (c t p : Z) :
  0 < t → nearest_percent c t p →
  p = spec_percent c t ∨ (p = spec_percent c t - 1 ∧ (200 * c) mod (2 * t) = t).
Proof.
  intros Ht [_ Hnear]. unfold spec_percent.
  destruct (Z.eqb_spec t 0); [lia|].
  pose proof (Z.div_mod (200 * c + t) (2 * t) ltac:(lia)) as Hdiv.
  pose proof (Z.mod_pos_bound (200 * c + t) (2 * t) ltac:(lia)) as Hmod.
  set (q := (200 * c + t) / (2 * t)) in *.
  assert (p = q ∨ p = q - 1) as [->| ->] by nia; [by left|right].
  split; [done|].
  symmetry. apply Z.mod_unique with (q - 1); [lia|nia].
Qed.

Lemma abs_scale (X B Y T : Z) :
  0 < Y → Z.abs (2 * X) <= B → B * Y <= 2 * T → Z.abs (X * Y) <= T.
Proof.
  intros HY HX HB. rewrite Z.abs_mul, (Z.abs_eq Y) by lia.
  rewrite Z.abs_mul in HX. change (Z.abs 2) with 2 in HX.
  assert (2 * Z.abs X * Y <= B * Y) by (apply Z.mul_le_mono_nonneg_r; lia). lia.
Qed.

Lemma abs_combine (t c V1 V2 S W : Z) :
  0 < t → 0 < W →
  Z.abs (t * V1 - c * S) <= t * W → Z.abs (V2 - 100 * V1) <= 256 * W →
  Z.abs (t * V2 - 100 * c * S) <= 356 * t * W.
Proof.
  intros Ht HW H1 H2.
  replace (t * V2 - 100 * c * S) with (t * (V2 - 100 * V1) + 100 * (t * V1 - c * S)) by ring.
  assert (Z.abs (t * (V2 - 100 * V1)) <= t * (256 * W)).
  { rewrite Z.abs_mul, (Z.abs_eq t) by lia. apply Z.mul_le_mono_nonneg_l; lia. }
  lia.
Qed.

Lemma floor_scale (m d G p S V : Z) :
  0 < d → 0 < G → S = d * G → V = m * G →
  p = (2 * m + d) / (2 * d) →
  2 * S * p <= 2 * V + S < 2 * S * p + 2 * S.
Proof.
  intros Hd HG -> -> ->.
  pose proof (Z.div_mod (2 * m + d) (2 * d) ltac:(lia)) as Hdiv.
  pose proof (Z.mod_pos_bound (2 * m + d) (2 * d) ltac:(lia)) as Hmod.
  set (q := (2 * m + d) / (2 * d)) in *. set (r := (2 * m + d) mod (2 * d)) in *.
  replace (2 * (m * G) + d * G) with ((2 * m + d) * G) by ring.
  rewrite Hdiv. nia.
Qed.

Lemma pow2_split (a b : Z) : 0 <= a → 0 <= b → 2 ^ (a + b) = 2 ^ a * 2 ^ b.
Proof. intros. by apply Z.pow_add_r. Qed.

(** The virtual of a book open at page [c] of [t], for page counts below
    2^40: the double-precision computation ends on an integer nearest to
    the exact percentage. *)
Lemma progressPercentage_pages (b : Book.t) (c t : Z) :
  0 < t < 2 ^ 40 → 0 <= c <= t →
  ∃ p, Book.progressPercentage (with_pages c t b) = Number_of_Z p
       ∧ nearest_percent c t p.
Proof.
  intros Ht Hc. unfold Book.progressPercentage, with_pages.
  cbn [Book.totalPages Book.currentPage].
  assert (Ht53 : 0 < t < 2 ^ 53).
  { split; [lia|]. apply Z.lt_trans with (2 ^ 40); [lia|done]. }
  destruct (Number_of_Z_normal t Ht53) as (m2 & e2 & -> & Hm2 & He2 & Hm2t).
  change (Number_eq (S754_finite false m2 e2) pos_zero) with false. cbv iota.
  destruct (Z.eq_dec c 0) as [->|Hc0].
  { exists 0. split; [reflexivity|]. unfold nearest_percent. lia. }
  assert (Hc53 : 0 < c < 2 ^ 53) by lia.
  destruct (Number_of_Z_normal c Hc53) as (m1 & e1 & -> & Hm1 & He1 & Hm1c).
  (* the smaller count has the smaller exponent *)
  assert (He12 : e1 <= e2).
  { destruct (Z.le_gt_cases e1 e2) as [|Hgt]; [done|].
    assert (2 ^ (- e1 + 1) <= 2 ^ (- e2)) by (apply Z.pow_le_mono_r; lia).
    rewrite pow2_split in * by lia. change (2 ^ 1) with 2 in *.
    assert (0 < 2 ^ (- e1)) by (apply Z.pow_pos_nonneg; lia).
    nia. }
  destruct (SFdiv_nearest m1 m2 e1 e2 Hm1 Hm2 He1 He2)
    as (mf1 & ef1 & n1 & mr1 & -> & Hmf1 & Hn1 & Hef1 & Hmr1 & Hnear1).
  destruct (Number_mul_100_nearest mf1 ef1 Hmf1 ltac:(lia))
    as (mf2 & ef2 & n2 & mr2 & -> & Hmf2 & Hn2 & Hef2 & Hmr2 & Hnear2).
  rewrite Math_round_floor by lia.
  eexists. split; [reflexivity|].
  set (p := (2 * Z.pos mf2 + 2 ^ (- ef2)) / (2 * 2 ^ (- ef2))).
  set (W := 2 ^ 147). set (S := 2 ^ 200).
  set (V1 := Z.pos mf1 * 2 ^ (ef1 + 200)).
  set (V2 := Z.pos mf2 * 2 ^ (ef2 + 200)).
  (* error of the quotient *)
  assert (HV1 : Z.abs (t * V1 - c * S) <= t * W).
  { set (Y := 2 ^ (147 + e1)).
    assert (HY : 0 < Y) by (apply Z.pow_pos_nonneg; lia).
    assert (HV1' : V1 = mr1 * (2 ^ n1 * (2 ^ (- e2) * Y))).
    { unfold V1, Y. rewrite <-Hmr1, <-!pow2_split, <-Z.mul_assoc, <-pow2_split by lia.
      do 2 f_equal. lia. }
    assert (HS' : S = 2 ^ (- e1) * (2 ^ 53 * Y)).
    { unfold S, Y. rewrite <-!pow2_split by lia. f_equal. lia. }
    assert (HtW : 2 * (t * W) >= Z.pos m2 * 2 ^ n1 * Y).
    { assert (Hle : 2 ^ n1 * (2 ^ (- e2) * Y) <= 2 * W).
      { unfold Y, W. rewrite <-!pow2_split by lia.
        change (2 * 2 ^ 147) with (2 ^ 148). apply Z.pow_le_mono_r; lia. }
      rewrite Hm2t. nia. }
    assert (Heq : t * V1 - c * S
                  = (mr1 * (Z.pos m2 * 2 ^ n1) - Z.pos m1 * 2 ^ 53) * Y).
    { rewrite HV1', HS', Hm2t, Hm1c. ring. }
    rewrite Heq. apply (abs_scale _ (Z.pos m2 * 2 ^ n1)); [done|done|lia]. }
  (* error of the product *)
  assert (HV2 : Z.abs (V2 - 100 * V1) <= 256 * W).
  { set (Y := 2 ^ (ef1 + 154)).
    assert (HY : 0 < Y) by (apply Z.pow_pos_nonneg; lia).
    assert (HV2' : V2 = mr2 * (2 ^ n2 * Y)).
    { unfold V2, Y. rewrite <-Hmr2, <-pow2_split, <-Z.mul_assoc, <-pow2_split by lia.
      do 2 f_equal. lia. }
    assert (HV1' : 100 * V1 = Z.pos mf1 * (100 * 2 ^ 46) * Y).
    { unfold V1, Y. replace (ef1 + 200) with (46 + (ef1 + 154)) by lia.
      rewrite pow2_split by lia. ring. }
    assert (Hle : 2 ^ n2 * Y <= 512 * W).
    { unfold Y, W. rewrite <-pow2_split by lia. change 512 with (2 ^ 9).
      rewrite <-pow2_split by lia. apply Z.pow_le_mono_r; lia. }
    assert (Heq : V2 - 100 * V1 = (mr2 * 2 ^ n2 - Z.pos mf1 * (100 * 2 ^ 46)) * Y).
    { rewrite HV2', HV1'. ring. }
    rewrite Heq. apply (abs_scale _ (2 ^ n2)); [done|done|lia]. }
  (* the rounding to an integer *)
  assert (Hp : 2 * S * p <= 2 * V2 + S < 2 * S * p + 2 * S).
  { apply (floor_scale (Z.pos mf2) (2 ^ (- ef2)) (2 ^ (ef2 + 200))); try done.
    - apply Z.pow_pos_nonneg; lia.
    - apply Z.pow_pos_nonneg; lia.
    - unfold S. rewrite <-pow2_split by lia. f_equal. lia. }
  assert (HW : 0 < W) by (apply Z.pow_pos_nonneg; lia).
  assert (HS : S = 2 ^ 53 * W) by (unfold S, W; rewrite <-pow2_split by lia; done).
  assert (Herr : Z.abs (t * V2 - 100 * c * S) <= 356 * t * W)
    by (apply (abs_combine t c V1 V2 S W); [lia|done..]).
  clearbody W S V1 V2 p.
  by apply (nearest_from_error c t p V2 S W).
Qed.

(** C2, counterexample: a 40-page book open at page 23 is served 57,
    although 23/40*100 is exactly 57.5 and rounds to 58. *)
Lemma progressPercentage_tie_rounds_down :
  Book.totalPages Sample.aliceBook = Number_of_Z 40
  ∧ Book.currentPage Sample.aliceBook = Number_of_Z 23
  ∧ Book.progressPercentage Sample.aliceBook = Number_of_Z 57
  ∧ spec_percent 23 40 = 58
  ∧ Book.progressPercentage Sample.aliceBook ≠ Number_of_Z (spec_percent 23 40).
Proof. vm_compute. repeat split; discriminate. Qed.

(** C2, amended: the virtual is computed from the stored page fields each
    time the document is serialised; it is [0] when [totalPages] is [0],
    whatever [currentPage] is, and otherwise [Math.round] of the
    double-precision product [(currentPage / totalPages) * 100].  For a
    book of fewer than 2^40 pages open at one of its pages this is an
    integer nearest to the exact percentage: the exact value rounded half
    up, except that an exact tie may be rounded down. *)
Theorem progressPercentage_nearest (b : Book.t) (c t : Z) :
  0 < t < 2 ^ 40 → 0 <= c <= t →
  Book.percent (Book.toJSON b) = Book.progressPercentage b
  ∧ (Number_eq (Book.totalPages b) pos_zero = true →
     Book.progressPercentage b = pos_zero)
  ∧ (Number_eq (Book.totalPages b) pos_zero = false →
     Book.progressPercentage b =
       Math_round (Number_mul (Number_div (Book.currentPage b) (Book.totalPages b))
                              (Number_of_Z 100)))
  ∧ ∃ p, Book.progressPercentage (with_pages c t b) = Number_of_Z p
         ∧ nearest_percent c t p
         ∧ (p = spec_percent c t
            ∨ (p = spec_percent c t - 1 ∧ (200 * c) mod (2 * t) = t)).
Proof.
  intros Ht Hc. split; [reflexivity|].
  split; [by unfold Book.progressPercentage; intros ->|].
  split; [by unfold Book.progressPercentage; intros ->|].
  destruct (progressPercentage_pages b c t Ht Hc) as (p & Hp & Hnear).
  exists p. split_and!; [done..|]. apply nearest_percent_spec; [lia|done].
Qed.

Lemma progressPercentage_nearest_witness :
  0 < 10 < 2 ^ 40 ∧ 0 <= 5 <= 10
  ∧ Book.progressPercentage (with_pages 5 10 Sample.aliceBook) = Number_of_Z 50.
Proof.
  assert (Ht : 0 < 10 < 2 ^ 40) by (split; reflexivity).
  assert (Hc : 0 <= 5 <= 10) by lia.
  split; [exact Ht|]. split; [exact Hc|].
  destruct (progressPercentage_nearest Sample.aliceBook 5 10 Ht Hc)
    as (_ & _ & _ & p & Hp & _ & [Hspec | [_ Htie]]).
  - rewrite Hp, Hspec. reflexivity.
  - discriminate Htie.
Defined.

(** ** Lists of documents *)

Lemma find_owned_by_id (bs : list Book.t) (i o : ObjectId) (k : nat) (b : Book.t) :
  NoDup (Book._id <$> bs) →
  list_find (λ x, Book._id x = i ∧ Book.owner x = o) bs = Some (k, b) →
  list_find (λ x, Book._id x = i) bs = Some (k, b).
Proof.
  intros Hnd Hfind. apply list_find_Some in Hfind as (Hk & [Hi Ho] & Hbefore).
  apply list_find_Some. split_and!; [done..|].
  intros j y Hj Hlt Hy.
  assert (j = k); [|lia].
  eapply NoDup_lookup; [exact Hnd|..]; rewrite list_lookup_fmap.
  - by rewrite Hj; simpl; rewrite Hy.
  - by rewrite Hk; simpl; rewrite Hi.
Qed.

Lemma replaceById_found (bs : list Book.t) (i o : ObjectId) (k : nat) (b b' : Book.t) :
  NoDup (Book._id <$> bs) →
  list_find (λ x, Book._id x = i ∧ Book.owner x = o) bs = Some (k, b) →
  Book._id b' = Book._id b →
  replaceById b' bs = <[k := b']> bs.
Proof.
  intros Hnd Hfind Hid. unfold replaceById.
  pose proof Hfind as Hfind'. apply list_find_Some in Hfind' as (_ & [Hi _] & _).
  rewrite Hid, Hi. by rewrite (find_owned_by_id _ _ _ _ _ Hnd Hfind).
Qed.

(** What [save()] writes. *)

Lemma Number_isInteger_eq (n : Number) : Number_isInteger n = true → Number_eq n n = true.
Proof.
  unfold Number_isInteger, Number_eq, SFeqb. destruct n as [s| | |s m e]; try done.
  intros _. simpl.
  change (Pos.compare_cont Eq m m) with (m ?= m)%positive.
  destruct s; simpl; by rewrite Z.compare_refl, Pos.compare_refl.
Qed.

Lemma isModified_set_currentPage (n : Number) (b : Book.t) :
  isModified b (Book.set_currentPage n b)
  = negb (bool_decide (n = Book.currentPage b) || Number_eq (Book.currentPage b) n).
Proof.
  unfold isModified. simpl. rewrite !(bool_decide_eq_true_2 (_ = _ :> list _)) by done.
  simpl. by rewrite !orb_false_r.
Qed.

Lemma isModified_same_page (n : Number) (b : Book.t) :
  Number_eq (Book.currentPage b) n = true → isModified b (Book.set_currentPage n b) = false.
Proof. intros H. rewrite isModified_set_currentPage, H. by rewrite orb_true_r. Qed.

Lemma isModified_other_page (n : Number) (b : Book.t) :
  Number_isInteger n = true → Number_eq (Book.currentPage b) n = false →
  isModified b (Book.set_currentPage n b) = true.
Proof.
  intros Hint H. rewrite isModified_set_currentPage, H.
  rewrite bool_decide_eq_false_2; [done|].
  intros ->. apply Number_isInteger_eq in Hint. congruence.
Qed.

Lemma isModified_set_vocabulary (vs : list Vocab.t) (b : Book.t) :
  isModified b (Book.set_vocabulary vs b) = false → Book.set_vocabulary vs b = b.
Proof.
  unfold isModified. simpl. intros [[_ H]%orb_false_elim _]%orb_false_elim.
  apply negb_false_iff, bool_decide_eq_true in H. subst vs. by destruct b.
Qed.

Lemma isModified_set_notes (ns : list Note.t) (b : Book.t) :
  isModified b (Book.set_notes ns b) = false → Book.set_notes ns b = b.
Proof.
  unfold isModified. simpl. intros [_ H]%orb_false_elim.
  apply negb_false_iff, bool_decide_eq_true in H. subst ns. by destruct b.
Qed.

Lemma isModified_vocabulary (vs : list Vocab.t) (b : Book.t) :
  isModified b (Book.set_vocabulary vs b) = negb (bool_decide (vs = Book.vocabulary b)).
Proof.
  unfold isModified. simpl.
  rewrite (bool_decide_eq_true_2 (Book.currentPage b = _)) by done.
  rewrite (bool_decide_eq_true_2 (Book.notes b = _)) by done.
  simpl. by rewrite orb_false_r.
Qed.

Lemma isModified_notes (ns : list Note.t) (b : Book.t) :
  isModified b (Book.set_notes ns b) = negb (bool_decide (ns = Book.notes b)).
Proof.
  unfold isModified. simpl.
  rewrite (bool_decide_eq_true_2 (Book.currentPage b = _)) by done.
  by rewrite (bool_decide_eq_true_2 (Book.vocabulary b = _)) by done.
Qed.

Lemma isModified_true_vocabulary (vs : list Vocab.t) (b : Book.t) :
  vs ≠ Book.vocabulary b → isModified b (Book.set_vocabulary vs b) = true.
Proof. intros Hne. rewrite isModified_vocabulary. by rewrite bool_decide_eq_false_2. Qed.

Lemma isModified_true_notes (ns : list Note.t) (b : Book.t) :
  ns ≠ Book.notes b → isModified b (Book.set_notes ns b) = true.
Proof. intros Hne. rewrite isModified_notes. by rewrite bool_decide_eq_false_2. Qed.

Lemma app_singleton_neq {A} (l : list A) (x : A) : l ++ [x] ≠ l.
Proof. intros H. apply (f_equal length) in H. rewrite length_app in H. simpl in H. lia. Qed.

Lemma filter_out_neq {A} (f : A → ObjectId) (l : list A) (k : nat) (x : A) :
  l !! k = Some x → filter (λ y, f y ≠ f x) l ≠ l.
Proof.
  intros Hk H. apply list_elem_of_lookup_2 in Hk. rewrite <-H in Hk.
  by apply list_elem_of_filter in Hk as [? _].
Qed.

(** [save()] of a document found under its owner. *)
Lemma Book_save_found (env : Env) (loaded b : Book.t) (w : World) (i o : ObjectId)
    (k : nat) :
  wf_World w →
  list_find (λ x, Book._id x = i ∧ Book.owner x = o) (books w) = Some (k, loaded) →
  Book._id b = Book._id loaded →
  isModified loaded b = false ∨ db_write_fails env = false →
  Book_save env loaded b w = (Value tt, saved k loaded b w).
Proof.
  intros Hwf Hfind Hid Hok. unfold Book_save, saved.
  destruct (isModified loaded b); [|done].
  destruct Hok as [? | ->]; [done|].
  by rewrite (replaceById_found _ i o k loaded), Hid.
Qed.

Lemma saved_lookup (k : nat) (loaded b : Book.t) (w : World) :
  books w !! k = Some loaded →
  (isModified loaded b = false → b = loaded) →
  books (saved k loaded b w) !! k = Some b.
Proof.
  intros Hk Hsame. unfold saved. destruct (isModified loaded b).
  - simpl. apply list_lookup_insert_eq. by eapply lookup_lt_Some.
  - by rewrite Hsame.
Qed.

Lemma saved_lookup_ne (k k' : nat) (loaded b : Book.t) (w : World) :
  k' ≠ k → books (saved k loaded b w) !! k' = books w !! k'.
Proof.
  intros Hne. unfold saved. destruct (isModified loaded b); [|done].
  simpl. by apply list_lookup_insert_ne.
Qed.

Lemma saved_length (k : nat) (loaded b : Book.t) (w : World) :
  length (books (saved k loaded b w)) = length (books w).
Proof. unfold saved. destruct (isModified loaded b); [|done]. apply length_insert. Qed.

Section Progress.

Variable isValid : jsstring → bool.
Variable castObjectId : jsstring → option ObjectId.

(** A page that passes both checks is returned, and stored when it is
    not the page the book is at. *)
Lemma updateProgress_accepted (env : Env) (userId id : jsstring)
    (body : list (jsstring * JSValue)) (w : World) (i o : ObjectId) (n : Number)
    (k : nat) (book : Book.t) :
  wf_World w →
  isValid id = true → castObjectId id = Some i → castObjectId userId = Some o →
  db_read_fails env = false →
  Number_eq (Book.currentPage book) n = true ∨ db_write_fails env = false →
  ToNumber (getProp body (str "page")) = Normal n →
  Number_isInteger n = true → Number_lt n pos_zero = false →
  list_find (λ b, Book._id b = i ∧ Book.owner b = o) (books w) = Some (k, book) →
  ¬ (Number_gt (Book.totalPages book) pos_zero = true
     ∧ Number_gt n (Book.totalPages book) = true) →
  updateProgress isValid castObjectId env userId id body w
  = (json (BProgress n (Book.progressPercentage (Book.set_currentPage n book))),
     saved k book (Book.set_currentPage n book) w).
Proof.
  intros Hwf Hid Hci Hco Hr Hw Hn Hint Hnonneg Hfind Hle.
  unfold updateProgress, try_catch, bind, when_send, parsePage, lift, Book_findOne.
  rewrite Hid, Hn, Hint, Hci, Hco, Hr. simpl. rewrite Hnonneg. simpl.
  rewrite Hfind. simpl.
  destruct (Number_gt (Book.totalPages book) pos_zero && Number_gt n (Book.totalPages book))
    eqn:E.
  { apply andb_prop in E. tauto. }
  simpl. rewrite (Book_save_found env book _ w i o k); [done..|].
  destruct Hw as [Heq | Hw]; [left; by apply isModified_same_page | by right].
Qed.




End Progress.

(** Case analysis on a scrutinee that is not itself a case analysis. *)
Ltac case_inner :=
  match goal with
  | |- context [match ?x with _ => _ end] =>
      lazymatch x with
      | context [match _ with _ => _ end] => fail
      | _ => destruct x eqn:?
      end
  end.


Lemma parsePage_Some (v : JSValue) (page : Number) :
  parsePage v = Normal (Some page) →
  ToNumber v = Normal page ∧ Number_isInteger page = true.
Proof.
  unfold parsePage. destruct (ToNumber v) as [n|]; [|done].
  destruct (Number_isInteger n) eqn:E; [|done]. by intros [= <-].
Qed.

Lemma save_shape (o i : ObjectId) (w : World) (t b' : Book.t) :
  wf_World w →
  snd <$> list_find (λ b, Book._id b = i ∧ Book.owner b = o) (books w) = Some t →
  Book._id b' = Book._id t → Book.owner b' = Book.owner t →
  Book.totalPages b' = Book.totalPages t →
  Book.currentPage b' = Book.currentPage t ∨ page_invariant b' →
  step_shape o w (emit (BookUpdate (Book._id b')) (set_books (replaceById b' (books w)) w)).
Proof.
  intros Hwf Hfind Hid Hown Htot Hcur.
  destruct (list_find _ _) as [[k t']|] eqn:E; simplify_eq/=.
  rewrite (replaceById_found _ i o k t) by done.
  apply list_find_Some in E as (Hk & [Hi Ho] & _).
  split; [done|]. right; left. exists k, t, b'. split_and!; try done. congruence.
Qed.

Lemma delete_shape (o i : ObjectId) (w : World) (k : nat) (t t' : Book.t) :
  wf_World w →
  snd <$> list_find (λ b, Book._id b = i ∧ Book.owner b = o) (books w) = Some t →
  list_find (λ b, Book._id b = i) (books w) = Some (k, t') →
  books w !! k = Some t ∧ Book.owner t = o.
Proof.
  intros Hwf Hfind Hdel.
  destruct (list_find (λ b, _ ∧ _) _) as [[k0 t0]|] eqn:E; simplify_eq/=.
  rewrite (find_owned_by_id _ _ _ _ _ Hwf E) in Hdel. simplify_eq.
  by apply list_find_Some in E as (Hk & [Hi Ho] & _).
Qed.

Ltac apply_save_shape :=
  match goal with
  | H : snd <$> list_find _ _ = Some ?t
    |- step_shape ?o _ (emit _ (set_books (replaceById ?b _) _)) =>
      eapply (save_shape o _ _ t b); [done|exact H|done..|]
  end.

Section Shape.

Variable isValid : jsstring → bool.
Variable castObjectId : jsstring → option ObjectId.

(** What a Book operation of user [o] can do to the collection: nothing,
    rewrite one of the user's own documents in place, keeping its
    identity, owner and page count, or delete one of them. *)
Lemma run_shape (env : Env) (userId : jsstring) (o : ObjectId) (op : BookOp)
    (w w' : World) (r : Response) :
  wf_World w → castObjectId userId = Some o →
  run isValid castObjectId env userId op w = (r, w') →
  step_shape o w w'.
Proof.
  intros Hwf Ho Hrun.
  destruct op; simpl in Hrun;
    unfold listBooks, updateProgress, addVocab, updateVocab, deleteVocab, addNote,
      getNotes, updateNote, deleteNote, deleteBook, try_catch, bind, when_send, lift,
      Book_find, Book_findOne, Book_save, cloudinary_destroy, Book_findByIdAndDelete,
      send, ret, throw in Hrun;
    rewrite ?Ho in Hrun;
    repeat (case_match; simplify_eq/=);
    try (split; [done|by left]);
    try (apply_save_shape; by left).
  - apply_save_shape. right.
    match goal with H : parsePage _ = _ |- _ => apply parsePage_Some in H as [_ Hint] end.
    split_and!; [done..|]. simpl. intros [Ha Hb].
    match goal with H : _ && _ = false |- _ => by rewrite Ha, Hb in H end.
  - match goal with
    | H1 : snd <$> list_find _ _ = Some ?t, H2 : list_find _ _ = Some (?k, _) |- _ =>
        destruct (delete_shape o _ _ _ _ _ Hwf H1 H2) as [Hk Hown];
        split; [done|]; right; right; by exists k, t
    end.
Qed.

End Shape.

(** ** Frame and invariants *)

Lemma filter_insert_other {A} (P : A → Prop) `{!∀ x, Decision (P x)}
    (l : list A) (k : nat) (x y : A) :
  l !! k = Some x → ¬ P x → ¬ P y → filter P (<[k := y]> l) = filter P l.
Proof.
  revert k. induction l as [|a l IH]; intros [|k] Hk Hx Hy; simplify_eq/=.
  - by rewrite !filter_cons, !decide_False.
  - rewrite !filter_cons. by rewrite (IH k).
Qed.

Lemma filter_delete_other {A} (P : A → Prop) `{!∀ x, Decision (P x)}
    (l : list A) (k : nat) (x : A) :
  l !! k = Some x → ¬ P x → filter P (delete k l) = filter P l.
Proof.
  revert k. induction l as [|a l IH]; intros [|k] Hk Hx; simplify_eq/=.
  - by rewrite filter_cons, decide_False.
  - rewrite !filter_cons. by rewrite (IH k).
Qed.

Lemma find_in_filter (i o : ObjectId) (bs : list Book.t) :
  snd <$> list_find (λ b, Book._id b = i ∧ Book.owner b = o) bs
  = snd <$> list_find (λ b, Book._id b = i) (filter (λ b, Book.owner b = o) bs).
Proof.
  induction bs as [|b bs IH]; [done|].
  rewrite filter_cons. simpl.
  destruct (decide (Book.owner b = o)) as [Ho|Ho]; simpl.
  - destruct (decide (Book._id b = i)) as [Hi|Hi].
    + by rewrite decide_True.
    + rewrite decide_False by tauto.
      destruct (list_find _ bs) as [[??]|], (list_find _ (filter _ bs)) as [[??]|];
        simplify_eq/=; done.
  - rewrite decide_False by tauto.
    destruct (list_find _ bs) as [[??]|]; simplify_eq/=; done.
Qed.

(** Others' books are exactly what they were. *)
Lemma step_shape_frame (o : ObjectId) (w w' : World) :
  step_shape o w w' →
  filter (λ b, Book.owner b ≠ o) (books w') = filter (λ b, Book.owner b ≠ o) (books w).
Proof.
  intros [_ [-> | [(k & b & b' & Hk & Ho & _ & Ho' & _ & _ & ->) | (k & b & Hk & Ho & ->)]]].
  - done.
  - apply (filter_insert_other _ _ _ b); [done|intros ?; done..].
  - apply (filter_delete_other _ _ _ b); [done|intros ?; done].
Qed.

Lemma step_shape_wf (o : ObjectId) (w w' : World) :
  step_shape o w w' → wf_World w → wf_World w'.
Proof.
  unfold wf_World.
  intros [_ [-> | [(k & b & b' & Hk & _ & Hid & _ & _ & _ & ->) | (k & b & Hk & _ & ->)]]] Hwf.
  - done.
  - rewrite list_fmap_insert, Hid, list_insert_id; [done|].
    by rewrite list_lookup_fmap, Hk.
  - eapply sublist_NoDup; [exact Hwf|]. apply fmap_sublist, sublist_delete.
Qed.

Lemma step_shape_pages (o : ObjectId) (w w' : World) :
  step_shape o w w' →
  Forall page_invariant (books w) → Forall page_invariant (books w').
Proof.
  intros [_ [-> | [(k & b & b' & Hk & _ & _ & _ & Htot & Hcur & ->) | (k & b & Hk & _ & ->)]]] Hall.
  - done.
  - apply Forall_insert; [done|].
    destruct Hcur as [Hcur|]; [|done].
    pose proof (Forall_lookup_1 _ _ _ _ Hall Hk) as Hb.
    unfold page_invariant in *. by rewrite Hcur, Htot.
  - by apply Forall_delete.
Qed.

Section Isolation.

Variable isValid : jsstring → bool.
Variable castObjectId : jsstring → option ObjectId.

(** The response to a Book operation of user [o] is a function of that
    user's own books. *)
Lemma run_response_own (env : Env) (userId : jsstring) (o : ObjectId) (op : BookOp)
    (w w2 : World) :
  castObjectId userId = Some o →
  filter (λ b, Book.owner b = o) (books w2) = filter (λ b, Book.owner b = o) (books w) →
  (run isValid castObjectId env userId op w2).1
  = (run isValid castObjectId env userId op w).1.
Proof.
  intros Ho Hown.
  destruct op; simpl;
    unfold listBooks, updateProgress, addVocab, updateVocab, deleteVocab, addNote,
      getNotes, updateNote, deleteNote, deleteBook, try_catch, bind, when_send, lift,
      Book_find, Book_findOne, Book_save, cloudinary_destroy, Book_findByIdAndDelete,
      send, ret, throw;
    repeat first
      [ progress (rewrite ?Ho, ?find_in_filter, ?Hown)
      | progress simpl
      | case_inner; simplify_eq/= ];
    try done.
Qed.

(** C1: a Book operation run for an authenticated user never changes a
    book of another owner, and its response is a function of the user's
    own books: it is the response the user would get if the books of all
    other users, or any one of them, did not exist. *)
Theorem ownership_isolation (env : Env) (userId : jsstring) (o : ObjectId)
    (op : BookOp) (w : World) :
  wf_World w → castObjectId userId = Some o →
  filter (λ b, Book.owner b ≠ o) (books (run isValid castObjectId env userId op w).2)
  = filter (λ b, Book.owner b ≠ o) (books w)
  ∧ (∀ w2,
       filter (λ b, Book.owner b = o) (books w2) = filter (λ b, Book.owner b = o) (books w) →
       (run isValid castObjectId env userId op w2).1
       = (run isValid castObjectId env userId op w).1)
  ∧ (∀ a, Book.owner a ≠ o →
       (run isValid castObjectId env userId op
          (set_books (filter (λ b, b ≠ a) (books w)) w)).1
       = (run isValid castObjectId env userId op w).1).
Proof.
  intros Hwf Ho. split_and!.
  - destruct (run _ _ _ _ _ w) as [r w'] eqn:Hrun.
    eapply step_shape_frame, run_shape; eauto.
  - intros w2 Hown. by apply run_response_own with o.
  - intros a Ha. apply run_response_own with o; [done|]. simpl.
    rewrite list_filter_filter. apply list_filter_iff.
    intros b. split; [tauto|]. intros Hb. split; [done|]. congruence.
Qed.

End Isolation.

(** ** Reachable worlds *)

Lemma zero_page_invariant (b : Book.t) :
  Book.currentPage b = pos_zero → page_invariant b.
Proof.
  intros Hc. unfold page_invariant. rewrite Hc. split_and!; [done..|].
  unfold Number_gt, SFltb. destruct (Book.totalPages b) as [[]|[]| |[] ? ?]; simpl; intros [??]; done.
Qed.

Section Reachable.

Variable isValid : jsstring → bool.
Variable castObjectId : jsstring → option ObjectId.

Lemma run_unauthenticated (env : Env) (userId : jsstring) (op : BookOp) (w : World) :
  castObjectId userId = None →
  books (run isValid castObjectId env userId op w).2 = books w.
Proof.
  intros Ho.
  destruct op; simpl;
    unfold listBooks, updateProgress, addVocab, updateVocab, deleteVocab, addNote,
      getNotes, updateNote, deleteNote, deleteBook, try_catch, bind, when_send, lift,
      Book_find, Book_findOne, Book_save, cloudinary_destroy, Book_findByIdAndDelete,
      send, ret, throw;
    repeat first
      [ progress (rewrite ?Ho)
      | progress simpl
      | case_inner; simplify_eq/= ];
    try done.
Qed.

Lemma uploadBook_books (env : Env) (userId : jsstring) (part : option File)
    (body : list (jsstring * JSValue)) (w : World) :
  let w' := (uploadBook castObjectId env userId part body w).2 in
  books w' = books w
  ∨ ∃ b, (books w' = books w ++ [b])
         ∧ (Book._id b ∉ Book._id <$> books w)
         ∧ Book.currentPage b = pos_zero.
Proof.
  unfold uploadBook, try_catch, bind, lift, cloudinary_upload, Book_create, send, ret, throw.
  repeat first [ progress simpl | case_inner; simplify_eq/= ]; eauto.
Qed.

Lemma reachable_invariant (w : World) :
  reachable isValid castObjectId w →
  wf_World w ∧ Forall page_invariant (books w).
Proof.
  induction 1 as [us | env userId part body w _ [IHwf IHpg] | env userId op w _ [IHwf IHpg]].
  - split; [apply NoDup_nil_2 | apply Forall_nil_2].
  - unfold wf_World in *.
    destruct (uploadBook_books env userId part body w) as [Hb | (b & Hb & Hfresh & Hzero)];
      simpl in Hb; rewrite Hb; [done|].
    rewrite fmap_app. split.
    + apply NoDup_app. split_and!; [done| |apply NoDup_singleton].
      intros x Hx Hin. apply list_elem_of_singleton in Hin as ->. done.
    + apply Forall_app. split; [done|]. apply Forall_singleton. by apply zero_page_invariant.
  - destruct (castObjectId userId) as [o|] eqn:Ho.
    + destruct (run _ _ _ _ _ w) as [r w'] eqn:Hrun.
      pose proof (run_shape _ _ _ _ _ _ _ _ _ IHwf Ho Hrun) as Hshape. simpl.
      eauto using step_shape_wf, step_shape_pages.
    + unfold wf_World. by rewrite run_unauthenticated.
Qed.

(** C7: in every world the server can reach, setting the progress of an
    owned book to the page it is already at succeeds and returns the
    percentage the book already had.  No path of the document is
    modified, so [save()] writes nothing: the world is left exactly as it
    was, whether or not the database accepts writes. *)
Theorem updateProgress_idempotent (env : Env) (userId id : jsstring) (i o : ObjectId)
    (w : World) (k : nat) (book : Book.t) :
  reachable isValid castObjectId w →
  isValid id = true → castObjectId id = Some i → castObjectId userId = Some o →
  db_read_fails env = false →
  list_find (λ b, Book._id b = i ∧ Book.owner b = o) (books w) = Some (k, book) →
  updateProgress isValid castObjectId env userId id
    [(str "page", JNum (Book.currentPage book))] w
  = (json (BProgress (Book.currentPage book) (Book.progressPercentage book)), w).
Proof.
  intros Hreach Hid Hci Hco Hr Hfind.
  destruct (reachable_invariant w Hreach) as [Hwf Hpages].
  pose proof Hfind as (Hk & _ & _)%list_find_Some.
  destruct (Forall_lookup_1 _ _ _ _ Hpages Hk) as (Hint & Hnonneg & Hle).
  pose proof (Number_isInteger_eq _ Hint) as Heq.
  rewrite (updateProgress_accepted isValid castObjectId env userId id _ w i o
             (Book.currentPage book) k book); try done; [|by left].
  unfold saved. rewrite isModified_same_page by done.
  by assert (Book.set_currentPage (Book.currentPage book) book = book) as -> by by destruct book.
Qed.

End Reachable.

(** ** Partial updates of vocabulary entries and notes *)

Lemma parseNonEmptyString_None (v : JSValue) :
  parseNonEmptyString v = None ↔ ∀ s, v = JStr s → trim s = [].
Proof.
  destruct v as [| | | |s| |]; simpl; try (split; [intros _ ? [=]|done]).
  destruct (trim s) as [|c t] eqn:E; simpl.
  - split; [|done]. by intros _ ? [= <-].
  - split; [done|]. intros H. specialize (H s eq_refl). congruence.
Qed.

Section Partial.

Variable isValid : jsstring → bool.
Variable castObjectId : jsstring → option ObjectId.

(** [updateVocab] when the ids are well-formed, the book is the user's and
    holds the entry. *)
Lemma updateVocab_found (env : Env) (userId id vocabId : jsstring)
    (body : list (jsstring * JSValue)) (w : World) (i o vi : ObjectId)
    (k j : nat) (book : Book.t) (vocab : Vocab.t) :
  wf_World w →
  isValid id = true → isValid vocabId = true →
  castObjectId id = Some i → castObjectId userId = Some o → castObjectId vocabId = Some vi →
  db_read_fails env = false → db_write_fails env = false →
  list_find (λ b, Book._id b = i ∧ Book.owner b = o) (books w) = Some (k, book) →
  list_find (λ v, Vocab._id v = vi) (Book.vocabulary book) = Some (j, vocab) →
  let word := parseNonEmptyString (getProp body (str "word")) in
  let definition := parseNonEmptyString (getProp body (str "definition")) in
  ¬ (word = None ∧ definition = None) →
  updateVocab isValid castObjectId env userId id vocabId body w
  = (json (BVocab (assignVocab word definition vocab)),
     saved k book
       (Book.set_vocabulary
          (<[j := assignVocab word definition vocab]> (Book.vocabulary book)) book)
       w).
Proof.
  intros Hwf Hid Hvid Hci Hco Hcv Hr Hw Hfind Hvocab word definition Hsome.
  unfold updateVocab, try_catch, bind, when_send, Book_findOne, vocabulary_id.
  fold word definition.
  rewrite Hid, Hvid, Hci, Hco, Hcv, Hr. simpl.
  destruct (negb (truthy word) && negb (truthy definition)) eqn:E.
  { destruct word, definition; simplify_eq/=. tauto. }
  simpl. rewrite Hfind. simpl. rewrite Hvocab. simpl.
  by rewrite (Book_save_found env book _ w i o k); [|done..|by right].
Qed.

(** C8: [PATCH /books/:id/vocab/:vocabId] on an existing entry assigns
    the fields that were supplied and no other, returns the updated
    entry, and leaves the other entries of the book, the other fields of
    the book and the other books as they were; with only [word] supplied
    the definition is unchanged. *)
Theorem updateVocab_only_supplied_fields (env : Env) (userId id vocabId : jsstring)
    (body : list (jsstring * JSValue)) (w : World) (i o vi : ObjectId)
    (k j : nat) (book : Book.t) (vocab : Vocab.t) :
  wf_World w →
  isValid id = true → isValid vocabId = true →
  castObjectId id = Some i → castObjectId userId = Some o → castObjectId vocabId = Some vi →
  db_read_fails env = false → db_write_fails env = false →
  list_find (λ b, Book._id b = i ∧ Book.owner b = o) (books w) = Some (k, book) →
  list_find (λ v, Vocab._id v = vi) (Book.vocabulary book) = Some (j, vocab) →
  let word := parseNonEmptyString (getProp body (str "word")) in
  let definition := parseNonEmptyString (getProp body (str "definition")) in
  ¬ (word = None ∧ definition = None) →
  ∃ updated stored w',
    updateVocab isValid castObjectId env userId id vocabId body w
    = (json (BVocab updated), w')
    ∧ Vocab._id updated = Vocab._id vocab
    ∧ Vocab.word updated = default (Vocab.word vocab) word
    ∧ Vocab.definition updated = default (Vocab.definition vocab) definition
    ∧ (getProp body (str "definition") = JUndefined →
       Vocab.definition updated = Vocab.definition vocab)
    ∧ (getProp body (str "word") = JUndefined →
       Vocab.word updated = Vocab.word vocab)
    ∧ Book.vocabulary stored !! j = Some updated
    ∧ (∀ j', j' ≠ j → Book.vocabulary stored !! j' = Book.vocabulary book !! j')
    ∧ stored = Book.set_vocabulary (Book.vocabulary stored) book
    ∧ books w' !! k = Some stored
    ∧ (∀ k', k' ≠ k → books w' !! k' = books w !! k')
    ∧ length (books w') = length (books w).
Proof.
  intros Hwf Hid Hvid Hci Hco Hcv Hr Hw Hfind Hvocab word definition Hsome.
  exists (assignVocab word definition vocab),
    (Book.set_vocabulary (<[j := assignVocab word definition vocab]> (Book.vocabulary book))
       book).
  eexists. split.
  { by apply (updateVocab_found env userId id vocabId body w i o vi k j book vocab). }
  fold word definition.
  pose proof Hfind as (Hk & _ & _)%list_find_Some.
  pose proof Hvocab as (Hj & _ & _)%list_find_Some.
  simpl. split_and!; try done.
  - intros Hdef. subst definition. by rewrite Hdef.
  - intros Hword. subst word. by rewrite Hword.
  - apply list_lookup_insert_eq. by eapply lookup_lt_Some.
  - intros j' Hne. by apply list_lookup_insert_ne.
  - apply saved_lookup; [done|]. apply isModified_set_vocabulary.
  - intros k' Hne. by apply saved_lookup_ne.
  - apply saved_length.
Qed.

End Partial.

Section Absent.

Variable isValid : jsstring → bool.
Variable castObjectId : jsstring → option ObjectId.

(** [updateNote] when the ids are well-formed, the book is the user's and
    holds the note. *)
Lemma updateNote_found (env : Env) (userId id noteId : jsstring)
    (body : list (jsstring * JSValue)) (w : World) (i o ni : ObjectId)
    (k j : nat) (book : Book.t) (note : Note.t) :
  wf_World w →
  isValid id = true → isValid noteId = true →
  castObjectId id = Some i → castObjectId userId = Some o → castObjectId noteId = Some ni →
  db_read_fails env = false → db_write_fails env = false →
  list_find (λ b, Book._id b = i ∧ Book.owner b = o) (books w) = Some (k, book) →
  list_find (λ n, Note._id n = ni) (Book.notes book) = Some (j, note) →
  let title := parseNonEmptyString (getProp body (str "title")) in
  let content := parseNonEmptyString (getProp body (str "content")) in
  ¬ (title = None ∧ content = None) →
  updateNote isValid castObjectId env userId id noteId body w
  = (json (BNote (assignNote title content note)),
     saved k book
       (Book.set_notes (<[j := assignNote title content note]> (Book.notes book)) book)
       w).
Proof.
  intros Hwf Hid Hnid Hci Hco Hcn Hr Hw Hfind Hnote title content Hsome.
  unfold updateNote, try_catch, bind, when_send, Book_findOne, notes_id.
  fold title content.
  rewrite Hid, Hnid, Hci, Hco, Hcn, Hr. simpl.
  destruct (negb (truthy title) && negb (truthy content)) eqn:E.
  { destruct title, content; simplify_eq/=. tauto. }
  simpl. rewrite Hfind. simpl. rewrite Hnote. simpl.
  by rewrite (Book_save_found env book _ w i o k); [|done..|by right].
Qed.

Lemma updateVocab_at_least_one (env : Env) (userId id vocabId : jsstring)
    (body : list (jsstring * JSValue)) (w : World) :
  isValid id = true → isValid vocabId = true →
  (updateVocab isValid castObjectId env userId id vocabId body w).1
  = error 400 "At least one of word or definition is required."
  ↔ parseNonEmptyString (getProp body (str "word")) = None
    ∧ parseNonEmptyString (getProp body (str "definition")) = None.
Proof.
  intros Hid Hvid.
  unfold updateVocab, try_catch, bind, when_send, Book_findOne, Book_save, vocabulary_id,
    send, ret, throw.
  rewrite Hid, Hvid. simpl.
  destruct (parseNonEmptyString (getProp body (str "word"))),
    (parseNonEmptyString (getProp body (str "definition"))); simpl;
    (split; [|by intros [??]]);
    repeat first [progress simpl | case_inner; simplify_eq/=]; done.
Qed.

Lemma updateNote_at_least_one (env : Env) (userId id noteId : jsstring)
    (body : list (jsstring * JSValue)) (w : World) :
  isValid id = true → isValid noteId = true →
  (updateNote isValid castObjectId env userId id noteId body w).1
  = error 400 "At least one of title or content is required."
  ↔ parseNonEmptyString (getProp body (str "title")) = None
    ∧ parseNonEmptyString (getProp body (str "content")) = None.
Proof.
  intros Hid Hnid.
  unfold updateNote, try_catch, bind, when_send, Book_findOne, Book_save, notes_id,
    send, ret, throw.
  rewrite Hid, Hnid. simpl.
  destruct (parseNonEmptyString (getProp body (str "title"))),
    (parseNonEmptyString (getProp body (str "content"))); simpl;
    (split; [|by intros [??]]);
    repeat first [progress simpl | case_inner; simplify_eq/=]; done.
Qed.

(** The two handlers read the body only through [parseNonEmptyString]. *)
Lemma updateVocab_parsed (env : Env) (userId id vocabId : jsstring)
    (body body' : list (jsstring * JSValue)) (w : World) :
  parseNonEmptyString (getProp body' (str "word"))
  = parseNonEmptyString (getProp body (str "word")) →
  parseNonEmptyString (getProp body' (str "definition"))
  = parseNonEmptyString (getProp body (str "definition")) →
  updateVocab isValid castObjectId env userId id vocabId body' w
  = updateVocab isValid castObjectId env userId id vocabId body w.
Proof. unfold updateVocab. by intros -> ->. Qed.

Lemma updateNote_parsed (env : Env) (userId id noteId : jsstring)
    (body body' : list (jsstring * JSValue)) (w : World) :
  parseNonEmptyString (getProp body' (str "title"))
  = parseNonEmptyString (getProp body (str "title")) →
  parseNonEmptyString (getProp body' (str "content"))
  = parseNonEmptyString (getProp body (str "content")) →
  updateNote isValid castObjectId env userId id noteId body' w
  = updateNote isValid castObjectId env userId id noteId body w.
Proof. unfold updateNote. by intros -> ->. Qed.

(** C10: in [updateVocab] and [updateNote] a field that is not a string,
    or is blank after trimming, parses to [null] and is handled exactly as
    a missing field: the request is answered as if the field were absent,
    the stored field keeps its value and the update succeeds when the
    other field is usable.  Once the ids have passed their format check,
    the "at least one" error is the answer exactly when both fields parse
    to [null]. *)
Theorem unusable_field_is_absent (env : Env) (userId id subId : jsstring)
    (body : list (jsstring * JSValue)) (w : World) :
  isValid id = true → isValid subId = true →
  let word := parseNonEmptyString (getProp body (str "word")) in
  let definition := parseNonEmptyString (getProp body (str "definition")) in
  let title := parseNonEmptyString (getProp body (str "title")) in
  let content := parseNonEmptyString (getProp body (str "content")) in
  (∀ v, parseNonEmptyString v = None ↔ ∀ s, v = JStr s → trim s = [])
  ∧ (∀ body',
       parseNonEmptyString (getProp body' (str "word")) = word →
       parseNonEmptyString (getProp body' (str "definition")) = definition →
       updateVocab isValid castObjectId env userId id subId body' w
       = updateVocab isValid castObjectId env userId id subId body w)
  ∧ (∀ body',
       parseNonEmptyString (getProp body' (str "title")) = title →
       parseNonEmptyString (getProp body' (str "content")) = content →
       updateNote isValid castObjectId env userId id subId body' w
       = updateNote isValid castObjectId env userId id subId body w)
  ∧ ((updateVocab isValid castObjectId env userId id subId body w).1
     = error 400 "At least one of word or definition is required."
     ↔ word = None ∧ definition = None)
  ∧ ((updateNote isValid castObjectId env userId id subId body w).1
     = error 400 "At least one of title or content is required."
     ↔ title = None ∧ content = None)
  ∧ (∀ i o si k book,
       wf_World w →
       castObjectId id = Some i → castObjectId userId = Some o →
       castObjectId subId = Some si →
       db_read_fails env = false → db_write_fails env = false →
       list_find (λ b, Book._id b = i ∧ Book.owner b = o) (books w) = Some (k, book) →
       (∀ j vocab,
          list_find (λ v, Vocab._id v = si) (Book.vocabulary book) = Some (j, vocab) →
          ¬ (word = None ∧ definition = None) →
          ∃ updated w',
            updateVocab isValid castObjectId env userId id subId body w
            = (json (BVocab updated), w')
            ∧ (word = None → Vocab.word updated = Vocab.word vocab)
            ∧ (definition = None → Vocab.definition updated = Vocab.definition vocab)
            ∧ books w' !! k
              = Some (Book.set_vocabulary (<[j := updated]> (Book.vocabulary book)) book))
       ∧ (∀ j note,
            list_find (λ n, Note._id n = si) (Book.notes book) = Some (j, note) →
            ¬ (title = None ∧ content = None) →
            ∃ updated w',
              updateNote isValid castObjectId env userId id subId body w
              = (json (BNote updated), w')
              ∧ (title = None → Note.title updated = Note.title note)
              ∧ (content = None → Note.content updated = Note.content note)
              ∧ books w' !! k
                = Some (Book.set_notes (<[j := updated]> (Book.notes book)) book))).
Proof.
  intros Hid Hsid word definition title content. split_and!.
  - apply parseNonEmptyString_None.
  - intros body'. apply updateVocab_parsed.
  - intros body'. apply updateNote_parsed.
  - by apply updateVocab_at_least_one.
  - by apply updateNote_at_least_one.
  - intros i o si k book Hwf Hci Hco Hcs Hr Hw Hfind.
    pose proof Hfind as (Hk & _ & _)%list_find_Some.
    split.
    + intros j vocab Hvocab Hsome. eexists _, _. split.
      { by apply (updateVocab_found isValid castObjectId env userId id subId body w
                    i o si k j book vocab). }
      fold word definition. split_and!.
      * by intros ->.
      * by intros ->.
      * apply saved_lookup; [done|]. apply isModified_set_vocabulary.
    + intros j note Hnote Hsome. eexists _, _. split.
      { by apply (updateNote_found env userId id subId body w i o si k j book note). }
      fold title content. split_and!.
      * by intros ->.
      * by intros ->.
      * apply saved_lookup; [done|]. apply isModified_set_notes.
Qed.

End Absent.

(** ** Coercion of the page *)

Section Coercion.

Variable isValid : jsstring → bool.
Variable castObjectId : jsstring → option ObjectId.

(** C9: [PATCH /books/:id/progress] sees the page only through
    [Number(page)]: a value that coerces to [n] is handled exactly as the
    JSON number [n], so a non-negative integer passes the page check
    whatever the type it was sent in (the string "5" is 5, [true] is 1),
    and a value that coerces to a number that is not an integer is
    rejected with the validation error. *)
Theorem updateProgress_coerces_page (env : Env) (userId id : jsstring)
    (body body' : list (jsstring * JSValue)) (w : World) (n : Number) :
  ToNumber (getProp body (str "page")) = Normal n →
  getProp body' (str "page") = JNum n →
  updateProgress isValid castObjectId env userId id body w
  = updateProgress isValid castObjectId env userId id body' w
  ∧ (Number_isInteger n = true → Number_lt n pos_zero = false →
     (updateProgress isValid castObjectId env userId id body w).1
     ≠ error 400 "Page must be a non-negative integer.")
  ∧ (isValid id = true → Number_isInteger n = false →
     updateProgress isValid castObjectId env userId id body w
     = (error 400 "Page must be a non-negative integer.", w))
  ∧ ToNumber (JStr (str "5")) = Normal (Number_of_Z 5)
  ∧ ToNumber (JBool true) = Normal (Number_of_Z 1).
Proof.
  intros Hn Hn'. split_and!.
  - unfold updateProgress, parsePage. by rewrite Hn, Hn'.
  - intros Hint Hnonneg.
    unfold updateProgress, parsePage, try_catch, bind, when_send, lift, Book_findOne,
      Book_save, send, ret, throw.
    rewrite Hn, Hint. simpl. rewrite Hnonneg.
    repeat first [progress simpl | case_inner; simplify_eq/=]; done.
  - intros Hid Hint.
    unfold updateProgress, parsePage, try_catch, bind, when_send, lift.
    by rewrite Hid, Hn, Hint.
  - by vm_compute.
  - by vm_compute.
Qed.

End Coercion.

(** ** Upload *)

Lemma pageCount_not_integer (numpages : JSValue) :
  isInteger numpages = false → pageCount numpages = pos_zero.
Proof. destruct numpages; simpl; try done. by intros ->. Qed.

(** C3, counterexample: a PDF that passes the filter and the size limit
    is uploaded while everything else works, but the parser rejects;
    the answer is the 500 of the handler's [catch] and no Book is stored. *)
Lemma upload_fails_when_parser_rejects :
  let env := Sample.set_pdf Abrupt Sample.env in
  upload_single (Some Sample.pdfFile) = inr (Some Sample.pdfFile)
  ∧ pdf_numpages env = Abrupt
  ∧ uploadBook Sample.castObjectId env Sample.alice (Some Sample.pdfFile) [] Sample.world
    = (error 500 "Upload failed.", emit (Unlink (path Sample.pdfFile)) Sample.world)
  ∧ books (uploadBook Sample.castObjectId env Sample.alice (Some Sample.pdfFile) []
             Sample.world).2
    = books Sample.world.
Proof. by vm_compute. Qed.

Section Upload.

Variable castObjectId : jsstring → option ObjectId.

(** C3, amended: for an authenticated upload whose file passes the PDF
    filter, a parser that resolves without an integer page count does not
    fail the upload: when storage and persistence succeed the Book is
    created with [totalPages = 0].  A parser that rejects fails the
    upload with status 500, and neither a blob nor a Book is created. *)
Theorem upload_defaults_missing_page_count (env : Env) (userId : jsstring) (o : ObjectId)
    (file : File) (body : list (jsstring * JSValue)) (w : World) :
  upload_single (Some file) = inr (Some file) →
  castObjectId userId = Some o →
  fs_read_fails env = false →
  (∀ numpages secure_url public_id,
     pdf_numpages env = Normal numpages →
     isInteger numpages = false →
     cloud_upload env = Normal (secure_url, public_id) →
     nonEmpty (trim (uploadTitle body file)) = true →
     nonEmpty (trim secure_url) = true → nonEmpty (trim public_id) = true →
     db_write_fails env = false →
     fresh_id env ∉ (Book._id <$> books w) →
     ∃ newBook w',
       uploadBook castObjectId env userId (Some file) body w
       = (mkResponse 201 (BBook (Book.toJSON newBook)), w')
       ∧ Book.totalPages newBook = pos_zero
       ∧ Book.currentPage newBook = pos_zero
       ∧ Book.owner newBook = o
       ∧ books w' = books w ++ [newBook]
       ∧ blobs w' = public_id :: blobs w)
  ∧ (pdf_numpages env = Abrupt →
     uploadBook castObjectId env userId (Some file) body w
     = (error 500 "Upload failed.", emit (Unlink (path file)) w)).
Proof.
  intros Hfile Ho Hfs.
  unfold uploadBook, try_catch, bind, lift, cloudinary_upload, Book_create, send, ret, throw.
  rewrite Hfile, Hfs. split.
  - intros numpages url pid Hpdf Hint Hcloud Htitle Hurl Hpid Hw Hfresh.
    rewrite Hpdf, Hcloud, Ho, (pageCount_not_integer _ Hint). simpl.
    rewrite Htitle, Hurl, Hpid, Hw. simpl.
    rewrite decide_False by done. simpl.
    eexists _, _. split; [reflexivity|]. simpl. by split_and!.
  - intros Hpdf. by rewrite Hpdf.
Qed.

End Upload.

(** ** Deleting a book *)

Section Delete.

Variable isValid : jsstring → bool.
Variable castObjectId : jsstring → option ObjectId.

(** C4: [DELETE /books/:id] on a book found under its owner asks
    Cloudinary to destroy the blob first.  When that rejects, the answer
    is the 500 "Delete failed." and nothing has changed; the Book record
    is removed only after the blob was destroyed, and whenever the record
    is gone the log shows the destruction of the blob just before it. *)
Theorem deleteBook_blob_before_record (env : Env) (userId id : jsstring) (i o : ObjectId)
    (w : World) (k : nat) (book : Book.t) :
  wf_World w →
  isValid id = true → castObjectId id = Some i → castObjectId userId = Some o →
  db_read_fails env = false →
  list_find (λ b, Book._id b = i ∧ Book.owner b = o) (books w) = Some (k, book) →
  let destroyed :=
    emit (CloudDestroy (Book.cloudinaryId book))
      (set_blobs (filter (λ x, x ≠ Book.cloudinaryId book) (blobs w)) w) in
  (cloud_destroy_fails env = true →
   deleteBook isValid castObjectId env userId id w = (error 500 "Delete failed.", w))
  ∧ (cloud_destroy_fails env = false → db_write_fails env = true →
     deleteBook isValid castObjectId env userId id w
     = (error 500 "Delete failed.", destroyed))
  ∧ (cloud_destroy_fails env = false → db_write_fails env = false →
     deleteBook isValid castObjectId env userId id w
     = (json (BMessage "Book deleted."),
        emit (BookDelete i) (set_books (delete k (books w)) destroyed)))
  ∧ (books (deleteBook isValid castObjectId env userId id w).2 ≠ books w →
     cloud_destroy_fails env = false
     ∧ log (deleteBook isValid castObjectId env userId id w).2
       = log w ++ [CloudDestroy (Book.cloudinaryId book); BookDelete i]).
Proof.
  intros Hwf Hid Hci Hco Hr Hfind destroyed.
  assert (Hrun : deleteBook isValid castObjectId env userId id w
                 = if cloud_destroy_fails env then (error 500 "Delete failed.", w)
                   else if db_write_fails env then (error 500 "Delete failed.", destroyed)
                   else (json (BMessage "Book deleted."),
                         emit (BookDelete i) (set_books (delete k (books w)) destroyed))).
  { unfold deleteBook, try_catch, bind, when_send, Book_findOne, cloudinary_destroy,
      Book_findByIdAndDelete.
    rewrite Hid, Hci, Hco, Hr. simpl. rewrite Hfind. simpl.
    destruct (cloud_destroy_fails env); [done|]. simpl.
    destruct (db_write_fails env); [done|]. simpl.
    by rewrite (find_owned_by_id _ _ _ _ _ Hwf Hfind). }
  rewrite Hrun. split_and!.
  - by intros ->.
  - by intros -> ->.
  - by intros -> ->.
  - destruct (cloud_destroy_fails env); [done|].
    destruct (db_write_fails env); [done|].
    intros _. split; [done|]. simpl. by rewrite <-app_assoc.
Qed.

End Delete.

(** ** Login *)

Section Login.

Variable toLowerCase : jsstring → jsstring.
Variable bcrypt_compare : jsstring → jsstring → bool.
Variable jwt_sign : ObjectId → Z → jsstring.

(** C6: a login with an email nobody registered and a login with a
    registered email and a wrong password get the same response, the 400
    "Invalid login credentials.". *)
Theorem login_failures_identical (env : Env) (w : World)
    (body1 body2 : list (jsstring * JSValue))
    (email1 password1 email2 password2 : jsstring) (k : nat) (user : User.t) :
  getProp body1 (str "email") = JStr email1 →
  getProp body1 (str "password") = JStr password1 →
  getProp body2 (str "email") = JStr email2 →
  getProp body2 (str "password") = JStr password2 →
  db_read_fails env = false →
  list_find (λ u, User.email u = toLowerCase (trim email1)) (users w) = None →
  list_find (λ u, User.email u = toLowerCase (trim email2)) (users w) = Some (k, user) →
  bcrypt_compare password2 (User.password user) = false →
  login toLowerCase bcrypt_compare jwt_sign env body1 w
  = (error 400 "Invalid login credentials.", w)
  ∧ login toLowerCase bcrypt_compare jwt_sign env body2 w
    = (error 400 "Invalid login credentials.", w)
  ∧ (login toLowerCase bcrypt_compare jwt_sign env body1 w).1
    = (login toLowerCase bcrypt_compare jwt_sign env body2 w).1.
Proof.
  intros He1 Hp1 He2 Hp2 Hr Hnone Hsome Hwrong.
  assert (H1 : login toLowerCase bcrypt_compare jwt_sign env body1 w
               = (error 400 "Invalid login credentials.", w)).
  { unfold login, try_catch, bind, User_findOne. rewrite He1, Hp1, Hr. simpl.
    by rewrite Hnone. }
  assert (H2 : login toLowerCase bcrypt_compare jwt_sign env body2 w
               = (error 400 "Invalid login credentials.", w)).
  { unfold login, try_catch, bind, User_findOne. rewrite He2, Hp2, Hr. simpl.
    rewrite Hsome. simpl. by rewrite Hwrong. }
  by rewrite H1, H2.
Qed.

End Login.

(** ** White space and [trim] *)

Lemma trimStart_spec (s : jsstring) :
  ∃ l, s = l ++ trimStart s
       ∧ Forall (λ c, isWhiteSpace c = true) l
       ∧ ∀ c, head (trimStart s) = Some c → isWhiteSpace c = false.
Proof.
  induction s as [|a s (l & Hs & Hl & Hhead)]; simpl.
  - exists []. by split_and!.
  - destruct (isWhiteSpace a) eqn:Ha.
    + exists (a :: l). split_and!; [by rewrite Hs at 1|by constructor|done].
    + exists []. split_and!; [done|constructor|]. by intros c [= <-].
Qed.

Lemma trimStart_fixed (s : jsstring) :
  (∀ c, head s = Some c → isWhiteSpace c = false) → trimStart s = s.
Proof. destruct s as [|a s]; [done|]. simpl. intros H. by rewrite (H a). Qed.

Lemma head_rev {A} (l : list A) : head (rev l) = last l.
Proof.
  destruct l as [|a l _] using rev_ind; [done|].
  by rewrite rev_unit, last_snoc.
Qed.

Lemma last_rev {A} (l : list A) : last (rev l) = head l.
Proof. by rewrite <-head_rev, rev_involutive. Qed.

Lemma trimEnd_spec (s : jsstring) :
  ∃ r, s = trimEnd s ++ r
       ∧ Forall (λ c, isWhiteSpace c = true) r
       ∧ ∀ c, last (trimEnd s) = Some c → isWhiteSpace c = false.
Proof.
  unfold trimEnd. destruct (trimStart_spec (rev s)) as (l & Hs & Hl & Hhead).
  exists (rev l). split_and!.
  - by rewrite <-rev_app_distr, <-Hs, rev_involutive.
  - by apply Forall_rev.
  - intros c Hc. apply Hhead. by rewrite <-last_rev.
Qed.

(** [trim] removes white space at both ends and nothing else. *)
Lemma trim_spec (s : jsstring) :
  (∃ l r, s = l ++ trim s ++ r
          ∧ Forall (λ c, isWhiteSpace c = true) l
          ∧ Forall (λ c, isWhiteSpace c = true) r)
  ∧ (∀ c, head (trim s) = Some c → isWhiteSpace c = false)
  ∧ (∀ c, last (trim s) = Some c → isWhiteSpace c = false).
Proof.
  unfold trim.
  destruct (trimStart_spec s) as (l & Hs & Hl & Hhead).
  destruct (trimEnd_spec (trimStart s)) as (r & Ht & Hr & Hlast).
  split_and!.
  - exists l, r. split_and!; [|done..]. by rewrite <-Ht.
  - intros c Hc. apply Hhead. rewrite Ht.
    by destruct (trimEnd (trimStart s)).
  - done.
Qed.

Lemma trim_fixed (s : jsstring) :
  (∀ c, head s = Some c → isWhiteSpace c = false) →
  (∀ c, last s = Some c → isWhiteSpace c = false) →
  trim s = s.
Proof.
  intros Hhead Hlast. unfold trim, trimEnd.
  rewrite (trimStart_fixed s) by done.
  rewrite trimStart_fixed; [apply rev_involutive|].
  intros c. rewrite head_rev. apply Hlast.
Qed.

Lemma trim_idemp (s : jsstring) : trim (trim s) = trim s.
Proof. destruct (trim_spec s) as (_ & Hhead & Hlast). by apply trim_fixed. Qed.

Lemma trim_nil_whitespace (s : jsstring) :
  trim s = [] → Forall (λ c, isWhiteSpace c = true) s.
Proof.
  intros Hs. destruct (trim_spec s) as ((l & r & Heq & Hl & Hr) & _).
  rewrite Hs in Heq. rewrite Heq. simpl. by apply Forall_app.
Qed.

Lemma trimStart_whitespace (s : jsstring) :
  Forall (λ c, isWhiteSpace c = true) s → trimStart s = [].
Proof. induction 1 as [|c s Hc _ IH]; [done|]. simpl. by rewrite Hc. Qed.

Lemma trim_whitespace (s : jsstring) :
  Forall (λ c, isWhiteSpace c = true) s → trim s = [].
Proof. intros Hs. unfold trim. by rewrite trimStart_whitespace. Qed.

(** X1: [parseNonEmptyString] answers [null] for anything but a string
    with a character that is not white space; otherwise it returns that
    string without the white space at its two ends, which is not empty,
    neither starts nor ends with white space, and is returned as it is
    when it is parsed again. *)
Theorem parseNonEmptyString_spec (value : JSValue) :
  match parseNonEmptyString value with
  | None =>
      ∀ s, value = JStr s → Forall (λ c, isWhiteSpace c = true) s
  | Some parsed =>
      (∃ s l r, value = JStr s ∧ s = l ++ parsed ++ r
                ∧ Forall (λ c, isWhiteSpace c = true) l
                ∧ Forall (λ c, isWhiteSpace c = true) r)
      ∧ parsed ≠ []
      ∧ (∀ c, head parsed = Some c → isWhiteSpace c = false)
      ∧ (∀ c, last parsed = Some c → isWhiteSpace c = false)
      ∧ parseNonEmptyString (JStr parsed) = Some parsed
  end.
Proof.
  destruct value as [| | | |s| |]; simpl; try by intros ? [=].
  destruct (trim_spec s) as ((l & r & Heq & Hl & Hr) & Hhead & Hlast).
  destruct (nonEmpty (trim s)) eqn:Hne.
  - split_and!; [by exists s, l, r|by destruct (trim s)|done..|].
    by rewrite trim_idemp, Hne.
  - intros ? [= <-]. apply trim_nil_whitespace. by destruct (trim s).
Qed.

(** ** Regular expressions and the email pattern *)

Lemma nullable_matches (r : regex) : nullable r = true ↔ matches r [].
Proof.
  split.
  - induction r as [| |p|r1 IH1 r2 IH2|r1 IH1 r2 IH2|r IH]; simpl; intros H; try done.
    + constructor.
    + apply andb_prop in H as [H1 H2]. apply (matches_cat _ _ [] []); auto.
    + apply orb_prop in H as [H|H]; [apply matches_alt_l|apply matches_alt_r]; auto.
    + constructor.
  - intros H. remember ([] : jsstring) as s eqn:Hs.
    induction H as [|p c Hp|r1 r2 s1 s2 _ IH1 _ IH2|r1 r2 s _ IH|r1 r2 s _ IH|r|r s1 s2 _ _ _ _];
      simpl; try done.
    + apply app_eq_nil in Hs as [-> ->]. by rewrite IH1, IH2.
    + by rewrite IH.
    + rewrite IH by done. apply orb_true_r.
Qed.

Lemma deriv_matches (c : N) (r : regex) (s : jsstring) :
  matches (deriv c r) s ↔ matches r (c :: s).
Proof.
  split.
  - revert s.
    induction r as [| |p|r1 IH1 r2 IH2|r1 IH1 r2 IH2|r IH]; simpl; intros s H.
    + inversion H.
    + inversion H.
    + destruct (p c) eqn:Hp; inversion H; subst. by constructor.
    + destruct (nullable r1) eqn:Hn.
      * inversion H as [| | |? ? ? Hl|? ? ? Hr| |]; subst.
        -- inversion Hl; subst. apply (matches_cat _ _ (c :: _)); auto.
        -- apply (matches_cat _ _ []); [by apply nullable_matches|auto].
      * inversion H; subst. apply (matches_cat _ _ (c :: _)); auto.
    + inversion H; subst; [apply matches_alt_l|apply matches_alt_r]; auto.
    + inversion H; subst. apply (matches_star_cons _ (c :: _)); auto.
  - intros H. remember (c :: s) as s' eqn:Hs. revert s Hs.
    induction H as [|p c' Hp|r1 r2 s1 s2 H1 IH1 H2 IH2|r1 r2 s' _ IH|r1 r2 s' _ IH|r
                   |r s1 s2 H1 IH1 H2 IH2]; intros s Hs; simpl; try done.
    + injection Hs as -> <-. rewrite Hp. constructor.
    + destruct s1 as [|c1 s1]; simpl in Hs.
      * subst s2. apply nullable_matches in H1. rewrite H1.
        apply matches_alt_r; auto.
      * injection Hs as -> <-.
        destruct (nullable r1); [apply matches_alt_l|]; constructor; auto.
    + apply matches_alt_l; auto.
    + apply matches_alt_r; auto.
    + destruct s1 as [|c1 s1]; simpl in Hs.
      * by apply IH2.
      * injection Hs as -> <-. constructor; auto.
Qed.

(** The matcher decides the denotation. *)
Lemma test_matches (r : regex) (s : jsstring) : test r s = true ↔ matches r s.
Proof.
  unfold test. revert r. induction s as [|c s IH]; intros r; simpl.
  - apply nullable_matches.
  - rewrite IH. apply deriv_matches.
Qed.

Lemma matches_star_class (p : N → bool) (s : jsstring) :
  matches (Star (Class p)) s ↔ Forall (λ c, p c = true) s.
Proof.
  split.
  - intros H. remember (Star (Class p)) as r eqn:Hr.
    induction H as [| | | | | |r s1 s2 H1 _ _ IH2]; try done.
    injection Hr as ->. inversion H1; subst. constructor; auto.
  - induction 1 as [|c s Hc _ IH]; [constructor|].
    apply (matches_star_cons _ [c]); [by constructor|done].
Qed.

Lemma matches_plus_class (p : N → bool) (s : jsstring) :
  matches (Plus (Class p)) s ↔ s ≠ [] ∧ Forall (λ c, p c = true) s.
Proof.
  split.
  - intros H. inversion H as [| |? ? s1 s2 H1 H2| | | |]; subst.
    inversion H1; subst. apply matches_star_class in H2. split; [done|].
    by constructor.
  - intros [Hne Hall]. destruct Hall as [|c s Hc Hall]; [done|].
    apply (matches_cat _ _ [c]); [by constructor|by apply matches_star_class].
Qed.

Lemma matches_cat_inv (r1 r2 : regex) (s : jsstring) :
  matches (Cat r1 r2) s ↔ ∃ s1 s2, s = s1 ++ s2 ∧ matches r1 s1 ∧ matches r2 s2.
Proof.
  split.
  - intros H. inversion H; subst. eauto.
  - intros (s1 & s2 & -> & H1 & H2). by constructor.
Qed.

Lemma matches_char (x : N) (s : jsstring) : matches (Class (N.eqb x)) s ↔ s = [x].
Proof.
  split.
  - intros H. inversion H as [|? c Hc| | | | |]; subst. by apply N.eqb_eq in Hc as ->.
  - intros ->. constructor. apply N.eqb_refl.
Qed.

Lemma notSpaceOrAt_true (c : N) :
  notSpaceOrAt c = true ↔ isWhiteSpace c = false ∧ c ≠ 64%N.
Proof.
  unfold notSpaceOrAt. rewrite negb_true_iff, orb_false_iff, N.eqb_neq. done.
Qed.

Lemma matches_email_part (s : jsstring) :
  matches (Plus (Class notSpaceOrAt)) s ↔ email_part s.
Proof.
  rewrite matches_plus_class. unfold email_part.
  split; intros [Hne Hall]; (split; [done|]);
    eapply Forall_impl; try exact Hall; intros c; apply notSpaceOrAt_true.
Qed.

Lemma isValidEmail_parts (email : jsstring) :
  isValidEmail email = true →
  ∃ local name rest,
    email = local ++ [64%N] ++ name ++ [46%N] ++ rest
    ∧ email_part local ∧ email_part name ∧ email_part rest.
Proof.
  unfold isValidEmail, emailPattern. rewrite test_matches.
  intros (local & s1 & -> & Hl & (at_ & s2 & -> & Hat & (name & s3 & -> & Hn
          & (dot & rest & -> & Hdot & Hr)%matches_cat_inv)%matches_cat_inv)
          %matches_cat_inv)%matches_cat_inv.
  apply matches_char in Hat as ->. apply matches_char in Hdot as ->.
  exists local, name, rest. by rewrite <-!matches_email_part.
Qed.

(** X2: [isValidEmail] accepts exactly the strings of the form
    [local@name.rest] whose three parts are not empty and hold neither
    white space nor [@]. *)
Theorem isValidEmail_shape (email : jsstring) :
  isValidEmail email = true
  ↔ ∃ local name rest,
      email = local ++ [64%N] ++ name ++ [46%N] ++ rest
      ∧ email_part local ∧ email_part name ∧ email_part rest.
Proof.
  split; [apply isValidEmail_parts|].
  intros (local & name & rest & -> & Hl & Hn & Hr).
  unfold isValidEmail, emailPattern. rewrite test_matches.
  repeat (apply matches_cat; [by first [apply matches_email_part|apply matches_char]|]).
  by apply matches_email_part.
Qed.

Lemma count_occ_free (s : jsstring) (x : N) :
  Forall (λ c, c ≠ x) s → count_occ N.eq_dec s x = 0%nat.
Proof.
  induction 1 as [|c s Hc _ IH]; [done|]. simpl. by destruct (N.eq_dec c x).
Qed.

(** X3: an address [isValidEmail] accepts holds no white space and
    exactly one [@], which is not its first character and is followed,
    not immediately, by a dot that is not the last character; it has at
    least five code units. *)
Theorem isValidEmail_accepts (email : jsstring) :
  isValidEmail email = true →
  Forall (λ c, isWhiteSpace c = false) email
  ∧ count_occ N.eq_dec email 64%N = 1%nat
  ∧ (5 ≤ length email)%nat
  ∧ ∃ local name rest,
      email = local ++ 64%N :: name ++ 46%N :: rest
      ∧ local ≠ [] ∧ name ≠ [] ∧ rest ≠ [].
Proof.
  intros (local & name & rest & -> & [Hl1 Hl2] & [Hn1 Hn2] & [Hr1 Hr2])%isValidEmail_parts.
  split_and!.
  - rewrite !Forall_app. split_and!; try (eapply Forall_impl; [eassumption|]; by intros ? [??]).
    + by repeat constructor.
    + by repeat constructor.
  - rewrite !count_occ_app. simpl.
    rewrite !count_occ_free; [done|eapply Forall_impl; [eassumption|]; by intros ? [??]..].
  - rewrite !length_app. simpl.
    destruct local, name, rest; simpl; try done; lia.
  - by exists local, name, rest.
Qed.

(** ** Accounts *)

Lemma list_find_insert_same {A} (P : A → Prop) `{!∀ x, Decision (P x)}
    (l : list A) (k : nat) (x y : A) :
  list_find P l = Some (k, x) → P y → list_find P (<[k := y]> l) = Some (k, y).
Proof.
  intros (Hk & Hx & Hbefore)%list_find_Some Hy. apply list_find_Some. split_and!.
  - apply list_lookup_insert_eq. by eapply lookup_lt_Some.
  - done.
  - intros j z Hj Hlt. rewrite list_lookup_insert_ne in Hj by lia. eauto.
Qed.

Lemma list_find_app_new {A} (P : A → Prop) `{!∀ x, Decision (P x)}
    (l : list A) (y : A) :
  list_find P l = None → P y → list_find P (l ++ [y]) = Some (length l, y).
Proof.
  intros Hnone Hy. rewrite list_find_app_r by done. simpl.
  rewrite decide_True by done. simpl. repeat f_equal; lia.
Qed.

Section Signup.

Variable toLowerCase : jsstring → jsstring.
Variable bcrypt_compare : jsstring → jsstring → bool.
Variable bcrypt_hash : jsstring → N → jsstring.
Variable jwt_sign : ObjectId → Z → jsstring.

(** The two ways a signup ends. *)
Lemma signup_cases (env : Env) (salt : N) (body : list (jsstring * JSValue)) (w : World) :
  let '(r, w') := signup toLowerCase bcrypt_hash env salt body w in
  (r = mkResponse 201 (BMessage "User registered successfully!")
   ∧ ∃ email password,
       getProp body (str "email") = JStr email
       ∧ getProp body (str "password") = JStr password
       ∧ isValidEmail (toLowerCase (trim email)) = true
       ∧ (8 ≤ length password)%nat
       ∧ db_read_fails env = false
       ∧ list_find (λ u, User.email u = toLowerCase (trim email)) (users w) = None
       ∧ w' = set_users
                (users w ++ [User.mk (fresh_id env) (toLowerCase (trim email))
                               (bcrypt_hash password salt)]) w)
  ∨ ((status r = 400 ∨ status r = 409 ∨ status r = 500) ∧ w' = w).
Proof.
  unfold signup, try_catch, bind, when_send, User_findOne, User_create, send, ret, throw.
  destruct (getProp body (str "email")) as [| | | |email| |];
    try (right; split; [simpl; auto|done]).
  destruct (getProp body (str "password")) as [| | | |password| |];
    try (right; split; [simpl; auto|done]).
  destruct (isValidEmail _) eqn:Hvalid; simpl; [|right; split; [simpl; auto|done]].
  destruct (length password <? 8)%nat eqn:Hlen; simpl; [right; split; [simpl; auto|done]|].
  destruct (db_read_fails env) eqn:Hr; simpl; [right; split; [simpl; auto|done]|].
  destruct (list_find _ (users w)) as [[k u]|] eqn:Hfind; simpl;
    [right; split; [simpl; auto|done]|].
  destruct (db_write_fails env) eqn:Hw; simpl; [right; split; [simpl; auto|done]|].
  left. split; [done|]. exists email, password. split_and!; try done.
  apply Nat.ltb_ge in Hlen. lia.
Qed.

(** X4: a signup either answers 201 and appends one user, under the
    normalised address, which [isValidEmail] accepts and no user had, and
    with the hash of a password of at least eight code units; or it
    answers 400, 409 or 500 and changes nothing.  The books, the blobs
    and the users there were are never touched. *)
Theorem signup_outcomes (env : Env) (salt : N) (body : list (jsstring * JSValue))
    (w : World) :
  let '(r, w') := signup toLowerCase bcrypt_hash env salt body w in
  books w' = books w ∧ blobs w' = blobs w ∧ log w' = log w
  ∧ ((status r = 201
      ∧ ∃ email password,
          getProp body (str "email") = JStr email
          ∧ getProp body (str "password") = JStr password
          ∧ isValidEmail (toLowerCase (trim email)) = true
          ∧ (8 ≤ length password)%nat
          ∧ Forall (λ u, User.email u ≠ toLowerCase (trim email)) (users w)
          ∧ users w'
            = users w ++ [User.mk (fresh_id env) (toLowerCase (trim email))
                            (bcrypt_hash password salt)])
     ∨ ((status r = 400 ∨ status r = 409 ∨ status r = 500) ∧ w' = w)).
Proof.
  pose proof (signup_cases env salt body w) as H.
  destruct (signup _ _ _ _ _ _) as [r w'].
  destruct H as [(-> & email & password & He & Hp & Hvalid & Hlen & _ & Hnone & ->)
                | [Hs ->]].
  - split_and!; [done..|]. left. split; [done|]. exists email, password.
    split_and!; try done. by apply list_find_None in Hnone.
  - split_and!; [done..|]. by right.
Qed.

(** X5: signup keeps the addresses of the User collection distinct. *)
Theorem signup_keeps_emails_distinct (env : Env) (salt : N)
    (body : list (jsstring * JSValue)) (w : World) :
  NoDup (User.email <$> users w) →
  NoDup (User.email <$> users (signup toLowerCase bcrypt_hash env salt body w).2).
Proof.
  intros Hnd. pose proof (signup_cases env salt body w) as H.
  destruct (signup _ _ _ _ _ _) as [r w'].
  destruct H as [(_ & email & password & _ & _ & _ & _ & _ & Hnone & ->) | [_ ->]];
    [|done].
  simpl. rewrite fmap_app. apply NoDup_app. split_and!; [done| |apply NoDup_singleton].
  intros e (u & -> & Hu)%list_elem_of_fmap Hin.
  apply list_elem_of_singleton in Hin. simpl in Hin.
  rewrite list_find_None, Forall_forall in Hnone. by apply (Hnone u).
Qed.

(** X6: once a signup has succeeded, a later signup with an address
    that normalises to the same string (the same up to letter case and
    surrounding white space) never creates a second account, whatever
    else its body holds: it changes nothing and is answered 400 when the
    password is not a string or is shorter than 8 code units, and
    otherwise 409 "Email already in use." (500 when the lookup fails). *)
Theorem signup_same_email_conflict (env env' : Env) (salt salt' : N)
    (body body' : list (jsstring * JSValue)) (w : World) (email email' : jsstring) :
  status (signup toLowerCase bcrypt_hash env salt body w).1 = 201 →
  getProp body (str "email") = JStr email →
  getProp body' (str "email") = JStr email' →
  toLowerCase (trim email') = toLowerCase (trim email) →
  signup toLowerCase bcrypt_hash env' salt' body'
    (signup toLowerCase bcrypt_hash env salt body w).2
  = (match getProp body' (str "password") with
     | JStr password' =>
         if (length password' <? 8)%nat
         then error 400 "Password must be at least 8 characters long."
         else if db_read_fails env' then error 500 "Signup failed."
         else error 409 "Email already in use."
     | _ => error 400 "Email and password are required."
     end,
     (signup toLowerCase bcrypt_hash env salt body w).2).
Proof.
  intros Hstatus He He' Hsame.
  pose proof (signup_cases env salt body w) as H.
  destruct (signup _ _ _ _ _ w) as [r w'].
  destruct H as [(_ & email0 & password & He0 & _ & Hvalid & _ & _ & Hnone & ->) | [Hs _]].
  - rewrite He in He0. injection He0 as <-. simpl.
    unfold signup, try_catch, bind, when_send, User_findOne.
    rewrite He', Hsame, Hvalid. simpl.
    destruct (getProp body' (str "password")) as [| | | |password'| |]; try done.
    destruct (length password' <? 8)%nat; [done|]. simpl.
    destruct (db_read_fails env'); [done|]. simpl.
    by rewrite (list_find_app_new _ _ _ Hnone).
  - simpl in Hstatus. rewrite Hstatus in Hs. by destruct Hs as [?|[?|?]].
Qed.

(** X7: after a signup that succeeded, a login with the same body
    succeeds, for the user just created, whenever bcrypt recognises the
    password in the hash it made of it. *)
Theorem signup_then_login (env env' : Env) (salt : N) (body : list (jsstring * JSValue))
    (w : World) (password : jsstring) :
  status (signup toLowerCase bcrypt_hash env salt body w).1 = 201 →
  getProp body (str "password") = JStr password →
  bcrypt_compare password (bcrypt_hash password salt) = true →
  db_read_fails env' = false →
  login toLowerCase bcrypt_compare jwt_sign env' body
    (signup toLowerCase bcrypt_hash env salt body w).2
  = (json (BToken (jwt_sign (fresh_id env) (now env')) (fresh_id env)),
     (signup toLowerCase bcrypt_hash env salt body w).2).
Proof.
  intros Hstatus Hp Hcontract Hr.
  pose proof (signup_cases env salt body w) as H.
  destruct (signup _ _ _ _ _ w) as [r w'].
  destruct H as [(_ & email & password0 & He & Hp0 & _ & _ & _ & Hnone & ->) | [Hs _]].
  - rewrite Hp in Hp0. injection Hp0 as <-. simpl.
    unfold login, try_catch, bind, User_findOne. rewrite He, Hp, Hr. simpl.
    rewrite (list_find_app_new _ _ _ Hnone) by done. simpl. by rewrite Hcontract.
  - simpl in Hstatus. rewrite Hstatus in Hs. by destruct Hs as [?|[?|?]].
Qed.

End Signup.

Section ChangePassword.

Variable castObjectId : jsstring → option ObjectId.
Variable toLowerCase : jsstring → jsstring.
Variable bcrypt_compare : jsstring → jsstring → bool.
Variable bcrypt_hash : jsstring → N → jsstring.
Variable jwt_sign : ObjectId → Z → jsstring.

(** The two ways a change of password ends. *)
Lemma changePassword_cases (env : Env) (salt : N) (userId : jsstring)
    (body : list (jsstring * JSValue)) (w : World) :
  let '(r, w') := changePassword castObjectId bcrypt_compare bcrypt_hash env salt userId
                    body w in
  (r = json (BMessage "Password changed successfully.")
   ∧ ∃ oldPassword newPassword i k user,
       parseNonEmptyString (getProp body (str "oldPassword")) = Some oldPassword
       ∧ parseNonEmptyString (getProp body (str "newPassword")) = Some newPassword
       ∧ (8 ≤ length newPassword)%nat
       ∧ oldPassword ≠ newPassword
       ∧ castObjectId userId = Some i
       ∧ list_find (λ u, User._id u = i) (users w) = Some (k, user)
       ∧ bcrypt_compare oldPassword (User.password user) = true
       ∧ w' = set_users
                (<[k := set_password (bcrypt_hash newPassword salt) user]> (users w)) w)
  ∨ ((status r = 400 ∨ status r = 404 ∨ status r = 500) ∧ w' = w).
Proof.
  unfold changePassword, try_catch, bind, when_send, User_findById, User_save, send, ret,
    throw.
  destruct (parseNonEmptyString (getProp body (str "oldPassword"))) as [old|];
    [|right; split; [simpl; auto|done]].
  destruct (parseNonEmptyString (getProp body (str "newPassword"))) as [new|];
    [|right; split; [simpl; auto|done]].
  destruct (length new <? 8)%nat eqn:Hlen; simpl; [right; split; [simpl; auto|done]|].
  destruct (bool_decide (old = new)) eqn:Hneq; simpl; [right; split; [simpl; auto|done]|].
  destruct (castObjectId userId) as [i|] eqn:Hi; simpl; [|right; split; [simpl; auto|done]].
  destruct (db_read_fails env) eqn:Hr; simpl; [right; split; [simpl; auto|done]|].
  destruct (list_find _ (users w)) as [[k user]|] eqn:Hfind; simpl;
    [|right; split; [simpl; auto|done]].
  destruct (bcrypt_compare old (User.password user)) eqn:Hold; simpl;
    [|right; split; [simpl; auto|done]].
  destruct (db_write_fails env) eqn:Hw; simpl; [right; split; [simpl; auto|done]|].
  left. split; [done|]. exists old, new, i, k, user.
  pose proof Hfind as (_ & Hid & _)%list_find_Some.
  rewrite Hid, Hfind. split_and!; try done.
  - apply Nat.ltb_ge in Hlen. lia.
  - by apply bool_decide_eq_false in Hneq.
Qed.

(** X8: a change of password either answers 200 and replaces the hash
    of the one user whose id is [req.user.id], after bcrypt has
    recognised the trimmed old password in the stored hash, by the hash
    of the trimmed new password, which has at least eight code units and
    differs from the old one; or it answers 400, 404 or 500 and changes
    nothing.  No other user, no address, no id and no book is touched. *)
Theorem changePassword_outcomes (env : Env) (salt : N) (userId : jsstring)
    (body : list (jsstring * JSValue)) (w : World) :
  let '(r, w') := changePassword castObjectId bcrypt_compare bcrypt_hash env salt userId
                    body w in
  books w' = books w ∧ blobs w' = blobs w ∧ log w' = log w
  ∧ User._id <$> users w' = User._id <$> users w
  ∧ User.email <$> users w' = User.email <$> users w
  ∧ ((status r = 200
      ∧ ∃ oldPassword newPassword i k user,
          parseNonEmptyString (getProp body (str "oldPassword")) = Some oldPassword
          ∧ parseNonEmptyString (getProp body (str "newPassword")) = Some newPassword
          ∧ (8 ≤ length newPassword)%nat
          ∧ oldPassword ≠ newPassword
          ∧ castObjectId userId = Some i
          ∧ users w !! k = Some user ∧ User._id user = i
          ∧ bcrypt_compare oldPassword (User.password user) = true
          ∧ users w'
            = <[k := set_password (bcrypt_hash newPassword salt) user]> (users w))
     ∨ ((status r = 400 ∨ status r = 404 ∨ status r = 500) ∧ w' = w)).
Proof.
  pose proof (changePassword_cases env salt userId body w) as H.
  destruct (changePassword _ _ _ _ _ _ _ _) as [r w'].
  destruct H as [(-> & old & new & i & k & user & Hold & Hnew & Hlen & Hneq & Hi & Hfind
                  & Hcmp & ->) | [Hs ->]].
  - pose proof Hfind as (Hk & Hid & _)%list_find_Some. simpl.
    split_and!; try done.
    + rewrite list_fmap_insert. simpl. apply list_insert_id.
      by rewrite list_lookup_fmap, Hk.
    + rewrite list_fmap_insert. simpl. apply list_insert_id.
      by rewrite list_lookup_fmap, Hk.
    + left. split; [done|]. exists old, new, i, k, user. by split_and!.
  - split_and!; try done. by right.
Qed.

(** X9: after a change of password that succeeded, the user logs in
    with the new password as it is without the white space at its ends
    (the form in which it was hashed), whenever bcrypt recognises a
    password in the hash it made of it. *)
Theorem changePassword_then_login (env env' : Env) (salt : N) (userId : jsstring)
    (body loginBody : list (jsstring * JSValue)) (w : World)
    (i : ObjectId) (k : nat) (user : User.t) (newPassword email : jsstring) :
  status (changePassword castObjectId bcrypt_compare bcrypt_hash env salt userId body w).1
  = 200 →
  castObjectId userId = Some i →
  getProp body (str "newPassword") = JStr newPassword →
  list_find (λ u, User._id u = i) (users w) = Some (k, user) →
  getProp loginBody (str "email") = JStr email →
  getProp loginBody (str "password") = JStr (trim newPassword) →
  list_find (λ u, User.email u = toLowerCase (trim email)) (users w) = Some (k, user) →
  bcrypt_compare (trim newPassword) (bcrypt_hash (trim newPassword) salt) = true →
  db_read_fails env' = false →
  login toLowerCase bcrypt_compare jwt_sign env' loginBody
    (changePassword castObjectId bcrypt_compare bcrypt_hash env salt userId body w).2
  = (json (BToken (jwt_sign i (now env')) i),
     (changePassword castObjectId bcrypt_compare bcrypt_hash env salt userId body w).2).
Proof.
  intros Hstatus Hi Hnew Hfind He Hp Hmail Hcontract Hr.
  pose proof (changePassword_cases env salt userId body w) as H.
  destruct (changePassword _ _ _ _ _ _ _ _) as [r w'].
  destruct H as [(_ & old & new & i' & k' & user' & _ & Hnew' & _ & _ & Hi' & Hfind'
                  & _ & ->) | [Hs _]].
  - rewrite Hi in Hi'. injection Hi' as <-.
    rewrite Hfind in Hfind'. injection Hfind' as <- <-.
    rewrite Hnew in Hnew'. simpl in Hnew'.
    destruct (nonEmpty (trim newPassword)); [|done]. injection Hnew' as <-.
    simpl. unfold login, try_catch, bind, User_findOne. rewrite He, Hp, Hr. simpl.
    pose proof Hmail as (_ & Hemail & _)%list_find_Some.
    rewrite (list_find_insert_same _ _ _ _ _ Hmail) by done. simpl.
    rewrite Hcontract.
    by pose proof Hfind as (_ & -> & _)%list_find_Some.
  - simpl in Hstatus. rewrite Hstatus in Hs. by destruct Hs as [?|[?|?]].
Qed.

End ChangePassword.

(** ** The [auth] middleware *)

Lemma startsWith_spec (s prefix : jsstring) :
  startsWith s prefix = true ↔ ∃ rest, s = prefix ++ rest.
Proof.
  unfold startsWith. rewrite bool_decide_eq_true. split.
  - intros H. exists (drop (length prefix) s). by rewrite <-H at 1; rewrite take_drop.
  - intros [rest ->]. apply take_app_length.
Qed.

Section AuthProperties.

Variable NumberToString : Number → jsstring.
Variable jwt_verify : jsstring → Z → completion JSValue.

(** The ways [auth] ends. *)
Lemma auth_cases (now : Z) (authHeader : option jsstring) :
  (auth NumberToString jwt_verify now authHeader = inl (error 401 "Please authenticate.")
   ∧ ∀ rest, authHeader = Some (str "Bearer " ++ rest) →
             Forall (λ c, isWhiteSpace c = true) rest)
  ∨ ∃ rest, authHeader = Some (str "Bearer " ++ rest)
      ∧ nonEmpty (trim rest) = true
      ∧ ((auth NumberToString jwt_verify now authHeader = inl (error 401 "Invalid token.")
          ∧ ∀ decoded, jwt_verify (trim rest) now = Normal decoded →
              ToBoolean (decoded_id decoded) = false
              ∨ toStringThrows (decoded_id decoded) = true)
         ∨ ∃ decoded,
             jwt_verify (trim rest) now = Normal decoded
             ∧ ToBoolean (decoded_id decoded) = true
             ∧ toStringThrows (decoded_id decoded) = false
             ∧ auth NumberToString jwt_verify now authHeader
               = inr (ToString NumberToString (decoded_id decoded))).
Proof.
  unfold auth. destruct authHeader as [h|]; [|left; split; [done|by intros ? [=]]].
  destruct (nonEmpty h) eqn:Hne; simpl.
  2: { left. split; [done|]. intros rest [= ->]. done. }
  destruct (startsWith h (str "Bearer ")) eqn:Hpre; simpl.
  2: { left. split; [done|]. intros rest [= ->].
       apply not_true_iff_false in Hpre. destruct Hpre.
       apply startsWith_spec. by exists rest. }
  apply startsWith_spec in Hpre as [rest ->].
  change (drop 7 (str "Bearer " ++ rest)) with rest.
  destruct (nonEmpty (trim rest)) eqn:Htok; simpl.
  2: { left. split; [done|]. intros rest' [= <-].
       apply trim_nil_whitespace. by destruct (trim rest). }
  right. exists rest. split_and!; [done..|].
  destruct (jwt_verify (trim rest) now) as [decoded|] eqn:Hverify.
  2: { left. split; [done|]. by intros ? [=]. }
  destruct (ToBoolean (decoded_id decoded)) eqn:Hid; simpl.
  2: { left. split; [done|]. intros ? [= <-]. by left. }
  destruct (toStringThrows (decoded_id decoded)) eqn:Hthrow.
  { left. split; [done|]. intros ? [= <-]. by right. }
  right. by exists decoded.
Qed.

(** X10: [auth] answers 401 "Please authenticate." exactly when the
    [Authorization] header is missing, does not start with "Bearer ", or
    holds nothing but white space after it. *)
Theorem auth_please_authenticate (now : Z) (authHeader : option jsstring) :
  auth NumberToString jwt_verify now authHeader = inl (error 401 "Please authenticate.")
  ↔ ∀ rest, authHeader = Some (str "Bearer " ++ rest) →
            Forall (λ c, isWhiteSpace c = true) rest.
Proof.
  destruct (auth_cases now authHeader)
    as [[H Hws] | (rest & -> & Htok & [[H _] | (decoded & _ & _ & _ & H)])];
    rewrite H.
  - done.
  - split; [done|]. intros Hws. specialize (Hws rest eq_refl).
    apply trim_whitespace in Hws. by rewrite Hws in Htok.
  - split; [done|]. intros Hws. specialize (Hws rest eq_refl).
    apply trim_whitespace in Hws. by rewrite Hws in Htok.
Qed.

(** X11: a route behind [auth] runs its handler only for a request
    whose [Authorization] header is "Bearer " followed by a token that
    [jwt.verify] accepts and whose payload holds a truthy [id]; the
    handler then gets [String(id)] as [req.user.id].  Every other request
    is answered 401 and changes nothing. *)
Theorem protected_gate (now : Z) (authHeader : option jsstring)
    (handler : jsstring → World → Response * World) (w : World) :
  let '(r, w') := protected NumberToString jwt_verify now authHeader handler w in
  (status r = 401 ∧ w' = w
   ∧ (body r = BError "Please authenticate." ∨ body r = BError "Invalid token."))
  ∨ ∃ rest decoded,
      authHeader = Some (str "Bearer " ++ rest)
      ∧ jwt_verify (trim rest) now = Normal decoded
      ∧ ToBoolean (decoded_id decoded) = true
      ∧ (r, w') = handler (ToString NumberToString (decoded_id decoded)) w.
Proof.
  unfold protected.
  destruct (auth_cases now authHeader)
    as [[H _] | (rest & -> & _ & [[H _] | (decoded & Hverify & Hid & _ & H)])];
    rewrite H.
  - left. split_and!; [done..|by left].
  - left. split_and!; [done..|by right].
  - destruct (handler _ w) as [r w'] eqn:Hrun. right. by exists rest, decoded.
Qed.

End AuthProperties.

(** ** Starting the server *)

Lemma filter_sublist {A} (f : A → bool) (l : list A) : sublist (List.filter f l) l.
Proof.
  induction l as [|a l IH]; simpl; [constructor|].
  destruct (f a); by constructor.
Qed.

Lemma unset_false (process_env : ProcessEnv) (key : string) :
  unset process_env key = false ↔ ∃ c s, process_env key = Some (c :: s).
Proof.
  unfold unset. destruct (process_env key) as [[|c s]|]; split; try done; eauto;
    by intros (? & ? & [=]).
Qed.

Lemma ensureRequiredEnvVars_inr (process_env : ProcessEnv) :
  (∃ u, ensureRequiredEnvVars process_env = inr u)
  ↔ ∀ key, In key REQUIRED_ENV_VARS → ∃ c s, process_env key = Some (c :: s).
Proof.
  unfold ensureRequiredEnvVars.
  destruct (List.filter (unset process_env) REQUIRED_ENV_VARS) as [|k missing] eqn:E; simpl.
  - split; [|eauto]. intros _ key Hkey. apply unset_false.
    destruct (unset process_env key) eqn:Hu; [|done].
    assert (In key []) as []. rewrite <-E. by apply filter_In.
  - split; [by intros [? [=]]|]. intros Hall.
    assert (In k (List.filter (unset process_env) REQUIRED_ENV_VARS)) as [Hk Hu]%filter_In
      by (rewrite E; by left).
    apply Hall, unset_false in Hk. congruence.
Qed.

(** X12: [ensureRequiredEnvVars] returns when each of the five
    variables is set to a string that is not empty; otherwise it throws
    an error whose message lists, in the order of [REQUIRED_ENV_VARS] and
    separated by ", ", exactly the variables that are not. *)
Theorem ensureRequiredEnvVars_spec (process_env : ProcessEnv) :
  match ensureRequiredEnvVars process_env with
  | inr _ =>
      ∀ key, In key REQUIRED_ENV_VARS → ∃ c s, process_env key = Some (c :: s)
  | inl message =>
      ∃ missing,
        missing ≠ []
        ∧ message
          = ("Missing required environment variables: " ++ String.concat ", " missing)%string
        ∧ sublist missing REQUIRED_ENV_VARS
        ∧ ∀ key, In key missing
                 ↔ In key REQUIRED_ENV_VARS ∧ ¬ ∃ c s, process_env key = Some (c :: s)
  end.
Proof.
  destruct (ensureRequiredEnvVars process_env) as [message|u] eqn:E.
  - unfold ensureRequiredEnvVars in E.
    exists (List.filter (unset process_env) REQUIRED_ENV_VARS).
    destruct (List.filter (unset process_env) REQUIRED_ENV_VARS) as [|k missing] eqn:Hm;
      [done|].
    simpl in E. injection E as <-. split_and!; [done|done|..].
    + rewrite <-Hm. apply filter_sublist.
    + intros key. rewrite <-Hm, filter_In, <-unset_false.
      by destruct (unset process_env key); intuition.
  - apply ensureRequiredEnvVars_inr. eauto.
Qed.

(** X13: the server starts to listen only when the five variables are
    set and the connection to Mongo succeeded; in every other case the
    last thing the process does is exit with code 1, and Mongo is not
    even contacted when a variable is missing. *)
Theorem startServer_listens (process_env : ProcessEnv) (connect : option string) :
  let ready :=
    (∀ key, In key REQUIRED_ENV_VARS → ∃ c s, process_env key = Some (c :: s))
    ∧ connect = None in
  ((∃ port, In (Listen port) (startServer process_env connect)) ↔ ready)
  ∧ (¬ ready → last (startServer process_env connect) = Some (ProcessExit 1))
  ∧ ((∃ uri, In (MongoConnect uri) (startServer process_env connect))
     ↔ ∀ key, In key REQUIRED_ENV_VARS → ∃ c s, process_env key = Some (c :: s)).
Proof.
  intros ready. subst ready.
  pose proof (ensureRequiredEnvVars_inr process_env) as Henv.
  unfold startServer.
  destruct (ensureRequiredEnvVars process_env) as [message|u].
  - assert (Hno : ¬ ∀ key, In key REQUIRED_ENV_VARS → ∃ c s, process_env key = Some (c :: s)).
    { rewrite <-Henv. by intros [? [=]]. }
    split_and!.
    + split; [|tauto]. intros [port [[=]|[[=]|[]]]].
    + done.
    + split; [|tauto]. intros [uri [[=]|[[=]|[]]]].
  - assert (Hall : ∀ key, In key REQUIRED_ENV_VARS → ∃ c s, process_env key = Some (c :: s)).
    { apply Henv. eauto. }
    destruct connect as [message|]; split_and!.
    + split; [|by intros [_ [=]]]. intros [port [[=]|[[=]|[[=]|[]]]]].
    + done.
    + split; [done|]. intros _. eexists. by left.
    + split; [done|]. intros _. eexists. right. right. by left.
    + tauto.
    + split; [done|]. intros _. eexists. by left.
Qed.

(** ** Reading the collection *)

#[local] Instance not_older_total : Total not_older.
Proof. intros a b. unfold not_older. lia. Qed.

#[local] Instance not_older_trans : Transitive not_older.
Proof. intros a b c. unfold not_older. lia. Qed.

Section Reading.

Variable isValid : jsstring → bool.
Variable castObjectId : jsstring → option ObjectId.
Variable toLowerCase : jsstring → jsstring.
Variable bcrypt_compare : jsstring → jsstring → bool.
Variable jwt_sign : ObjectId → Z → jsstring.

(** X14: [GET /books] answers with exactly the books of the user, each
    with its percentage, the newest first. *)
Theorem listBooks_newest_first (env : Env) (userId : jsstring) (o : ObjectId) (w : World) :
  castObjectId userId = Some o → db_read_fails env = false →
  ∃ bs,
    listBooks castObjectId env userId w = (json (BBooks (Book.toJSON <$> bs)), w)
    ∧ bs ≡ₚ filter (λ b, Book.owner b = o) (books w)
    ∧ StronglySorted (λ a b, Book.createdAt b ≤ Book.createdAt a) bs
    ∧ Forall (λ j, Book.percent j = Book.progressPercentage (Book.doc j))
        (Book.toJSON <$> bs).
Proof.
  intros Ho Hr. exists (newest_first (filter (λ b, Book.owner b = o) (books w))).
  split_and!.
  - unfold listBooks, try_catch, bind, Book_find. by rewrite Ho, Hr.
  - apply merge_sort_Permutation.
  - apply (StronglySorted_merge_sort not_older).
  - apply Forall_fmap, Forall_true. done.
Qed.

(** X15: the handlers that read ([GET /books], [GET /books/:id/notes],
    [POST /auth/login]) leave the world as it is, whatever they are sent
    and whatever fails. *)
Theorem reads_change_nothing (env : Env) (userId id : jsstring)
    (body : list (jsstring * JSValue)) (w : World) :
  (listBooks castObjectId env userId w).2 = w
  ∧ (getNotes isValid castObjectId env userId id w).2 = w
  ∧ (login toLowerCase bcrypt_compare jwt_sign env body w).2 = w.
Proof.
  split_and!;
    unfold listBooks, getNotes, login, try_catch, bind, when_send, Book_find, Book_findOne,
      User_findOne, send, ret, throw;
    repeat first [progress simpl | case_inner; simplify_eq/=]; done.
Qed.

End Reading.

(** ** Notes and vocabulary: what was written is what is read *)

Lemma find_absent_after_filter {A} (f : A → ObjectId) (l : list A) (i : ObjectId) :
  list_find (λ x, f x = i) (filter (λ x, f x ≠ i) l) = None.
Proof.
  apply list_find_None, Forall_forall. intros x [Hx _]%list_elem_of_filter. done.
Qed.

Lemma saved_find (i o : ObjectId) (k : nat) (loaded b : Book.t) (w : World) :
  list_find (λ x, Book._id x = i ∧ Book.owner x = o) (books w) = Some (k, loaded) →
  Book._id b = Book._id loaded → Book.owner b = Book.owner loaded →
  (isModified loaded b = false → b = loaded) →
  list_find (λ x, Book._id x = i ∧ Book.owner x = o) (books (saved k loaded b w))
  = Some (k, b).
Proof.
  intros Hfind Hid Hown Hsame. unfold saved. destruct (isModified loaded b).
  - simpl. apply (list_find_insert_same _ _ _ loaded); [done|].
    apply list_find_Some in Hfind as (_ & [? ?] & _). split; congruence.
  - by rewrite Hsame.
Qed.

(** [x === y]: the same number, or two zeros. *)
Lemma Number_eq_cases (x y : Number) :
  Number_eq x y = true → x = y ∨ ∃ s s', x = S754_zero s ∧ y = S754_zero s'.
Proof.
  unfold Number_eq, SFeqb.
  destruct x as [s|[]| |s m e], y as [s'|[]| |s' m' e']; simpl;
    try done; try (by destruct s); try (by destruct s'); try (by left).
  - intros _. right. by exists s, s'.
  - intros H. left.
    change (Pos.compare_cont Eq m m') with (m ?= m')%positive in H.
    destruct s, s'; try done;
      destruct (e ?= e')%Z eqn:E; try done; apply Z.compare_eq in E; subst e';
      destruct (m ?= m')%positive eqn:E'; try done;
      apply Pos.compare_eq in E'; by subst.
Qed.

(** The percentage of a book at a zero page is a zero, or NaN when the
    page count is NaN, whichever the sign of the zero. *)
Lemma progressPercentage_zero_page (s s' : bool) (book : Book.t) :
  let p := Book.progressPercentage (Book.set_currentPage (S754_zero s) book) in
  let p' := Book.progressPercentage (Book.set_currentPage (S754_zero s') book) in
  p = p' ∨ Number_eq p p' = true.
Proof.
  unfold Book.progressPercentage. simpl.
  destruct (Book.totalPages book) as [[]|[]| |[] m e], s, s'; vm_compute; auto.
Qed.

Section Subdocuments.

Variable isValid : jsstring → bool.
Variable castObjectId : jsstring → option ObjectId.

Lemma getNotes_found (env : Env) (userId id : jsstring) (w : World) (i o : ObjectId)
    (k : nat) (book : Book.t) :
  isValid id = true → castObjectId id = Some i → castObjectId userId = Some o →
  db_read_fails env = false →
  list_find (λ b, Book._id b = i ∧ Book.owner b = o) (books w) = Some (k, book) →
  getNotes isValid castObjectId env userId id w = (json (BNotes (Book.notes book)), w).
Proof.
  intros Hid Hci Hco Hr Hfind.
  unfold getNotes, try_catch, bind, when_send, Book_findOne.
  rewrite Hid, Hci, Hco, Hr. simpl. by rewrite Hfind.
Qed.

Lemma addNote_found (env : Env) (userId id : jsstring) (body : list (jsstring * JSValue))
    (w : World) (i o : ObjectId) (k : nat) (book : Book.t) (title content : jsstring) :
  wf_World w →
  isValid id = true → castObjectId id = Some i → castObjectId userId = Some o →
  db_read_fails env = false → db_write_fails env = false →
  parseNonEmptyString (getProp body (str "title")) = Some title →
  parseNonEmptyString (getProp body (str "content")) = Some content →
  list_find (λ b, Book._id b = i ∧ Book.owner b = o) (books w) = Some (k, book) →
  let note := Note.mk (fresh_id env) title content (now env) in
  addNote isValid castObjectId env userId id body w
  = (mkResponse 201 (BNote note),
     emit (BookUpdate i)
       (set_books (<[k := Book.set_notes (Book.notes book ++ [note]) book]> (books w)) w)).
Proof.
  intros Hwf Hid Hci Hco Hr Hw Ht Hc Hfind note.
  unfold addNote, try_catch, bind, when_send, Book_findOne.
  rewrite Hid, Ht, Hc, Hci, Hco, Hr. simpl. rewrite Hfind. simpl.
  rewrite (Book_save_found env book _ w i o k); [|done..|by right].
  unfold saved. rewrite isModified_true_notes by apply app_singleton_neq.
  by apply list_find_Some in Hfind as (_ & [<- _] & _).
Qed.

Lemma deleteNote_found (env : Env) (userId id noteId : jsstring) (w : World)
    (i o ni : ObjectId) (k j : nat) (book : Book.t) (note : Note.t) :
  wf_World w →
  isValid id = true → isValid noteId = true →
  castObjectId id = Some i → castObjectId userId = Some o → castObjectId noteId = Some ni →
  db_read_fails env = false → db_write_fails env = false →
  list_find (λ b, Book._id b = i ∧ Book.owner b = o) (books w) = Some (k, book) →
  list_find (λ n, Note._id n = ni) (Book.notes book) = Some (j, note) →
  deleteNote isValid castObjectId env userId id noteId w
  = (json (BMessage "Note deleted."),
     emit (BookUpdate i)
       (set_books
          (<[k := Book.set_notes (filter (λ n, Note._id n ≠ ni) (Book.notes book)) book]>
             (books w)) w)).
Proof.
  intros Hwf Hid Hnid Hci Hco Hcn Hr Hw Hfind Hnote.
  unfold deleteNote, try_catch, bind, when_send, Book_findOne, notes_id.
  rewrite Hid, Hnid, Hci, Hco, Hcn, Hr. simpl. rewrite Hfind. simpl.
  rewrite Hnote. simpl.
  rewrite (Book_save_found env book _ w i o k); [|done..|by right].
  pose proof Hnote as (Hj & Hni & _)%list_find_Some.
  unfold saved. rewrite isModified_true_notes by apply (filter_out_neq Note._id _ j note Hj).
  rewrite Hni. by apply list_find_Some in Hfind as (_ & [<- _] & _).
Qed.

Lemma deleteVocab_found (env : Env) (userId id vocabId : jsstring) (w : World)
    (i o vi : ObjectId) (k j : nat) (book : Book.t) (vocab : Vocab.t) :
  wf_World w →
  isValid id = true → isValid vocabId = true →
  castObjectId id = Some i → castObjectId userId = Some o → castObjectId vocabId = Some vi →
  db_read_fails env = false → db_write_fails env = false →
  list_find (λ b, Book._id b = i ∧ Book.owner b = o) (books w) = Some (k, book) →
  list_find (λ v, Vocab._id v = vi) (Book.vocabulary book) = Some (j, vocab) →
  deleteVocab isValid castObjectId env userId id vocabId w
  = (json (BMessage "Vocab deleted."),
     emit (BookUpdate i)
       (set_books
          (<[k := Book.set_vocabulary
                    (filter (λ v, Vocab._id v ≠ vi) (Book.vocabulary book)) book]>
             (books w)) w)).
Proof.
  intros Hwf Hid Hvid Hci Hco Hcv Hr Hw Hfind Hvocab.
  unfold deleteVocab, try_catch, bind, when_send, Book_findOne, vocabulary_id.
  rewrite Hid, Hvid, Hci, Hco, Hcv, Hr. simpl. rewrite Hfind. simpl.
  rewrite Hvocab. simpl.
  rewrite (Book_save_found env book _ w i o k); [|done..|by right].
  pose proof Hvocab as (Hj & Hvi & _)%list_find_Some.
  unfold saved.
  rewrite isModified_true_vocabulary by apply (filter_out_neq Vocab._id _ j vocab Hj).
  rewrite Hvi. by apply list_find_Some in Hfind as (_ & [<- _] & _).
Qed.

(** X16: a note added to a book of the user is answered with status
    201, carries the trimmed title and content, and is the last of the
    notes the next [GET /books/:id/notes] returns, after the notes the
    book had. *)
Theorem addNote_then_getNotes (env env' : Env) (userId id : jsstring)
    (body : list (jsstring * JSValue)) (w : World) (i o : ObjectId) (k : nat)
    (book : Book.t) (title content : jsstring) :
  wf_World w →
  isValid id = true → castObjectId id = Some i → castObjectId userId = Some o →
  db_read_fails env = false → db_write_fails env = false → db_read_fails env' = false →
  parseNonEmptyString (getProp body (str "title")) = Some title →
  parseNonEmptyString (getProp body (str "content")) = Some content →
  list_find (λ b, Book._id b = i ∧ Book.owner b = o) (books w) = Some (k, book) →
  let note := Note.mk (fresh_id env) title content (now env) in
  let w' := (addNote isValid castObjectId env userId id body w).2 in
  (addNote isValid castObjectId env userId id body w).1 = mkResponse 201 (BNote note)
  ∧ getNotes isValid castObjectId env' userId id w'
    = (json (BNotes (Book.notes book ++ [note])), w').
Proof.
  intros Hwf Hid Hci Hco Hr Hw Hr' Ht Hc Hfind note w'. subst w'.
  rewrite (addNote_found env userId id body w i o k book title content) by done.
  split; [done|]. simpl.
  apply (getNotes_found env' userId id _ i o k
           (Book.set_notes (Book.notes book ++ [note]) book)); try done. simpl.
  apply (list_find_insert_same _ _ _ book); [done|].
  by apply list_find_Some in Hfind as (_ & [? ?] & _).
Qed.

(** X17: after a note was deleted, the notes of the book are the
    other notes, in the order they had, and a second request to delete
    the same note is answered 404 "Note not found." and changes nothing. *)
Theorem deleteNote_then_gone (env env' : Env) (userId id noteId : jsstring) (w : World)
    (i o ni : ObjectId) (k j : nat) (book : Book.t) (note : Note.t) :
  wf_World w →
  isValid id = true → isValid noteId = true →
  castObjectId id = Some i → castObjectId userId = Some o → castObjectId noteId = Some ni →
  db_read_fails env = false → db_write_fails env = false → db_read_fails env' = false →
  list_find (λ b, Book._id b = i ∧ Book.owner b = o) (books w) = Some (k, book) →
  list_find (λ n, Note._id n = ni) (Book.notes book) = Some (j, note) →
  let w' := (deleteNote isValid castObjectId env userId id noteId w).2 in
  (deleteNote isValid castObjectId env userId id noteId w).1
  = json (BMessage "Note deleted.")
  ∧ getNotes isValid castObjectId env' userId id w'
    = (json (BNotes (filter (λ n, Note._id n ≠ ni) (Book.notes book))), w')
  ∧ deleteNote isValid castObjectId env' userId id noteId w'
    = (error 404 "Note not found.", w').
Proof.
  intros Hwf Hid Hnid Hci Hco Hcn Hr Hw Hr' Hfind Hnote w'. subst w'.
  rewrite (deleteNote_found env userId id noteId w i o ni k j book note) by done.
  assert (Hfind' :
    list_find (λ b, Book._id b = i ∧ Book.owner b = o)
      (<[k := Book.set_notes (filter (λ n, Note._id n ≠ ni) (Book.notes book)) book]>
         (books w))
    = Some (k, Book.set_notes (filter (λ n, Note._id n ≠ ni) (Book.notes book)) book)).
  { apply (list_find_insert_same _ _ _ book); [done|].
    by apply list_find_Some in Hfind as (_ & [? ?] & _). }
  simpl. split_and!; [done| |].
  - by apply (getNotes_found env' userId id _ i o k
                (Book.set_notes (filter (λ n, Note._id n ≠ ni) (Book.notes book)) book)).
  - unfold deleteNote, try_catch, bind, when_send, Book_findOne, notes_id. simpl.
    rewrite Hid, Hnid, Hci, Hco, Hcn, Hr'. simpl. rewrite Hfind'. simpl.
    by rewrite (find_absent_after_filter Note._id).
Qed.

(** X18: after a vocabulary entry was deleted, a second request to
    delete it is answered 404 "Vocab not found.", and so is every request
    to update it whose body holds a usable word or definition; an update
    with neither is answered 400 "At least one of word or definition is
    required.", as for an entry that exists.  None of these requests
    changes anything. *)
Theorem deleteVocab_then_gone (env env' : Env) (userId id vocabId : jsstring)
    (body : list (jsstring * JSValue)) (w : World)
    (i o vi : ObjectId) (k j : nat) (book : Book.t) (vocab : Vocab.t) :
  wf_World w →
  isValid id = true → isValid vocabId = true →
  castObjectId id = Some i → castObjectId userId = Some o → castObjectId vocabId = Some vi →
  db_read_fails env = false → db_write_fails env = false → db_read_fails env' = false →
  list_find (λ b, Book._id b = i ∧ Book.owner b = o) (books w) = Some (k, book) →
  list_find (λ v, Vocab._id v = vi) (Book.vocabulary book) = Some (j, vocab) →
  let w' := (deleteVocab isValid castObjectId env userId id vocabId w).2 in
  (deleteVocab isValid castObjectId env userId id vocabId w).1
  = json (BMessage "Vocab deleted.")
  ∧ deleteVocab isValid castObjectId env' userId id vocabId w'
    = (error 404 "Vocab not found.", w')
  ∧ updateVocab isValid castObjectId env' userId id vocabId body w'
    = (match parseNonEmptyString (getProp body (str "word")),
             parseNonEmptyString (getProp body (str "definition")) with
       | None, None => error 400 "At least one of word or definition is required."
       | _, _ => error 404 "Vocab not found."
       end, w').
Proof.
  intros Hwf Hid Hvid Hci Hco Hcv Hr Hw Hr' Hfind Hvocab w'. subst w'.
  rewrite (deleteVocab_found env userId id vocabId w i o vi k j book vocab) by done.
  assert (Hfind' :
    list_find (λ b, Book._id b = i ∧ Book.owner b = o)
      (<[k := Book.set_vocabulary
                (filter (λ v, Vocab._id v ≠ vi) (Book.vocabulary book)) book]> (books w))
    = Some (k, Book.set_vocabulary
                 (filter (λ v, Vocab._id v ≠ vi) (Book.vocabulary book)) book)).
  { apply (list_find_insert_same _ _ _ book); [done|].
    by apply list_find_Some in Hfind as (_ & [? ?] & _). }
  simpl. split_and!; [done| |].
  - unfold deleteVocab, try_catch, bind, when_send, Book_findOne, vocabulary_id. simpl.
    rewrite Hid, Hvid, Hci, Hco, Hcv, Hr'. simpl. rewrite Hfind'. simpl.
    by rewrite (find_absent_after_filter Vocab._id).
  - unfold updateVocab, try_catch, bind, when_send, Book_findOne, vocabulary_id. simpl.
    rewrite Hid, Hvid, Hci, Hco, Hcv, Hr'. simpl.
    destruct (parseNonEmptyString (getProp body (str "word"))),
      (parseNonEmptyString (getProp body (str "definition"))); simpl; try done;
      rewrite Hfind'; simpl; by rewrite (find_absent_after_filter Vocab._id).
Qed.

(** X19: a vocabulary entry added to a book of the user is stored
    last, with the word and the definition trimmed, and the answer is the
    whole vocabulary of the book, the new entry included. *)
Theorem addVocab_appends (env : Env) (userId id : jsstring)
    (body : list (jsstring * JSValue)) (w : World) (i o : ObjectId) (k : nat)
    (book : Book.t) (word definition : jsstring) :
  wf_World w →
  isValid id = true → castObjectId id = Some i → castObjectId userId = Some o →
  db_read_fails env = false → db_write_fails env = false →
  getProp body (str "word") = JStr word → trim word ≠ [] →
  getProp body (str "definition") = JStr definition → trim definition ≠ [] →
  list_find (λ b, Book._id b = i ∧ Book.owner b = o) (books w) = Some (k, book) →
  let vocabulary :=
    Book.vocabulary book ++ [Vocab.mk (fresh_id env) (trim word) (trim definition)] in
  addVocab isValid castObjectId env userId id body w
  = (json (BVocabulary vocabulary),
     emit (BookUpdate i)
       (set_books (<[k := Book.set_vocabulary vocabulary book]> (books w)) w)).
Proof.
  intros Hwf Hid Hci Hco Hr Hw Hword Hw1 Hdef Hd1 Hfind vocabulary.
  unfold addVocab, try_catch, bind, when_send, Book_findOne.
  rewrite Hid, Hword, Hdef, Hci, Hco, Hr. simpl.
  destruct (trim word) eqn:E1; [done|]. destruct (trim definition) eqn:E2; [done|]. simpl.
  rewrite Hfind. simpl.
  rewrite (Book_save_found env book _ w i o k); [|done..|by right].
  unfold saved. rewrite isModified_true_vocabulary by apply app_singleton_neq.
  by apply list_find_Some in Hfind as (_ & [<- _] & _).
Qed.

(** X30: a request that updates a note of a book of the user answers
    with the note as it is stored: the supplied fields replaced by their
    trimmed values, the id, the creation date and the fields that were
    not supplied kept; the next [GET /books/:id/notes] returns the notes
    of the book with that note updated in its place. *)
Theorem updateNote_then_getNotes (env env' : Env) (userId id noteId : jsstring)
    (body : list (jsstring * JSValue)) (w : World) (i o ni : ObjectId)
    (k j : nat) (book : Book.t) (note : Note.t) :
  wf_World w →
  isValid id = true → isValid noteId = true →
  castObjectId id = Some i → castObjectId userId = Some o → castObjectId noteId = Some ni →
  db_read_fails env = false → db_write_fails env = false → db_read_fails env' = false →
  list_find (λ b, Book._id b = i ∧ Book.owner b = o) (books w) = Some (k, book) →
  list_find (λ n, Note._id n = ni) (Book.notes book) = Some (j, note) →
  let title := parseNonEmptyString (getProp body (str "title")) in
  let content := parseNonEmptyString (getProp body (str "content")) in
  ¬ (title = None ∧ content = None) →
  let updated := assignNote title content note in
  let w' := (updateNote isValid castObjectId env userId id noteId body w).2 in
  (updateNote isValid castObjectId env userId id noteId body w).1 = json (BNote updated)
  ∧ Note._id updated = Note._id note
  ∧ Note.createdAt updated = Note.createdAt note
  ∧ Note.title updated = default (Note.title note) title
  ∧ Note.content updated = default (Note.content note) content
  ∧ getNotes isValid castObjectId env' userId id w'
    = (json (BNotes (<[j := updated]> (Book.notes book))), w').
Proof.
  intros Hwf Hid Hnid Hci Hco Hcn Hr Hw Hr' Hfind Hnote title content Hsome updated w'.
  subst w'.
  rewrite (updateNote_found isValid castObjectId env userId id noteId body w i o ni k j
             book note) by done.
  fold title content updated. simpl. split_and!; try done.
  apply (getNotes_found env' userId id _ i o k
           (Book.set_notes (<[j := updated]> (Book.notes book)) book)); try done.
  apply saved_find; try done. apply isModified_set_notes.
Qed.

(** X29: the page and the percentage [PATCH /books/:id/progress]
    answers with are those the next [GET /books] shows for that book.
    When the page differs from the one the book was at, the book is
    listed as it was written, with the new page.  When it does not (the
    same number, or [-0] for a book at [0]) nothing was written and the
    book is listed as it was; its page and percentage then equal the
    answer's as numbers ([===], or both NaN for a page count that is NaN). *)
Theorem updateProgress_then_listBooks (env env' : Env) (userId id : jsstring)
    (body : list (jsstring * JSValue)) (w : World) (i o : ObjectId) (n : Number)
    (k : nat) (book : Book.t) :
  wf_World w →
  isValid id = true → castObjectId id = Some i → castObjectId userId = Some o →
  db_read_fails env = false → db_write_fails env = false → db_read_fails env' = false →
  ToNumber (getProp body (str "page")) = Normal n →
  Number_isInteger n = true → Number_lt n pos_zero = false →
  list_find (λ b, Book._id b = i ∧ Book.owner b = o) (books w) = Some (k, book) →
  ¬ (Number_gt (Book.totalPages book) pos_zero = true
     ∧ Number_gt n (Book.totalPages book) = true) →
  let stored := Book.set_currentPage n book in
  let listed := if Number_eq (Book.currentPage book) n then book else stored in
  let w' := (updateProgress isValid castObjectId env userId id body w).2 in
  ∃ bs,
    (updateProgress isValid castObjectId env userId id body w).1
    = json (BProgress n (Book.percent (Book.toJSON stored)))
    ∧ listBooks castObjectId env' userId w' = (json (BBooks bs), w')
    ∧ Book.toJSON listed ∈ bs
    ∧ Number_eq (Book.currentPage listed) n = true
    ∧ (Book.percent (Book.toJSON listed) = Book.percent (Book.toJSON stored)
       ∨ Number_eq (Book.percent (Book.toJSON listed)) (Book.percent (Book.toJSON stored))
         = true).
Proof.
  intros Hwf Hid Hci Hco Hr Hw Hr' Hn Hint Hnonneg Hfind Hle stored listed w'. subst w'.
  rewrite (updateProgress_accepted isValid castObjectId env userId id body w i o n k book);
    try done; [|by right].
  pose proof Hfind as (Hk & [_ Ho] & _)%list_find_Some.
  simpl. eexists. split_and!; [done| | | |].
  - unfold listBooks, try_catch, bind, Book_find. rewrite Hco, Hr'. reflexivity.
  - apply list_elem_of_fmap_2. unfold newest_first. rewrite merge_sort_Permutation.
    apply list_elem_of_filter. unfold saved, listed.
    destruct (Number_eq (Book.currentPage book) n) eqn:Heq.
    + rewrite isModified_same_page by done. split; [done|].
      by eapply list_elem_of_lookup_2.
    + rewrite isModified_other_page by done. split; [done|].
      eapply list_elem_of_lookup_2, list_lookup_insert_eq. by eapply lookup_lt_Some.
  - unfold listed. destruct (Number_eq (Book.currentPage book) n) eqn:Heq; [done|].
    by apply Number_isInteger_eq.
  - unfold listed. destruct (Number_eq (Book.currentPage book) n) eqn:Heq; [|by left].
    destruct (Number_eq_cases _ _ Heq) as [Hsame | (s & s' & Hcur & Hn')].
    + left. subst stored. rewrite <-Hsame. by destruct book.
    + assert (book = Book.set_currentPage (S754_zero s) book) as Hbook.
      { rewrite <-Hcur. by destruct book. }
      subst stored. rewrite Hn'. rewrite Hbook at 1 3.
      apply progressPercentage_zero_page.
Qed.

End Subdocuments.

(** ** After a book was deleted *)

Lemma delete_ids_fresh {A} (f : A → ObjectId) (l : list A) (k : nat) (x : A) :
  NoDup (f <$> l) → l !! k = Some x → Forall (λ y, f y ≠ f x) (delete k l).
Proof.
  intros Hnd Hk. rewrite <-(take_drop_middle l k x Hk) in Hnd.
  rewrite fmap_app, fmap_cons in Hnd.
  apply NoDup_app in Hnd as (_ & Hleft & [Hright _]%NoDup_cons).
  rewrite delete_take_drop. apply Forall_app. split; apply Forall_forall; intros y Hy Heq.
  - apply (Hleft (f y)); [by apply list_elem_of_fmap_2|]. rewrite Heq. by left.
  - apply Hright. rewrite <-Heq. by apply list_elem_of_fmap_2.
Qed.

Section AfterDelete.

Variable isValid : jsstring → bool.
Variable castObjectId : jsstring → option ObjectId.

Lemma deleteBook_done (env : Env) (userId id : jsstring) (i o : ObjectId) (w : World)
    (k : nat) (book : Book.t) :
  wf_World w →
  isValid id = true → castObjectId id = Some i → castObjectId userId = Some o →
  db_read_fails env = false → cloud_destroy_fails env = false →
  db_write_fails env = false →
  list_find (λ b, Book._id b = i ∧ Book.owner b = o) (books w) = Some (k, book) →
  deleteBook isValid castObjectId env userId id w
  = (json (BMessage "Book deleted."),
     emit (BookDelete i)
       (set_books (delete k (books w))
          (emit (CloudDestroy (Book.cloudinaryId book))
             (set_blobs (filter (λ x, x ≠ Book.cloudinaryId book) (blobs w)) w)))).
Proof.
  intros Hwf Hid Hci Hco Hr Hd Hw Hfind.
  unfold deleteBook, try_catch, bind, when_send, Book_findOne, cloudinary_destroy,
    Book_findByIdAndDelete.
  rewrite Hid, Hci, Hco, Hr, Hd, Hw. simpl. rewrite Hfind. simpl.
  by rewrite (find_owned_by_id _ _ _ _ _ Hwf Hfind).
Qed.

(** X20: once [DELETE /books/:id] has answered "Book deleted.", no
    document has that id, Cloudinary no longer holds the blob, the book
    is missing from the list of the user's books, and a request for its
    notes or a second request to delete it is answered 404. *)
Theorem deleteBook_then_not_found (env env' : Env) (userId id : jsstring) (i o : ObjectId)
    (w : World) (k : nat) (book : Book.t) :
  wf_World w →
  isValid id = true → castObjectId id = Some i → castObjectId userId = Some o →
  db_read_fails env = false → cloud_destroy_fails env = false →
  db_write_fails env = false → db_read_fails env' = false →
  list_find (λ b, Book._id b = i ∧ Book.owner b = o) (books w) = Some (k, book) →
  let w' := (deleteBook isValid castObjectId env userId id w).2 in
  (deleteBook isValid castObjectId env userId id w).1 = json (BMessage "Book deleted.")
  ∧ Forall (λ b, Book._id b ≠ i) (books w')
  ∧ (Book.cloudinaryId book ∉ blobs w')
  ∧ (∃ bs, listBooks castObjectId env' userId w' = (json (BBooks (Book.toJSON <$> bs)), w')
           ∧ Forall (λ b, Book._id b ≠ i) bs)
  ∧ getNotes isValid castObjectId env' userId id w' = (error 404 "Book not found.", w')
  ∧ deleteBook isValid castObjectId env' userId id w'
    = (error 404 "Unauthorized or not found.", w').
Proof.
  intros Hwf Hid Hci Hco Hr Hd Hw Hr' Hfind w'. subst w'.
  rewrite (deleteBook_done env userId id i o w k book) by done. simpl.
  pose proof Hfind as (Hk & [Hi Ho] & _)%list_find_Some.
  assert (Hgone : Forall (λ b, Book._id b ≠ i) (delete k (books w))).
  { rewrite <-Hi. by apply delete_ids_fresh. }
  assert (Hnone : list_find (λ b, Book._id b = i ∧ Book.owner b = o) (delete k (books w))
                  = None).
  { apply list_find_None. eapply Forall_impl; [exact Hgone|]. intros b Hb [? _]. done. }
  split_and!.
  - done.
  - exact Hgone.
  - simpl. intros [Hne _]%list_elem_of_filter. done.
  - exists (newest_first (filter (λ b, Book.owner b = o) (delete k (books w)))). split.
    + unfold listBooks, try_catch, bind, Book_find. by rewrite Hco, Hr'.
    + unfold newest_first. rewrite merge_sort_Permutation.
      apply Forall_forall. intros b [_ Hb]%list_elem_of_filter.
      rewrite Forall_forall in Hgone. by apply Hgone.
  - unfold getNotes, try_catch, bind, when_send, Book_findOne.
    rewrite Hid, Hci, Hco, Hr'. simpl. by rewrite Hnone.
  - unfold deleteBook, try_catch, bind, when_send, Book_findOne.
    rewrite Hid, Hci, Hco, Hr'. simpl. by rewrite Hnone.
Qed.

End AfterDelete.

(** ** What an upload does *)

Section UploadEffects.

Variable castObjectId : jsstring → option ObjectId.

(** X21: what [POST /upload-book] does with a request of at most one
    file part, in order.  Without a file (or with a part that has no file
    name) the answer is 400 "PDF required."; a file in a field other than
    [pdf] gets 500 "Internal server error."; a file the filter refuses
    gets 400 "Only PDF files are allowed."; a file beyond 15 MB gets 400
    "PDF file must be 15 MB or smaller."; in all four nothing happens.
    With a file that is let through, the blob is stored before the Book
    is inserted, the temporary file is removed last, whatever failed, and
    there are three outcomes: nothing was stored; the blob was stored but
    no Book (the Book could not be saved); the blob and the Book were
    stored and the answer is 201. *)
Theorem uploadBook_effects (env : Env) (userId : jsstring) (part : option File)
    (body : list (jsstring * JSValue)) (w : World) :
  let '(r, w') := uploadBook castObjectId env userId part body w in
  match part with
  | None => r = error 400 "PDF required." ∧ w' = w
  | Some file =>
      if bool_decide (originalname file = [])
      then r = error 400 "PDF required." ∧ w' = w
      else if negb (bool_decide (fieldname file = str "pdf"))
      then r = error 500 "Internal server error." ∧ w' = w
      else if negb (fileFilter file)
      then r = error 400 "Only PDF files are allowed." ∧ w' = w
      else if MAX_PDF_SIZE_BYTES <? size file
      then r = error 400 "PDF file must be 15 MB or smaller." ∧ w' = w
      else
        users w' = users w
        ∧ ((r = error 500 "Upload failed."
            ∧ books w' = books w ∧ blobs w' = blobs w
            ∧ log w' = log w ++ [Unlink (path file)])
           ∨ (∃ secure_url public_id,
                cloud_upload env = Normal (secure_url, public_id)
                ∧ r = error 500 "Upload failed."
                ∧ books w' = books w ∧ blobs w' = public_id :: blobs w
                ∧ log w' = log w ++ [CloudUpload public_id; Unlink (path file)])
           ∨ (∃ secure_url public_id newBook,
                cloud_upload env = Normal (secure_url, public_id)
                ∧ r = mkResponse 201 (BBook (Book.toJSON newBook))
                ∧ books w' = books w ++ [newBook] ∧ blobs w' = public_id :: blobs w
                ∧ log w' = log w ++ [CloudUpload public_id; BookInsert (Book._id newBook);
                                     Unlink (path file)]))
  end.
Proof.
  unfold uploadBook, upload_single, multer_single.
  destruct part as [file|]; [|done].
  destruct (bool_decide (originalname file = [])); [done|].
  destruct (negb (bool_decide (fieldname file = str "pdf"))); [done|].
  destruct (negb (fileFilter file)); [done|].
  destruct (MAX_PDF_SIZE_BYTES <? size file); [done|].
  unfold try_catch, bind, lift, cloudinary_upload, Book_create, send, ret, throw.
  destruct (fs_read_fails env); simpl; [split; [done|left; by split_and!]|].
  destruct (pdf_numpages env) as [numpages|]; simpl; [|split; [done|left; by split_and!]].
  destruct (cloud_upload env) as [[secure_url public_id]|] eqn:Hcloud; simpl;
    [|split; [done|left; by split_and!]].
  destruct (castObjectId userId) as [o|]; simpl.
  2: { split; [done|]. right; left. exists secure_url, public_id.
       split_and!; try done. simpl. by rewrite <-app_assoc. }
  destruct (negb _ || negb _); simpl.
  { split; [done|]. right; left. exists secure_url, public_id.
       split_and!; try done. simpl. by rewrite <-app_assoc. }
  destruct (db_write_fails env); simpl.
  { split; [done|]. right; left. exists secure_url, public_id.
       split_and!; try done. simpl. by rewrite <-app_assoc. }
  destruct (decide _); simpl.
  { split; [done|]. right; left. exists secure_url, public_id.
       split_and!; try done. simpl. by rewrite <-app_assoc. }
  split; [done|]. right; right. eexists secure_url, public_id, _.
  split_and!; try done. simpl. by rewrite <-!app_assoc.
Qed.

(** X22: when Cloudinary has stored the blob and the Book cannot be
    saved, the upload is answered 500 and no Book exists, but the blob
    stays with Cloudinary: the handler does not destroy it. *)
Theorem uploadBook_leaves_orphan_blob (env : Env) (userId : jsstring) (file : File)
    (body : list (jsstring * JSValue)) (w : World) (numpages : JSValue)
    (secure_url public_id : jsstring) :
  upload_single (Some file) = inr (Some file) →
  fs_read_fails env = false →
  pdf_numpages env = Normal numpages →
  cloud_upload env = Normal (secure_url, public_id) →
  db_write_fails env = true →
  let '(r, w') := uploadBook castObjectId env userId (Some file) body w in
  r = error 500 "Upload failed."
  ∧ books w' = books w
  ∧ public_id ∈ blobs w'
  ∧ log w' = log w ++ [CloudUpload public_id; Unlink (path file)].
Proof.
  intros Hfile Hfs Hpdf Hcloud Hw.
  unfold uploadBook, try_catch, bind, lift, cloudinary_upload, Book_create, send, ret, throw.
  rewrite Hfile, Hfs, Hpdf, Hcloud, Hw. simpl.
  destruct (castObjectId userId) as [o|]; simpl.
  - destruct (negb _ || negb _); simpl;
      (split_and!; [done|done|by left|by rewrite <-app_assoc]).
  - split_and!; [done|done|by left|by rewrite <-app_assoc].
Qed.

End UploadEffects.

(** X23: the page count an upload stores is a whole number that is not
    negative, whatever the parser reports: a count that is a whole number
    and not negative is kept (a negative zero as zero), a negative one
    and anything that is not a whole number give 0. *)
Theorem pageCount_range (numpages : JSValue) :
  Number_isInteger (pageCount numpages) = true
  ∧ min_0 (pageCount numpages)
  ∧ match numpages with
    | JNum n =>
        if Number_isInteger n && negb (Number_lt n pos_zero)
        then pageCount numpages = (if Number_eq n pos_zero then pos_zero else n)
        else pageCount numpages = pos_zero
    | _ => pageCount numpages = pos_zero
    end.
Proof.
  destruct numpages as [| | |n| | |]; try by split_and!.
  unfold pageCount. destruct (Number_isInteger n) eqn:Hint; simpl; [|by split_and!].
  unfold min_0, Number_lt, Number_eq, Math_max.
  destruct n as [[]|[]| |[] m e]; try done; simpl; by rewrite ?Hint.
Qed.

(** X24: the upload filter accepts a file exactly when its MIME type
    is "application/pdf" or its name ends in ".pdf", in any letter case. *)
Theorem fileFilter_accepts (file : File) :
  fileFilter file = true
  ↔ mimetype file = str "application/pdf"
    ∨ ∃ stem p d f,
        originalname file = stem ++ [46%N; p; d; f]
        ∧ (p = 112%N ∨ p = 80%N) ∧ (d = 100%N ∨ d = 68%N) ∧ (f = 102%N ∨ f = 70%N).
Proof.
  unfold fileFilter. rewrite orb_true_iff, bool_decide_eq_true.
  apply or_iff_compat_l. unfold hasPdfExtension. split.
  - destruct (rev (originalname file)) as [|f [|d [|p [|dot stem]]]] eqn:Hrev; try done.
    rewrite !andb_true_iff, !orb_true_iff, !N.eqb_eq.
    intros [[[-> Hp] Hd] Hf]. exists (rev stem), p, d, f. split; [|done].
    rewrite <-(rev_involutive (originalname file)), Hrev. simpl.
    by rewrite <-!app_assoc.
  - intros (stem & p & d & f & -> & Hp & Hd & Hf).
    rewrite rev_app_distr. simpl.
    rewrite !andb_true_iff, !orb_true_iff, !N.eqb_eq. done.
Qed.

(** ** Stored documents satisfy the schema *)

Lemma trim_required (s : jsstring) : nonEmpty (trim s) = true → required_trimmed (trim s).
Proof. intros Hne. split; [apply trim_idemp|]. by destruct (trim s). Qed.

Lemma parsed_required (v : JSValue) (parsed : jsstring) :
  parseNonEmptyString v = Some parsed → required_trimmed parsed.
Proof.
  destruct v as [| | | |s| |]; simpl; try done.
  destruct (nonEmpty (trim s)) eqn:Hne; [|done]. intros [= <-]. by apply trim_required.
Qed.

Lemma page_min_0 (n : Number) :
  Number_isInteger n = true → Number_lt n pos_zero = false → min_0 n.
Proof. unfold min_0. by destruct n as [[]|[]| |[] m e]. Qed.

Lemma replaceById_Forall (P : Book.t → Prop) (b : Book.t) (bs : list Book.t) :
  Forall P bs → P b → Forall P (replaceById b bs).
Proof.
  intros Hall Hb. unfold replaceById.
  destruct (list_find _ bs) as [[k x]|]; [|done]. by apply Forall_insert.
Qed.

Lemma found_Forall {A} (P Q : A → Prop) `{!∀ x, Decision (Q x)} (l : list A) (x : A) :
  snd <$> list_find Q l = Some x → Forall P l → P x.
Proof.
  destruct (list_find Q l) as [[k y]|] eqn:E; [|done]. intros [= <-] Hall.
  apply list_find_Some in E as (Hk & _). by eapply Forall_lookup_1.
Qed.

Lemma Forall_filter_keeps {A} (P Q : A → Prop) `{!∀ x, Decision (Q x)} (l : list A) :
  Forall P l → Forall P (filter Q l).
Proof.
  rewrite !Forall_forall. intros Hall x [_ Hx]%list_elem_of_filter. by apply Hall.
Qed.

Lemma schema_valid_set_currentPage (page : Number) (b : Book.t) :
  schema_valid b → min_0 page → schema_valid (Book.set_currentPage page b).
Proof. intros (? & ? & ? & ? & ? & ? & ?) ?. by split_and!. Qed.

Lemma schema_valid_set_vocabulary (vs : list Vocab.t) (b : Book.t) :
  schema_valid b →
  Forall (λ v, required_trimmed (Vocab.word v) ∧ required_trimmed (Vocab.definition v)) vs →
  schema_valid (Book.set_vocabulary vs b).
Proof. intros (? & ? & ? & ? & ? & ? & ?) ?. by split_and!. Qed.

Lemma schema_valid_set_notes (ns : list Note.t) (b : Book.t) :
  schema_valid b →
  Forall (λ n, required_trimmed (Note.title n) ∧ required_trimmed (Note.content n)) ns →
  schema_valid (Book.set_notes ns b).
Proof. intros (? & ? & ? & ? & ? & ? & ?) ?. by split_and!. Qed.

Lemma assignVocab_required (word definition : option jsstring) (vocab : Vocab.t)
    (vw vd : JSValue) :
  word = parseNonEmptyString vw → definition = parseNonEmptyString vd →
  required_trimmed (Vocab.word vocab) ∧ required_trimmed (Vocab.definition vocab) →
  required_trimmed (Vocab.word (assignVocab word definition vocab))
  ∧ required_trimmed (Vocab.definition (assignVocab word definition vocab)).
Proof.
  intros -> -> [Hw Hd]. simpl. split.
  - destruct (parseNonEmptyString vw) eqn:E; [by eapply parsed_required|done].
  - destruct (parseNonEmptyString vd) eqn:E; [by eapply parsed_required|done].
Qed.

Lemma assignNote_required (title content : option jsstring) (note : Note.t)
    (vt vc : JSValue) :
  title = parseNonEmptyString vt → content = parseNonEmptyString vc →
  required_trimmed (Note.title note) ∧ required_trimmed (Note.content note) →
  required_trimmed (Note.title (assignNote title content note))
  ∧ required_trimmed (Note.content (assignNote title content note)).
Proof.
  intros -> -> [Ht Hc]. simpl. split.
  - destruct (parseNonEmptyString vt) eqn:E; [by eapply parsed_required|done].
  - destruct (parseNonEmptyString vc) eqn:E; [by eapply parsed_required|done].
Qed.

Section SchemaInvariant.

Variable isValid : jsstring → bool.
Variable castObjectId : jsstring → option ObjectId.

Lemma run_schema_valid (env : Env) (userId : jsstring) (op : BookOp) (w w' : World)
    (r : Response) :
  run isValid castObjectId env userId op w = (r, w') →
  Forall schema_valid (books w) → Forall schema_valid (books w').
Proof.
  intros Hrun Hall.
  destruct op; simpl in Hrun;
    unfold listBooks, updateProgress, addVocab, updateVocab, deleteVocab, addNote,
      getNotes, updateNote, deleteNote, deleteBook, try_catch, bind, when_send, lift,
      Book_find, Book_findOne, Book_save, cloudinary_destroy, Book_findByIdAndDelete,
      vocabulary_id, notes_id, send, ret, throw in Hrun;
    repeat (case_match; simplify_eq/=);
    try done;
    try (apply replaceById_Forall; [done|]);
    try match goal with
        | H : snd <$> list_find _ (books _) = Some ?t |- _ =>
            pose proof (found_Forall schema_valid _ _ _ H Hall) as Ht
        end.
  - apply schema_valid_set_currentPage; [done|].
    match goal with H : parsePage _ = _ |- _ => apply parsePage_Some in H as [_ Hint] end.
    by apply page_min_0.
  - apply schema_valid_set_vocabulary; [done|].
    apply Forall_app. split; [apply Ht|]. apply Forall_singleton. simpl.
    split; apply trim_required; done.
  - apply schema_valid_set_vocabulary; [done|].
    match goal with
    | H : list_find _ _ = Some (?k, ?v) |- _ =>
        apply list_find_Some in H as (Hk & _)
    end.
    apply Forall_insert; [apply Ht|].
    eapply assignVocab_required; [done..|].
    destruct Ht as (_ & _ & _ & _ & _ & Hv & _). by eapply (Forall_lookup_1 _ _ _ _ Hv).
  - apply schema_valid_set_vocabulary; [done|]. apply Forall_filter_keeps, Ht.
  - apply schema_valid_set_notes; [done|].
    apply Forall_app. split; [apply Ht|]. apply Forall_singleton. simpl.
    split; by eapply parsed_required.
  - apply schema_valid_set_notes; [done|].
    match goal with
    | H : list_find _ _ = Some (?k, ?v) |- _ =>
        apply list_find_Some in H as (Hk & _)
    end.
    apply Forall_insert; [apply Ht|].
    eapply assignNote_required; [done..|].
    destruct Ht as (_ & _ & _ & _ & _ & _ & Hn). by eapply (Forall_lookup_1 _ _ _ _ Hn).
  - apply schema_valid_set_notes; [done|]. apply Forall_filter_keeps, Ht.
  - by apply Forall_delete.
Qed.

Lemma uploadBook_schema_valid (env : Env) (userId : jsstring) (part : option File)
    (body : list (jsstring * JSValue)) (w : World) :
  Forall schema_valid (books w) →
  Forall schema_valid (books (uploadBook castObjectId env userId part body w).2).
Proof.
  intros Hall.
  unfold uploadBook, try_catch, bind, lift, cloudinary_upload, Book_create, send, ret, throw.
  repeat first [progress simpl | case_inner; simplify_eq/=]; try done.
  apply Forall_app. split; [done|]. apply Forall_singleton.
  match goal with
  | H : _ || _ = false |- _ => apply orb_false_elim in H as [Ha Hb]
  end.
  apply negb_false_iff in Ha, Hb.
  apply andb_prop in Ha as [Ha H3]. apply andb_prop in Ha as [H1 H2].
  unfold schema_valid. simpl. split_and!; try (by apply trim_required); try done.
Qed.

(** X25: in every world the server can reach, every stored Book
    satisfies its schema: the title, the URL and the Cloudinary id, the
    word and the definition of every vocabulary entry, the title and the
    content of every note are trimmed and not empty, and the two page
    fields are not below 0.  So the validation of [save()] never rejects
    what a handler has written. *)
Theorem reachable_schema_valid (w : World) :
  reachable isValid castObjectId w → Forall schema_valid (books w).
Proof.
  induction 1 as [us | env userId part body w _ IH | env userId op w _ IH].
  - constructor.
  - by apply uploadBook_schema_valid.
  - destruct (run _ _ _ _ _ w) as [r w'] eqn:Hrun. simpl.
    by eapply run_schema_valid.
Qed.

End SchemaInvariant.

(** ** The percentage as the reader advances *)

Lemma nearest_percent_mono (c1 c2 t p1 p2 : Z) :
  0 < t → c1 < c2 → nearest_percent c1 t p1 → nearest_percent c2 t p2 → p1 <= p2.
Proof.
  unfold nearest_percent. intros Ht Hc [_ H1] [_ H2].
  apply Z.abs_le in H1, H2.
  destruct (Z_le_gt_dec p1 p2) as [|Hgt]; [done|]. exfalso.
  assert (t * (p2 + 1) <= t * p1) by (apply Z.mul_le_mono_nonneg_l; lia).
  lia.
Qed.

Lemma nearest_percent_first (t p : Z) : 0 < t → nearest_percent 0 t p → p = 0.
Proof.
  unfold nearest_percent. intros Ht [Hp H]. apply Z.abs_le in H.
  destruct (Z_le_gt_dec p 0) as [|Hgt]; [lia|]. exfalso.
  assert (t * 1 <= t * p) by (apply Z.mul_le_mono_nonneg_l; lia).
  lia.
Qed.

Lemma nearest_percent_last (t p : Z) : 0 < t → nearest_percent t t p → p = 100.
Proof.
  unfold nearest_percent. intros Ht [Hp H]. apply Z.abs_le in H.
  destruct (Z_le_gt_dec 100 p) as [|Hgt]; [lia|]. exfalso.
  assert (t * p <= t * 99) by (apply Z.mul_le_mono_nonneg_l; lia).
  lia.
Qed.

(** X26: for a book of fewer than 2^40 pages the percentage is a whole
    number between 0 and 100 that never decreases when the current page
    advances; it is 0 at page 0 and 100 at the last page. *)
Theorem progressPercentage_monotone (b : Book.t) (c1 c2 t : Z) :
  0 < t < 2 ^ 40 → 0 <= c1 <= c2 → c2 <= t →
  ∃ p1 p2,
    Book.progressPercentage (with_pages c1 t b) = Number_of_Z p1
    ∧ Book.progressPercentage (with_pages c2 t b) = Number_of_Z p2
    ∧ 0 <= p1 <= p2 ∧ p2 <= 100
    ∧ (c1 = 0 → p1 = 0) ∧ (c2 = t → p2 = 100).
Proof.
  intros Ht Hc1 Hc2.
  assert (Hr1 : 0 <= c1 <= t) by lia. assert (Hr2 : 0 <= c2 <= t) by lia.
  destruct (progressPercentage_pages b c1 t Ht Hr1) as (p1 & Hp1 & Hn1).
  destruct (progressPercentage_pages b c2 t Ht Hr2) as (p2 & Hp2 & Hn2).
  destruct (Z.eq_dec c1 c2) as [<-|Hne].
  - exists p1, p1. split_and!; try done; try (destruct Hn1 as [? _]; lia).
    + intros ->. apply (nearest_percent_first t); [lia|done].
    + intros ->. apply (nearest_percent_last t); [lia|done].
  - exists p1, p2. split_and!; try done.
    + destruct Hn1 as [? _]; lia.
    + apply (nearest_percent_mono c1 c2 t); [lia|lia|done..].
    + destruct Hn2 as [? _]; lia.
    + intros ->. apply (nearest_percent_first t); [lia|done].
    + intros ->. apply (nearest_percent_last t); [lia|done].
Qed.

(** ** Pages sent as strings *)

Lemma digit_not_whitespace (c : N) : isDigit c = true → isWhiteSpace c = false.
Proof.
  unfold isDigit. intros [H1 H2]%andb_prop. apply N.leb_le in H1, H2.
  unfold isWhiteSpace. apply orb_false_intro.
  - simpl. repeat (apply orb_false_intro; [apply N.eqb_neq; lia|]). done.
  - apply andb_false_intro1, N.leb_gt. lia.
Qed.

Lemma trim_padded (l p r : jsstring) :
  Forall (λ c, isWhiteSpace c = true) l → Forall (λ c, isWhiteSpace c = true) r →
  (∀ c, head p = Some c → isWhiteSpace c = false) →
  (∀ c, last p = Some c → isWhiteSpace c = false) →
  p ≠ [] → trim (l ++ p ++ r) = p.
Proof.
  intros Hl Hr Hhead Hlast Hne. unfold trim.
  assert (trimStart (l ++ p ++ r) = p ++ r) as ->.
  { induction Hl as [|c l Hc _ IH]; simpl; [|by rewrite Hc].
    destruct p as [|c p]; [done|]. simpl. by rewrite (Hhead c). }
  unfold trimEnd. rewrite rev_app_distr.
  assert (trimStart (rev r ++ rev p) = rev p) as ->; [|apply rev_involutive].
  apply Forall_rev in Hr.
  induction Hr as [|c r' Hc _ IH]; simpl; [|by rewrite Hc].
  apply trimStart_fixed. intros c. rewrite head_rev. apply Hlast.
Qed.

Lemma spanDigits_all (ds : jsstring) :
  Forall (λ c, isDigit c = true) ds → spanDigits ds = (ds, []).
Proof. induction 1 as [|c ds Hc _ IH]; [done|]. simpl. by rewrite Hc, IH. Qed.

Lemma digits_fold_bound (ds : jsstring) (acc : Z) :
  Forall (λ c, isDigit c = true) ds → 0 <= acc →
  0 <= fold_left (λ acc c, 10 * acc + Z.of_N (c - 48)) ds acc
  < (acc + 1) * 10 ^ Z.of_nat (length ds).
Proof.
  intros Hds. revert acc. induction Hds as [|c ds Hc _ IH]; intros acc Hacc.
  - simpl. lia.
  - cbn [fold_left length]. unfold isDigit in Hc.
    apply andb_prop in Hc as [H1 H2]. apply N.leb_le in H1, H2.
    specialize (IH (10 * acc + Z.of_N (c - 48))).
    rewrite Nat2Z.inj_succ, Z.pow_succ_r by lia.
    assert (0 < 10 ^ Z.of_nat (length ds)) by (apply Z.pow_pos_nonneg; lia).
    assert ((10 * acc + Z.of_N (c - 48) + 1) * 10 ^ Z.of_nat (length ds)
            <= (10 * acc + 10) * 10 ^ Z.of_nat (length ds))
      by (apply Z.mul_le_mono_nonneg_r; lia).
    lia.
Qed.

Lemma digitsValue_bound (ds : jsstring) :
  Forall (λ c, isDigit c = true) ds → 0 <= digitsValue ds < 10 ^ Z.of_nat (length ds).
Proof.
  intros Hds. pose proof (digits_fold_bound ds 0 Hds) as H. unfold digitsValue. lia.
Qed.

(** Whole numbers below 2^53 are represented exactly. *)
Lemma Number_to_Z_of_Z (n : Z) : 0 <= n < 2 ^ 53 → Number_to_Z (Number_of_Z n) = Some n.
Proof.
  intros Hn. destruct (Z.eq_dec n 0) as [->|Hne]; [done|].
  assert (Hpos : 0 < n < 2 ^ 53) by lia.
  destruct (Number_of_Z_normal n Hpos) as (m & e & -> & _ & He & Hm).
  unfold Number_to_Z. destruct (0 <=? e) eqn:E.
  - apply Z.leb_le in E. assert (e = 0) as -> by lia.
    simpl in *. f_equal. lia.
  - apply Z.leb_gt in E. rewrite Hm.
    assert (0 < 2 ^ (- e)) by (apply Z.pow_pos_nonneg; lia).
    rewrite Z.mod_mul, Z.div_mul by lia. done.
Qed.

Lemma decimalToNumber_integer (n : Z) :
  0 <= n → decimalToNumber false n 0 = Number_of_Z n.
Proof.
  intros Hn. destruct n as [|p|p]; [done| |lia].
  unfold decimalToNumber, Number_of_Z. change (0 <=? 0) with true. cbv iota.
  by rewrite Z.pow_0_r, Z.mul_1_r.
Qed.

Lemma parseUnsignedDecimal_digits (ds : jsstring) :
  ds ≠ [] → Forall (λ c, isDigit c = true) ds →
  parseUnsignedDecimal false ds = Number_of_Z (digitsValue ds).
Proof.
  intros Hne Hds. unfold parseUnsignedDecimal.
  destruct (decide (ds = str "Infinity")) as [->|_].
  { by apply Forall_inv in Hds. }
  rewrite spanDigits_all by done. cbv iota beta. rewrite app_nil_r.
  destruct ds as [|c ds]; [done|].
  change (parseExponent []) with (Some 0). cbv iota beta.
  change (0 - Z.of_nat (length (@nil N))) with 0.
  apply decimalToNumber_integer. by apply digitsValue_bound.
Qed.

Lemma parseNumericLiteral_digits (ds : jsstring) :
  ds ≠ [] → Forall (λ c, isDigit c = true) ds →
  parseNumericLiteral ds = Number_of_Z (digitsValue ds).
Proof.
  intros Hne Hds. rewrite <-parseUnsignedDecimal_digits by done.
  destruct Hds as [|a ds Ha Hds]; [done|].
  unfold isDigit in Ha. apply andb_prop in Ha as [H1 H2]. apply N.leb_le in H1, H2.
  assert (a = 48 ∨ a = 49 ∨ a = 50 ∨ a = 51 ∨ a = 52 ∨ a = 53 ∨ a = 54 ∨ a = 55
          ∨ a = 56 ∨ a = 57)%N as Ha by lia.
  destruct Ha as [->|[->|[->|[->|[->|[->|[->|[->|[->| ->]]]]]]]]]; try done.
  destruct Hds as [|c r Hc _]; [done|].
  unfold isDigit in Hc. apply andb_prop in Hc as [H3 H4]. apply N.leb_le in H3, H4.
  unfold parseNumericLiteral.
  assert (∀ x, (57 < x)%N → (c =? x)%N = false) as Hx by (intros; apply N.eqb_neq; lia).
  by rewrite !Hx.
Qed.

(** X27: a page sent as a string of at most 15 decimal digits, with or
    without white space around it, is read as the whole number the
    digits spell, exactly. *)
Theorem parsePage_decimal_string (l ds r : jsstring) :
  ds ≠ [] → Forall (λ c, isDigit c = true) ds → (length ds ≤ 15)%nat →
  Forall (λ c, isWhiteSpace c = true) l → Forall (λ c, isWhiteSpace c = true) r →
  parsePage (JStr (l ++ ds ++ r)) = Normal (Some (Number_of_Z (digitsValue ds)))
  ∧ Number_to_Z (Number_of_Z (digitsValue ds)) = Some (digitsValue ds)
  ∧ 0 <= digitsValue ds < 10 ^ 15.
Proof.
  intros Hne Hds Hlen Hl Hr.
  pose proof (digitsValue_bound ds Hds) as Hbound.
  assert (10 ^ Z.of_nat (length ds) <= 10 ^ 15) by (apply Z.pow_le_mono_r; lia).
  assert (Hexact : Number_to_Z (Number_of_Z (digitsValue ds)) = Some (digitsValue ds)).
  { apply Number_to_Z_of_Z. assert (10 ^ 15 < 2 ^ 53) by done. lia. }
  split; [|split; [done|lia]].
  unfold parsePage, ToNumber, StringToNumber.
  rewrite trim_padded; try done.
  - destruct ds as [|c ds'] eqn:E; [done|]. rewrite <-E in *.
    rewrite parseNumericLiteral_digits by done.
    unfold Number_isInteger. by rewrite Hexact.
  - intros c Hc. apply digit_not_whitespace.
    destruct Hds as [|? ? Hd _]; simplify_eq/=. done.
  - intros c Hc. apply digit_not_whitespace.
    rewrite Forall_forall in Hds. apply Hds. by apply last_Some_elem_of.
Qed.

Lemma ToNumber_zero_like (page : JSValue) :
  page = JNull ∨ page = JBool false ∨ page = JArr []
  ∨ (∃ s, page = JStr s ∧ Forall (λ c, isWhiteSpace c = true) s) →
  ToNumber page = Normal pos_zero.
Proof.
  intros [->|[->|[->|(s & -> & Hs)]]]; try done.
  unfold ToNumber, StringToNumber. by rewrite trim_whitespace.
Qed.

Section PageZero.

Variable isValid : jsstring → bool.
Variable castObjectId : jsstring → option ObjectId.

(** X28: a progress update whose page is [null], [false], an empty
    array or a string of nothing but white space is accepted as page 0,
    whatever the page count of the book: the answer is page 0 with the
    percentage of the book at page 0, and the book of the user is written
    back to its start, unless it is at page 0 already, when nothing is
    written. *)
Theorem updateProgress_zero_like (env : Env) (userId id : jsstring)
    (body : list (jsstring * JSValue)) (w : World) (i o : ObjectId)
    (k : nat) (book : Book.t) :
  wf_World w →
  isValid id = true → castObjectId id = Some i → castObjectId userId = Some o →
  db_read_fails env = false → db_write_fails env = false →
  (getProp body (str "page") = JNull ∨ getProp body (str "page") = JBool false
   ∨ getProp body (str "page") = JArr []
   ∨ ∃ s, getProp body (str "page") = JStr s ∧ Forall (λ c, isWhiteSpace c = true) s) →
  list_find (λ b, Book._id b = i ∧ Book.owner b = o) (books w) = Some (k, book) →
  let stored := Book.set_currentPage pos_zero book in
  updateProgress isValid castObjectId env userId id body w
  = (json (BProgress pos_zero (Book.progressPercentage stored)),
     if Number_eq (Book.currentPage book) pos_zero then w
     else emit (BookUpdate i) (set_books (<[k := stored]> (books w)) w)).
Proof.
  intros Hwf Hid Hci Hco Hr Hw Hpage Hfind stored.
  rewrite (updateProgress_accepted isValid castObjectId env userId id body w i o pos_zero
             k book); try done.
  - subst stored. unfold saved.
    pose proof Hfind as (_ & [Hi _] & _)%list_find_Some.
    destruct (Number_eq (Book.currentPage book) pos_zero) eqn:Heq.
    + by rewrite isModified_same_page.
    + by rewrite isModified_other_page, Hi.
  - by right.
  - by apply ToNumber_zero_like.
  - unfold Number_gt, SFltb. by destruct (Book.totalPages book) as [[]|[]| |[] ? ?]; intros [??].
Qed.

End PageZero.

(** ** The theorems at work on the sample data *)

Lemma sample_world_wf : wf_World Sample.world.
Proof. apply NoDup_singleton. Defined.

Lemma ownership_isolation_witness :
  wf_World Sample.world
  ∧ Sample.castObjectId Sample.bob = Some 0xb2%N
  ∧ (run Sample.isValid Sample.castObjectId Sample.env Sample.bob
       (DeleteBook Sample.book1) Sample.world).1
    = (run Sample.isValid Sample.castObjectId Sample.env Sample.bob
         (DeleteBook Sample.book1) (set_books [] Sample.world)).1
  ∧ filter (λ b, Book.owner b ≠ 0xb2%N)
      (books (run Sample.isValid Sample.castObjectId Sample.env Sample.bob
                (DeleteBook Sample.book1) Sample.world).2)
    = [Sample.aliceBook].
Proof.
  split; [exact sample_world_wf|]. split; [reflexivity|].
  pose proof (ownership_isolation Sample.isValid Sample.castObjectId Sample.env Sample.bob
                0xb2%N (DeleteBook Sample.book1) Sample.world sample_world_wf eq_refl)
    as (Hframe & Hown & _).
  split.
  - symmetry. apply Hown. reflexivity.
  - rewrite Hframe. reflexivity.
Defined.


Lemma updateProgress_idempotent_witness :
  reachable Sample.isValid Sample.castObjectId Sample.uploaded
  ∧ updateProgress Sample.isValid Sample.castObjectId SampleAccounts.writesFail
      Sample.alice Sample.newBookId
      [(str "page", JNum (Book.currentPage Sample.newBook))] Sample.uploaded
    = (json (BProgress (Book.currentPage Sample.newBook)
               (Book.progressPercentage Sample.newBook)),
       Sample.uploaded).
Proof.
  assert (Hreach : reachable Sample.isValid Sample.castObjectId Sample.uploaded)
    by apply reach_upload, reach_start.
  split; [exact Hreach|].
  apply (updateProgress_idempotent Sample.isValid Sample.castObjectId
           SampleAccounts.writesFail
           Sample.alice Sample.newBookId 0xe001%N 0xa1%N Sample.uploaded 0%nat Sample.newBook
           Hreach eq_refl eq_refl eq_refl eq_refl).
  vm_compute. reflexivity.
Defined.

Lemma updateVocab_only_supplied_fields_witness :
  ∃ updated stored w',
    updateVocab Sample.isValid Sample.castObjectId Sample.env Sample.alice Sample.book1
      Sample.vocab2 [(str "word", JStr (str " dry "))] Sample.world
    = (json (BVocab updated), w')
    ∧ Vocab.word updated = str "dry"
    ∧ Vocab.definition updated = str "very dry"
    ∧ Book.vocabulary stored !! 0%nat
      = Some (Vocab.mk 0xc001 (str "ubiquitous") (str "present everywhere")).
Proof.
  destruct (updateVocab_only_supplied_fields Sample.isValid Sample.castObjectId Sample.env
              Sample.alice Sample.book1 Sample.vocab2 [(str "word", JStr (str " dry "))]
              Sample.world 0xb001%N 0xa1%N 0xc002%N 0%nat 1%nat Sample.aliceBook
              (Vocab.mk 0xc002 (str "arid") (str "very dry"))
              sample_world_wf eq_refl eq_refl eq_refl eq_refl eq_refl eq_refl eq_refl
              eq_refl eq_refl)
    as (updated & stored & w' & Hrun & _ & Hword & _ & Hdef & _ & _ & Hsib & _).
  { intros [H _]. discriminate H. }
  exists updated, stored, w'. split; [exact Hrun|]. split; [exact Hword|].
  split; [exact (Hdef eq_refl)|]. exact (Hsib 0%nat ltac:(discriminate)).
Defined.

Lemma updateProgress_coerces_page_witness :
  ToNumber (getProp [(str "page", JStr (str "5"))] (str "page")) = Normal (Number_of_Z 5)
  ∧ updateProgress Sample.isValid Sample.castObjectId Sample.env Sample.alice Sample.book1
      [(str "page", JStr (str "5"))] Sample.world
    = updateProgress Sample.isValid Sample.castObjectId Sample.env Sample.alice Sample.book1
        [(str "page", JNum (Number_of_Z 5))] Sample.world.
Proof.
  split; [vm_compute; reflexivity|].
  apply (updateProgress_coerces_page Sample.isValid Sample.castObjectId Sample.env
           Sample.alice Sample.book1 [(str "page", JStr (str "5"))]
           [(str "page", JNum (Number_of_Z 5))] Sample.world (Number_of_Z 5)).
  - vm_compute. reflexivity.
  - reflexivity.
Defined.

Lemma unusable_field_is_absent_witness :
  Sample.isValid Sample.book1 = true ∧ Sample.isValid Sample.vocab2 = true
  ∧ updateVocab Sample.isValid Sample.castObjectId Sample.env Sample.alice Sample.book1
      Sample.vocab2 [(str "word", JNum pos_zero); (str "definition", JStr (str "parched"))]
      Sample.world
    = updateVocab Sample.isValid Sample.castObjectId Sample.env Sample.alice Sample.book1
        Sample.vocab2 [(str "definition", JStr (str "parched"))] Sample.world.
Proof.
  split; [reflexivity|]. split; [reflexivity|].
  pose proof (unusable_field_is_absent Sample.isValid Sample.castObjectId Sample.env
                Sample.alice Sample.book1 Sample.vocab2
                [(str "definition", JStr (str "parched"))] Sample.world eq_refl eq_refl)
    as (_ & Hsame & _).
  apply Hsame; reflexivity.
Defined.

Lemma upload_defaults_missing_page_count_witness :
  ∃ newBook w',
    uploadBook Sample.castObjectId (Sample.set_pdf (Normal JUndefined) Sample.env)
      Sample.alice (Some Sample.pdfFile) [] Sample.world
    = (mkResponse 201 (BBook (Book.toJSON newBook)), w')
    ∧ Book.totalPages newBook = pos_zero.
Proof.
  destruct (upload_defaults_missing_page_count Sample.castObjectId
              (Sample.set_pdf (Normal JUndefined) Sample.env) Sample.alice 0xa1%N
              Sample.pdfFile [] Sample.world eq_refl eq_refl eq_refl) as [Hok _].
  destruct (Hok JUndefined (str "https://res.example/new.pdf") (str "my_ebooks/new")
              eq_refl eq_refl eq_refl eq_refl eq_refl eq_refl eq_refl)
    as (newBook & w' & Hrun & Htotal & _).
  { apply (bool_decide_unpack _). vm_compute. exact I. }
  exists newBook, w'. split; [exact Hrun|exact Htotal].
Defined.

Lemma deleteBook_blob_before_record_witness :
  deleteBook Sample.isValid Sample.castObjectId (Sample.set_destroy_fails true Sample.env)
    Sample.alice Sample.book1 Sample.world
  = (error 500 "Delete failed.", Sample.world)
  ∧ log (deleteBook Sample.isValid Sample.castObjectId Sample.env Sample.alice Sample.book1
           Sample.world).2
    = [CloudDestroy (str "my_ebooks/dune"); BookDelete 0xb001].
Proof.
  split.
  - destruct (deleteBook_blob_before_record Sample.isValid Sample.castObjectId
                (Sample.set_destroy_fails true Sample.env) Sample.alice Sample.book1
                0xb001%N 0xa1%N Sample.world 0%nat Sample.aliceBook
                sample_world_wf eq_refl eq_refl eq_refl eq_refl eq_refl) as [Hfail _].
    exact (Hfail eq_refl).
  - destruct (deleteBook_blob_before_record Sample.isValid Sample.castObjectId
                Sample.env Sample.alice Sample.book1
                0xb001%N 0xa1%N Sample.world 0%nat Sample.aliceBook
                sample_world_wf eq_refl eq_refl eq_refl eq_refl eq_refl)
      as (_ & _ & _ & Hlog).
    apply Hlog. vm_compute. discriminate.
Defined.

Lemma login_failures_identical_witness :
  (login Sample.toLowerCase Sample.bcrypt_compare Sample.jwt_sign Sample.env
     [(str "email", JStr (str "mallory@example.com")); (str "password", JStr (str "x"))]
     Sample.world).1
  = (login Sample.toLowerCase Sample.bcrypt_compare Sample.jwt_sign Sample.env
       [(str "email", JStr (str " Alice@Example.com "));
        (str "password", JStr (str "wrong-password"))]
       Sample.world).1.
Proof.
  apply (login_failures_identical Sample.toLowerCase Sample.bcrypt_compare Sample.jwt_sign
           Sample.env Sample.world
           [(str "email", JStr (str "mallory@example.com")); (str "password", JStr (str "x"))]
           [(str "email", JStr (str " Alice@Example.com "));
            (str "password", JStr (str "wrong-password"))]
           (str "mallory@example.com") (str "x") (str " Alice@Example.com ")
           (str "wrong-password") 0%nat
           (User.mk 0xa1 (str "alice@example.com") (str "$2a$12$TestPass123!")));
    vm_compute; reflexivity.
Defined.

(** ** The further properties at work on the sample data *)

Lemma isValidEmail_accepts_witness :
  isValidEmail (str "bob@example.com") = true
  ∧ count_occ N.eq_dec (str "bob@example.com") 64%N = 1%nat.
Proof.
  assert (H : isValidEmail (str "bob@example.com") = true) by reflexivity.
  split; [exact H|]. exact (proj1 (proj2 (isValidEmail_accepts _ H))).
Defined.

Lemma signup_keeps_emails_distinct_witness :
  NoDup (User.email <$>
         users (signup Sample.toLowerCase SampleAccounts.bcrypt_hash Sample.env 7
                  SampleAccounts.bobSignup Sample.world).2).
Proof. apply signup_keeps_emails_distinct. apply NoDup_singleton. Defined.

Lemma signup_same_email_conflict_witness :
  signup Sample.toLowerCase SampleAccounts.bcrypt_hash Sample.env 8 SampleAccounts.bobAgain
    (signup Sample.toLowerCase SampleAccounts.bcrypt_hash Sample.env 7
       SampleAccounts.bobSignup Sample.world).2
  = (error 409 "Email already in use.",
     (signup Sample.toLowerCase SampleAccounts.bcrypt_hash Sample.env 7
        SampleAccounts.bobSignup Sample.world).2).
Proof.
  rewrite (signup_same_email_conflict Sample.toLowerCase SampleAccounts.bcrypt_hash
             Sample.env Sample.env 7 8 SampleAccounts.bobSignup SampleAccounts.bobAgain
             Sample.world (str "  Bob@Example.com ") (str "bob@EXAMPLE.com"));
    reflexivity.
Defined.

Lemma signup_then_login_witness :
  (login Sample.toLowerCase Sample.bcrypt_compare Sample.jwt_sign Sample.env
     SampleAccounts.bobSignup
     (signup Sample.toLowerCase SampleAccounts.bcrypt_hash Sample.env 7
        SampleAccounts.bobSignup Sample.world).2).1
  = json (BToken (str "jwt") 0xe001%N).
Proof.
  rewrite (signup_then_login Sample.toLowerCase Sample.bcrypt_compare
             SampleAccounts.bcrypt_hash Sample.jwt_sign Sample.env Sample.env 7
             SampleAccounts.bobSignup Sample.world (str "CorrectHorse1"));
    reflexivity.
Defined.

Lemma changePassword_then_login_witness :
  (login Sample.toLowerCase Sample.bcrypt_compare Sample.jwt_sign Sample.env
     SampleAccounts.aliceLogin
     (changePassword Sample.castObjectId Sample.bcrypt_compare SampleAccounts.bcrypt_hash
        Sample.env 9 Sample.alice SampleAccounts.aliceChange Sample.world).2).1
  = json (BToken (str "jwt") 0xa1%N).
Proof.
  rewrite (changePassword_then_login Sample.castObjectId Sample.toLowerCase
             Sample.bcrypt_compare SampleAccounts.bcrypt_hash Sample.jwt_sign
             Sample.env Sample.env 9 Sample.alice SampleAccounts.aliceChange
             SampleAccounts.aliceLogin Sample.world 0xa1%N 0%nat
             (User.mk 0xa1 (str "alice@example.com") (str "$2a$12$TestPass123!"))
             (str "  NewPass456!  ") (str "alice@example.com"));
    reflexivity.
Defined.

Lemma listBooks_newest_first_witness :
  ∃ bs,
    listBooks Sample.castObjectId Sample.env Sample.alice Sample.world
    = (json (BBooks (Book.toJSON <$> bs)), Sample.world)
    ∧ bs ≡ₚ [Sample.aliceBook].
Proof.
  destruct (listBooks_newest_first Sample.castObjectId Sample.env Sample.alice 0xa1%N
              Sample.world eq_refl eq_refl) as (bs & Hlist & Hperm & _).
  by exists bs.
Defined.

Lemma addNote_then_getNotes_witness :
  (getNotes Sample.isValid Sample.castObjectId Sample.env Sample.alice Sample.book1
     (addNote Sample.isValid Sample.castObjectId Sample.env Sample.alice Sample.book1
        SampleAccounts.noteBody Sample.world).2).1
  = json (BNotes (Book.notes Sample.aliceBook
                  ++ [Note.mk 0xe001 (str "Chapter 2") (str "Spice.") 1700000002000])).
Proof.
  destruct (addNote_then_getNotes Sample.isValid Sample.castObjectId Sample.env Sample.env
              Sample.alice Sample.book1 SampleAccounts.noteBody Sample.world
              0xb001%N 0xa1%N 0%nat Sample.aliceBook (str "Chapter 2") (str "Spice.")
              sample_world_wf eq_refl eq_refl eq_refl eq_refl eq_refl eq_refl eq_refl
              eq_refl eq_refl) as [_ Hget].
  by rewrite Hget.
Defined.

Lemma deleteNote_then_gone_witness :
  (deleteNote Sample.isValid Sample.castObjectId Sample.env Sample.alice Sample.book1
     SampleAccounts.note1
     (deleteNote Sample.isValid Sample.castObjectId Sample.env Sample.alice Sample.book1
        SampleAccounts.note1 Sample.world).2).1
  = error 404 "Note not found.".
Proof.
  destruct (deleteNote_then_gone Sample.isValid Sample.castObjectId Sample.env Sample.env
              Sample.alice Sample.book1 SampleAccounts.note1 Sample.world
              0xb001%N 0xa1%N 0xd001%N 0%nat 0%nat Sample.aliceBook
              (Note.mk 0xd001 (str "Important point") (str "Water is scarce.")
                 1700000001000)
              sample_world_wf eq_refl eq_refl eq_refl eq_refl eq_refl eq_refl eq_refl
              eq_refl eq_refl eq_refl) as (_ & _ & Hagain).
  by rewrite Hagain.
Defined.

Lemma deleteVocab_then_gone_witness :
  (updateVocab Sample.isValid Sample.castObjectId Sample.env Sample.alice Sample.book1
     Sample.vocab2 SampleAccounts.vocabBody
     (deleteVocab Sample.isValid Sample.castObjectId Sample.env Sample.alice Sample.book1
        Sample.vocab2 Sample.world).2).1
  = error 404 "Vocab not found.".
Proof.
  destruct (deleteVocab_then_gone Sample.isValid Sample.castObjectId Sample.env Sample.env
              Sample.alice Sample.book1 Sample.vocab2 SampleAccounts.vocabBody Sample.world
              0xb001%N 0xa1%N 0xc002%N 0%nat 1%nat Sample.aliceBook
              (Vocab.mk 0xc002 (str "arid") (str "very dry"))
              sample_world_wf eq_refl eq_refl eq_refl eq_refl eq_refl eq_refl eq_refl
              eq_refl eq_refl eq_refl) as (_ & _ & Hupdate).
  by rewrite Hupdate.
Defined.

Lemma addVocab_appends_witness :
  (addVocab Sample.isValid Sample.castObjectId Sample.env Sample.alice Sample.book1
     SampleAccounts.vocabBody Sample.world).1
  = json (BVocabulary (Book.vocabulary Sample.aliceBook
                       ++ [Vocab.mk 0xe001 (str "melange") (str "the spice")])).
Proof.
  rewrite (addVocab_appends Sample.isValid Sample.castObjectId Sample.env Sample.alice
             Sample.book1 SampleAccounts.vocabBody Sample.world 0xb001%N 0xa1%N 0%nat
             Sample.aliceBook (str " melange ") (str "the spice") sample_world_wf);
    done.
Defined.

Lemma deleteBook_then_not_found_witness :
  (getNotes Sample.isValid Sample.castObjectId Sample.env Sample.alice Sample.book1
     (deleteBook Sample.isValid Sample.castObjectId Sample.env Sample.alice Sample.book1
        Sample.world).2).1
  = error 404 "Book not found.".
Proof.
  destruct (deleteBook_then_not_found Sample.isValid Sample.castObjectId Sample.env
              Sample.env Sample.alice Sample.book1 0xb001%N 0xa1%N Sample.world 0%nat
              Sample.aliceBook sample_world_wf eq_refl eq_refl eq_refl eq_refl eq_refl
              eq_refl eq_refl eq_refl) as (_ & _ & _ & _ & Hnotes & _).
  by rewrite Hnotes.
Defined.

Lemma uploadBook_leaves_orphan_blob_witness :
  let '(r, w') := uploadBook Sample.castObjectId SampleAccounts.writesFail Sample.alice
                    (Some Sample.pdfFile) [] Sample.world in
  r = error 500 "Upload failed."
  ∧ books w' = books Sample.world
  ∧ str "my_ebooks/new" ∈ blobs w'
  ∧ log w' = log Sample.world ++ [CloudUpload (str "my_ebooks/new");
                                  Unlink (path Sample.pdfFile)].
Proof.
  exact (uploadBook_leaves_orphan_blob Sample.castObjectId SampleAccounts.writesFail
           Sample.alice Sample.pdfFile [] Sample.world (JNum (Number_of_Z 10))
           (str "https://res.example/new.pdf") (str "my_ebooks/new")
           eq_refl eq_refl eq_refl eq_refl eq_refl).
Defined.

Lemma reachable_schema_valid_witness : Forall schema_valid (books Sample.uploaded).
Proof.
  apply (reachable_schema_valid Sample.isValid Sample.castObjectId).
  apply reach_upload, reach_start.
Defined.

Lemma progressPercentage_monotone_witness :
  ∃ p1 p2,
    Book.progressPercentage (with_pages 5 10 Sample.aliceBook) = Number_of_Z p1
    ∧ Book.progressPercentage (with_pages 10 10 Sample.aliceBook) = Number_of_Z p2
    ∧ p1 <= p2 ∧ p2 = 100.
Proof.
  assert (Ht : 0 < 10 < 2 ^ 40) by (split; reflexivity).
  assert (Hc : 0 <= 5 <= 10) by lia.
  assert (Hl : 10 <= 10) by lia.
  destruct (progressPercentage_monotone Sample.aliceBook 5 10 10 Ht Hc Hl)
    as (p1 & p2 & H1 & H2 & [_ Hle] & _ & _ & Hlast).
  exists p1, p2. split_and!; [done..|]. by apply Hlast.
Defined.

Lemma parsePage_decimal_string_witness :
  parsePage (JStr (str " 42 ")) = Normal (Some (Number_of_Z 42)).
Proof.
  assert (Hds : Forall (λ c, isDigit c = true) (str "42")) by by repeat constructor.
  assert (Hws : Forall (λ c, isWhiteSpace c = true) (str " ")) by by repeat constructor.
  assert (Hne : str "42" ≠ []) by done.
  assert (Hlen : (length (str "42") ≤ 15)%nat) by (simpl; lia).
  exact (proj1 (parsePage_decimal_string (str " ") (str "42") (str " ")
                  Hne Hds Hlen Hws Hws)).
Defined.

Lemma updateProgress_zero_like_witness :
  (updateProgress Sample.isValid Sample.castObjectId Sample.env Sample.alice Sample.book1
     [(str "page", JNull)] Sample.world).1
  = json (BProgress pos_zero pos_zero).
Proof.
  rewrite (updateProgress_zero_like Sample.isValid Sample.castObjectId Sample.env
             Sample.alice Sample.book1 [(str "page", JNull)] Sample.world
             0xb001%N 0xa1%N 0%nat Sample.aliceBook sample_world_wf);
    try reflexivity.
  by left.
Defined.

Lemma updateProgress_then_listBooks_witness :
  ∃ bs,
    listBooks Sample.castObjectId Sample.env Sample.alice
      (updateProgress Sample.isValid Sample.castObjectId Sample.env Sample.alice
         Sample.book1 [(str "page", JNum (Number_of_Z 30))] Sample.world).2
    = (json (BBooks bs),
       (updateProgress Sample.isValid Sample.castObjectId Sample.env Sample.alice
          Sample.book1 [(str "page", JNum (Number_of_Z 30))] Sample.world).2)
    ∧ Book.toJSON (Book.set_currentPage (Number_of_Z 30) Sample.aliceBook) ∈ bs.
Proof.
  assert (Hle : ¬ (Number_gt (Book.totalPages Sample.aliceBook) pos_zero = true
                   ∧ Number_gt (Number_of_Z 30) (Book.totalPages Sample.aliceBook) = true))
    by (intros [_ H]; discriminate H).
  destruct (updateProgress_then_listBooks Sample.isValid Sample.castObjectId Sample.env
              Sample.env Sample.alice Sample.book1 [(str "page", JNum (Number_of_Z 30))]
              Sample.world 0xb001%N 0xa1%N (Number_of_Z 30) 0%nat Sample.aliceBook
              sample_world_wf eq_refl eq_refl eq_refl eq_refl eq_refl eq_refl eq_refl
              eq_refl eq_refl eq_refl Hle) as (bs & _ & Hlist & Hin & _).
  exists bs. split; [exact Hlist|exact Hin].
Defined.

Lemma updateNote_then_getNotes_witness :
  (getNotes Sample.isValid Sample.castObjectId Sample.env Sample.alice Sample.book1
     (updateNote Sample.isValid Sample.castObjectId Sample.env Sample.alice Sample.book1
        SampleAccounts.note1 [(str "title", JStr (str " Key point "))] Sample.world).2).1
  = json (BNotes [Note.mk 0xd001 (str "Key point") (str "Water is scarce.")
                    1700000001000]).
Proof.
  destruct (updateNote_then_getNotes Sample.isValid Sample.castObjectId Sample.env
              Sample.env Sample.alice Sample.book1 SampleAccounts.note1
              [(str "title", JStr (str " Key point "))] Sample.world
              0xb001%N 0xa1%N 0xd001%N 0%nat 0%nat Sample.aliceBook
              (Note.mk 0xd001 (str "Important point") (str "Water is scarce.")
                 1700000001000)
              sample_world_wf eq_refl eq_refl eq_refl eq_refl eq_refl eq_refl eq_refl
              eq_refl eq_refl eq_refl) as (_ & _ & _ & _ & _ & Hget); [by intros [? _]|].
  by rewrite Hget.
Defined.
